(** * Traffic simulator front end: scene renderer, connection manager, orchestrator

    A shallow embedding of the client core of the traffic-simulation viewer:

    - [Canvas]  : components/SimulationCanvas.jsx (src/unnamed/part_001), the
                  scene renderer, over a model of the 2D drawing context it
                  programs;
    - [Json]    : the values [JSON.parse] produces;
    - [Hook]    : src/frontend/src/hooks/useWebSocket.js, the connection
                  manager, as a labelled transition system over sockets,
                  timers and React effects;
    - [App]     : App.jsx (src/unnamed/part_000), the session orchestrator:
                  [handleStep] and the snapshot handler; the control client
                  it calls is services/api.js (src/unnamed/part_002);
    - [Orchestrator], [Panel], [Dashboard], [Dom] : the other handlers of
                  App.jsx, components/ControlPanel.jsx, MetricsDashboard.jsx
                  and the DOM markers of components/Vehicles.jsx.

    Line numbers in the comments are those of these files.

    JavaScript numbers are embedded as the rationals they denote ([Q]): NaN
    and the infinities of binary64 are outside the model, and [/] is only the
    source's division where the divisor is not zero.  Where the rounding of
    binary64 matters to a statement, the formula concerned is given again in
    [Binary64], with the arithmetic the code runs.  Snapshots are embedded
    with the types the engine gives their fields (the [propTypes] of
    components/Vehicles.jsx), each defaulted field being missing, [null] or
    present. *)

From Stdlib Require Import ZArith QArith Qminmax List String Ascii Bool Lia Lqa.
From Stdlib Require Import DecimalString Floats.
Import ListNotations.

Local Open Scope string_scope.
Local Open Scope list_scope.

(* ===================================================================== *)
(** ** The scene renderer (SimulationCanvas.jsx)                          *)
(* ===================================================================== *)

Module Canvas.

(** A property of a received object: missing, [null], or holding a value.
    Destructuring defaults apply to the first case only. *)
Inductive field (A : Type) : Type :=
| Undefined
| Null
| Val (a : A).
Arguments Undefined {A}.
Arguments Null {A}.
Arguments Val {A} a.

(** VehicleState, with the keys the engine sends. *)
Module Vehicle.
Record t := mk
  { x : Q; y : Q; color : string; speed : Q; waiting_time : Q }.
End Vehicle.

(** SignalState. *)
Module Light.
Record t := mk
  { x : Q; y : Q; state : string; direction : string; queue_length : Z }.
End Light.

Record Config := mkConfig
  { grid_width : option Q;          (* [None]: the key is absent *)
    grid_height : option Q;
    algorithm : option string }.

Record Snapshot := mkSnapshot
  { steps : option Z;
    vehicles : field (list Vehicle.t);
    traffic_lights : field (list Light.t);
    config : field Config }.

(** The initial state of the orchestrator, [{}]. *)
Definition empty_snapshot : Snapshot :=
  mkSnapshot None Undefined Undefined Undefined.

(** *** The 2D context *)

(** [globalAlpha]: a constant, or the yellow blink
    [0.5 + 0.5 * Math.sin(t / 500)] at wall-clock time [t], kept symbolic. *)
Inductive alpha :=
| Opaque (a : Q)
| Pulse (t : Z).

(** Text handed to [fillText]: [q.toFixed(d)] or [n.toString()]. *)
Inductive text :=
| ToFixed (q : Q) (d : nat)
| ToString (n : Z).

Record ctx_state := mkCtx
  { fillStyle : string;
    strokeStyle : string;
    lineWidth : Q;
    lineDash : list Q;
    globalAlpha : alpha;
    font : string;
    textAlign : string;
    textBaseline : string }.

(** A fresh context, as [getContext('2d')] first returns it. *)
Definition ctx_default : ctx_state :=
  mkCtx "#000000" "#000000" 1 [] (Opaque 1) "10px sans-serif" "start" "alphabetic".

(** Path segments; [ArcTo cx cy r] is the full circle [arc(cx, cy, r, 0, 2*PI)]. *)
Inductive seg :=
| MoveTo (x y : Q)
| LineTo (x y : Q)
| ArcTo (cx cy r : Q).

(** What has been painted, with the context state each call used. *)
Inductive paint :=
| ClearRect (x y w h : Q)
| FillRect (x y w h : Q) (style : string) (a : alpha)
| StrokeRect (x y w h : Q) (style : string) (lw : Q) (dash : list Q) (a : alpha)
| FillPath (p : list seg) (style : string) (a : alpha)
| StrokePath (p : list seg) (style : string) (lw : Q) (dash : list Q) (a : alpha)
| FillText (t : text) (x y : Q) (fnt align baseline style : string) (a : alpha).

(** The canvas element: its backing size, the context (current state, save
    stack, current path) and the painted surface, oldest paint first.  The
    context lives as long as the element, across renders. *)
Record canvas := mkCanvas
  { width : Q;
    height : Q;
    ctx : ctx_state;
    saved : list ctx_state;
    path : list seg;
    surface : list paint }.

(** [<canvas width={800} height={600}>] *)
Definition new_canvas : canvas := mkCanvas 800 600 ctx_default [] [] [].

Definition prog := canvas -> canvas.

Definition seq_prog (f g : prog) : prog := fun c => g (f c).
Notation "f ;; g" := (seq_prog f g) (at level 61, right associativity).

Definition skip : prog := fun c => c.

Definition with_ctx (f : ctx_state -> ctx_state) : prog := fun c =>
  mkCanvas (width c) (height c) (f (ctx c)) (saved c) (path c) (surface c).
Definition with_path (f : list seg -> list seg) : prog := fun c =>
  mkCanvas (width c) (height c) (ctx c) (saved c) (f (path c)) (surface c).
Definition emit (p : canvas -> paint) : prog := fun c =>
  mkCanvas (width c) (height c) (ctx c) (saved c) (path c) (surface c ++ [p c]).

Definition set_fillStyle (s : string) : prog := with_ctx (fun k =>
  mkCtx s (strokeStyle k) (lineWidth k) (lineDash k) (globalAlpha k)
        (font k) (textAlign k) (textBaseline k)).
Definition set_strokeStyle (s : string) : prog := with_ctx (fun k =>
  mkCtx (fillStyle k) s (lineWidth k) (lineDash k) (globalAlpha k)
        (font k) (textAlign k) (textBaseline k)).
Definition set_lineWidth (w : Q) : prog := with_ctx (fun k =>
  mkCtx (fillStyle k) (strokeStyle k) w (lineDash k) (globalAlpha k)
        (font k) (textAlign k) (textBaseline k)).
Definition setLineDash (d : list Q) : prog := with_ctx (fun k =>
  mkCtx (fillStyle k) (strokeStyle k) (lineWidth k) d (globalAlpha k)
        (font k) (textAlign k) (textBaseline k)).
Definition set_globalAlpha (a : alpha) : prog := with_ctx (fun k =>
  mkCtx (fillStyle k) (strokeStyle k) (lineWidth k) (lineDash k) a
        (font k) (textAlign k) (textBaseline k)).
Definition set_font (s : string) : prog := with_ctx (fun k =>
  mkCtx (fillStyle k) (strokeStyle k) (lineWidth k) (lineDash k) (globalAlpha k)
        s (textAlign k) (textBaseline k)).
Definition set_textAlign (s : string) : prog := with_ctx (fun k =>
  mkCtx (fillStyle k) (strokeStyle k) (lineWidth k) (lineDash k) (globalAlpha k)
        (font k) s (textBaseline k)).
Definition set_textBaseline (s : string) : prog := with_ctx (fun k =>
  mkCtx (fillStyle k) (strokeStyle k) (lineWidth k) (lineDash k) (globalAlpha k)
        (font k) (textAlign k) s).

(** [save] pushes the drawing state, [restore] pops it (nothing to pop:
    nothing happens).  The current path and the surface are not part of it. *)
Definition save : prog := fun c =>
  mkCanvas (width c) (height c) (ctx c) (ctx c :: saved c) (path c) (surface c).
Definition restore : prog := fun c =>
  match saved c with
  | [] => c
  | k :: rest => mkCanvas (width c) (height c) k rest (path c) (surface c)
  end.

Definition beginPath : prog := with_path (fun _ => []).
Definition moveTo (x y : Q) : prog := with_path (fun p => p ++ [MoveTo x y]).
Definition lineTo (x y : Q) : prog := with_path (fun p => p ++ [LineTo x y]).
Definition arc (cx cy r : Q) : prog := with_path (fun p => p ++ [ArcTo cx cy r]).

Definition fill : prog := emit (fun c =>
  FillPath (path c) (fillStyle (ctx c)) (globalAlpha (ctx c))).
Definition stroke : prog := emit (fun c =>
  StrokePath (path c) (strokeStyle (ctx c)) (lineWidth (ctx c))
             (lineDash (ctx c)) (globalAlpha (ctx c))).
Definition fillRect (x y w h : Q) : prog := emit (fun c =>
  FillRect x y w h (fillStyle (ctx c)) (globalAlpha (ctx c))).
Definition strokeRect (x y w h : Q) : prog := emit (fun c =>
  StrokeRect x y w h (strokeStyle (ctx c)) (lineWidth (ctx c))
             (lineDash (ctx c)) (globalAlpha (ctx c))).
Definition fillText (t : text) (x y : Q) : prog := emit (fun c =>
  FillText t x y (font (ctx c)) (textAlign (ctx c)) (textBaseline (ctx c))
           (fillStyle (ctx c)) (globalAlpha (ctx c))).

(** [clearRect] erases pixels: a rectangle covering the whole element leaves
    an empty surface, any other is recorded on top of what is there. *)
Definition covers (x y w h : Q) (c : canvas) : bool :=
  Qle_bool x 0 && Qle_bool y 0 &&
  Qle_bool (width c) (x + w) && Qle_bool (height c) (y + h).
Definition clearRect (x y w h : Q) : prog := fun c =>
  if covers x y w h c
  then mkCanvas (width c) (height c) (ctx c) (saved c) (path c) []
  else emit (fun _ => ClearRect x y w h) c.

(** [xs.forEach(f)] *)
Definition forEach {A : Type} (xs : list A) (f : A -> prog) : prog :=
  fun c => fold_left (fun acc a => f a acc) xs c.

(** *** The component *)

Record Props := mkProps
  { simulationState : Snapshot;
    isRunning : bool;
    onCanvasClick : bool }.         (* whether the callback prop is passed *)

(** [const { a = d } = o]: the default replaces a missing property only; a
    [null] one stays [null] (here [None]). *)
Definition or_default {A : Type} (d : A) (f : field A) : option A :=
  match f with
  | Undefined => Some d
  | Null => None
  | Val a => Some a
  end.

(** The names the component body binds (lines 12-18). *)
Record locals := mkLocals
  { l_vehicles : option (list Vehicle.t);
    l_trafficLights : option (list Light.t);
    gridWidth : Q;
    gridHeight : Q }.

Definition or_else {A : Type} (d : A) (o : option A) : A :=
  match o with Some a => a | None => d end.

(** Lines 12-18; [None] is the TypeError of destructuring a [null] config. *)
Definition destructure (s : Snapshot) : option locals :=
  match or_default (mkConfig None None None) (config s) with
  | None => None
  | Some cfg =>
      Some (mkLocals (or_default [] (vehicles s))
                     (or_default [] (traffic_lights s))
                     (or_else 50 (grid_width cfg))
                     (or_else 50 (grid_height cfg)))
  end.

(** [q > 0] *)
Definition Qpos_bool (q : Q) : bool := negb (Qle_bool q 0).

(** Line 76: [Math.max(3, Math.min(8, speed * 2))] *)
Definition marker_size (speed : Q) : Q := Qmax 3 (Qmin 8 (speed * 2)).

(** Line 78: [waitingTime > 0 ? 0.7 : 1] *)
Definition vehicle_opacity (waitingTime : Q) : Q :=
  if Qpos_bool waitingTime then 7 # 10 else 1.

(** Lines 73-74 and 105-106: [(x / gridWidth) * canvas.width] *)
Definition scale (x grid size : Q) : Q := (x / grid) * size.

Definition crossSize : Q := 20.

(** Lines 27-68: the static background. *)
Definition draw_background : prog := fun c =>
  let W := width c in
  let H := height c in
  ( clearRect 0 0 W H ;;
    set_fillStyle "#2c3e50" ;;
    fillRect 0 0 W H ;;
    set_strokeStyle "#34495e" ;;
    set_lineWidth 2 ;;
    beginPath ;; moveTo 0 (H / 2) ;; lineTo W (H / 2) ;; stroke ;;
    beginPath ;; moveTo (W / 2) 0 ;; lineTo (W / 2) H ;; stroke ;;
    set_fillStyle "#7f8c8d" ;;
    fillRect (W / 2 - crossSize / 2) (H / 2 - crossSize / 2) crossSize crossSize ;;
    set_strokeStyle "#ecf0f1" ;;
    set_lineWidth 1 ;;
    setLineDash [5; 10] ;;
    beginPath ;; moveTo 0 (H / 2) ;; lineTo W (H / 2) ;; stroke ;;
    beginPath ;; moveTo (W / 2) 0 ;; lineTo (W / 2) H ;; stroke ;;
    setLineDash [] ) c.

(** Lines 70-100: one vehicle. *)
Definition draw_vehicle (gw gh : Q) (vehicle : Vehicle.t) : prog := fun c =>
  let scaleX := scale (Vehicle.x vehicle) gw (width c) in
  let scaleY := scale (Vehicle.y vehicle) gh (height c) in
  let size := marker_size (Vehicle.speed vehicle) in
  let opacity := vehicle_opacity (Vehicle.waiting_time vehicle) in
  ( save ;;
    set_globalAlpha (Opaque opacity) ;;
    set_fillStyle (Vehicle.color vehicle) ;;
    beginPath ;; arc scaleX scaleY size ;; fill ;;
    set_strokeStyle "#fff" ;;
    set_lineWidth 1 ;;
    stroke ;;
    (if Qpos_bool (Vehicle.speed vehicle)
     then set_fillStyle "#fff" ;;
          set_font "8px Arial" ;;
          set_textAlign "center" ;;
          fillText (ToFixed (Vehicle.speed vehicle) 1) scaleX (scaleY + size + 10)
     else skip) ;;
    restore ) c.

(** What a property read on an object literal whose own values are colours
    gives: an own value, a member inherited from [Object.prototype] (a
    function or an object: truthy, and no colour), or [undefined]. *)
Inductive entry :=
| Colour (c : string)
| Member
| NoEntry.

(** The property names every object inherits. *)
Definition object_prototype_members : list string :=
  [ "constructor"; "__defineGetter__"; "__defineSetter__"; "hasOwnProperty";
    "__lookupGetter__"; "__lookupSetter__"; "isPrototypeOf";
    "propertyIsEnumerable"; "toString"; "valueOf"; "__proto__";
    "toLocaleString" ].

(** Lines 108-112: [stateColors[state]] *)
Definition stateColors (state : string) : entry :=
  if String.eqb state "RED" then Colour "#ff4444"
  else if String.eqb state "YELLOW" then Colour "#ffaa00"
  else if String.eqb state "GREEN" then Colour "#44ff44"
  else if existsb (String.eqb state) object_prototype_members then Member
  else NoEntry.

(** Line 117, [ctx.fillStyle = stateColors[state] || '#666']: the fill style
    after the assignment when it was [previous] before.  A value that is no
    colour is ignored by the setter. *)
Definition fill_of (previous state : string) : string :=
  match stateColors state with
  | Colour c => c
  | Member => previous
  | NoEntry => "#666"
  end.

(** Lines 102-159: one signal, at wall-clock time [now]. *)
Definition draw_light (now : Z) (gw gh : Q) (light : Light.t) : prog := fun c =>
  let scaleX := scale (Light.x light) gw (width c) in
  let scaleY := scale (Light.y light) gh (height c) in
  let w := if String.eqb (Light.direction light) "horizontal" then 20 else 8 in
  let h := if String.eqb (Light.direction light) "horizontal" then 8 else 20 in
  ( set_fillStyle (fill_of (fillStyle (ctx c)) (Light.state light)) ;;
    fillRect (scaleX - w / 2) (scaleY - h / 2) w h ;;
    set_strokeStyle "#333" ;;
    set_lineWidth 2 ;;
    strokeRect (scaleX - w / 2) (scaleY - h / 2) w h ;;
    (if String.eqb (Light.state light) "YELLOW"
     then save ;;
          set_globalAlpha (Pulse now) ;;
          set_fillStyle "#fff" ;;
          fillRect (scaleX - w / 2 + 2) (scaleY - h / 2 + 2) (w - 4) (h - 4) ;;
          restore
     else skip) ;;
    (if (0 <? Light.queue_length light)%Z
     then set_fillStyle "rgba(255, 100, 100, 0.9)" ;;
          beginPath ;; arc scaleX (scaleY - 15) 10 ;; fill ;;
          set_fillStyle "#fff" ;;
          set_font "bold 10px Arial" ;;
          set_textAlign "center" ;;
          set_textBaseline "middle" ;;
          fillText (ToString (Light.queue_length light)) scaleX (scaleY - 15)
     else skip) ) c.

(** How an effect or a render ends: normally, or by an uncaught TypeError
    (with what had been painted by then). *)
Inductive outcome :=
| Done (c : canvas)
| Threw (c : canvas).

(** Lines 20-160, the drawing effect on the mounted canvas: [forEach] on a
    [null] list is a TypeError. *)
Definition draw_effect (now : Z) (l : locals) (c : canvas) : outcome :=
  let c1 := draw_background c in
  match l_vehicles l with
  | None => Threw c1
  | Some vs =>
      let c2 := forEach vs (draw_vehicle (gridWidth l) (gridHeight l)) c1 in
      match l_trafficLights l with
      | None => Threw c2
      | Some ls =>
          Done (forEach ls (draw_light now (gridWidth l) (gridHeight l)) c2)
      end
  end.

(** Lines 203-272: the DOM laid over the canvas. *)
Record overlay := mkOverlay
  { o_live : bool;                  (* the LIVE badge *)
    o_paused : bool;                (* the PAUSED badge *)
    o_step : Z;
    o_vehicles : nat;
    o_grid : Q * Q;
    o_algorithm : option string }.

(** [simulationState.config?.algorithm && ...]: shown when non-empty. *)
Definition shown_algorithm (s : Snapshot) : option string :=
  match config s with
  | Val cfg =>
      match algorithm cfg with
      | Some a => if String.eqb a EmptyString then None else Some a
      | None => None
      end
  | _ => None
  end.

(** The component body: bindings, then the JSX ([vehicles.length] of a
    [null] list is a TypeError). *)
Definition SimulationCanvas (p : Props) : option (locals * overlay) :=
  match destructure (simulationState p) with
  | None => None
  | Some l =>
      match l_vehicles l with
      | None => None
      | Some vs =>
          Some (l, mkOverlay (isRunning p) (negb (isRunning p))
                             (or_else 0%Z (steps (simulationState p)))
                             (List.length vs) (gridWidth l, gridHeight l)
                             (shown_algorithm (simulationState p)))
      end
  end.

(** One delivery of props to the mounted component at time [now]: render,
    then the effect.  Every snapshot is a freshly parsed object, so the
    dependency array of the effect has changed and the effect runs. *)
Definition present (now : Z) (p : Props) (c : canvas) : outcome * option overlay :=
  match SimulationCanvas p with
  | None => (Threw c, None)
  | Some (l, o) => (draw_effect now l c, Some o)
  end.

Definition canvas_of (r : outcome) : canvas :=
  match r with Done c => c | Threw c => c end.

(** Successive deliveries to one mounted component; an uncaught error
    unmounts it and ends the run. *)
Fixpoint present_all (frames : list (Z * Props)) (c : canvas)
  : outcome * option overlay :=
  match frames with
  | [] => (Done c, None)
  | [(now, p)] => present now p c
  | (now, p) :: rest =>
      match present now p c with
      | (Done c', _) => present_all rest c'
      | failed => failed
      end
  end.

(** What the user sees: the painted surface and the overlay. *)
Definition visual (r : outcome * option overlay) : list paint * option overlay :=
  (surface (canvas_of (fst r)), snd r).

(** What one vehicle adds to the surface of a canvas of size [W] x [H] whose
    context is in state [k] when the vehicle is drawn. *)
Definition vehicle_paints (W H : Q) (k : ctx_state) (gw gh : Q)
    (v : Vehicle.t) : list paint :=
  let scaleX := scale (Vehicle.x v) gw W in
  let scaleY := scale (Vehicle.y v) gh H in
  let size := marker_size (Vehicle.speed v) in
  let a := Opaque (vehicle_opacity (Vehicle.waiting_time v)) in
  [ FillPath [ArcTo scaleX scaleY size] (Vehicle.color v) a;
    StrokePath [ArcTo scaleX scaleY size] "#fff" 1 (lineDash k) a ] ++
  (if Qpos_bool (Vehicle.speed v)
   then [FillText (ToFixed (Vehicle.speed v) 1) scaleX (scaleY + size + 10)
                  "8px Arial" "center" (textBaseline k) "#fff" a]
   else []).

(** What one signal adds, drawn at time [now] under opacity [a] and line
    dash [dash] by a context whose fill style is [fill]. *)
Definition light_paints (now : Z) (W H : Q) (a : alpha) (dash : list Q)
    (gw gh : Q) (fill : string) (light : Light.t) : list paint :=
  let scaleX := scale (Light.x light) gw W in
  let scaleY := scale (Light.y light) gh H in
  let w := if String.eqb (Light.direction light) "horizontal" then 20 else 8 in
  let h := if String.eqb (Light.direction light) "horizontal" then 8 else 20 in
  [ FillRect (scaleX - w / 2) (scaleY - h / 2) w h
             (fill_of fill (Light.state light)) a;
    StrokeRect (scaleX - w / 2) (scaleY - h / 2) w h "#333" 2 dash a ] ++
  (if String.eqb (Light.state light) "YELLOW"
   then [FillRect (scaleX - w / 2 + 2) (scaleY - h / 2 + 2) (w - 4) (h - 4)
                  "#fff" (Pulse now)]
   else []) ++
  (if (0 <? Light.queue_length light)%Z
   then [FillPath [ArcTo scaleX (scaleY - 15) 10] "rgba(255, 100, 100, 0.9)" a;
         FillText (ToString (Light.queue_length light)) scaleX (scaleY - 15)
                  "bold 10px Arial" "center" "middle" "#fff" a]
   else []).

(** The fill style one signal leaves behind. *)
Definition fill_after (fill : string) (light : Light.t) : string :=
  if (0 <? Light.queue_length light)%Z then "#fff"
  else fill_of fill (Light.state light).

(** What the signals of a frame add, one after the other. *)
Fixpoint lights_paints (now : Z) (W H : Q) (a : alpha) (dash : list Q)
    (gw gh : Q) (fill : string) (ls : list Light.t) : list paint :=
  match ls with
  | [] => []
  | l :: rest =>
      light_paints now W H a dash gw gh fill l ++
      lights_paints now W H a dash gw gh (fill_after fill l) rest
  end.

(** The background, painted from a context in state [k]. *)
Definition background_paints (W H : Q) (k : ctx_state) : list paint :=
  let a := globalAlpha k in
  [ FillRect 0 0 W H "#2c3e50" a;
    StrokePath [MoveTo 0 (H / 2); LineTo W (H / 2)] "#34495e" 2 (lineDash k) a;
    StrokePath [MoveTo (W / 2) 0; LineTo (W / 2) H] "#34495e" 2 (lineDash k) a;
    FillRect (W / 2 - crossSize / 2) (H / 2 - crossSize / 2) crossSize crossSize
             "#7f8c8d" a;
    StrokePath [MoveTo 0 (H / 2); LineTo W (H / 2)] "#ecf0f1" 1 [5; 10] a;
    StrokePath [MoveTo (W / 2) 0; LineTo (W / 2) H] "#ecf0f1" 1 [5; 10] a ].

(** The context once the background is painted. *)
Definition ctx_after_background (k : ctx_state) : ctx_state :=
  mkCtx "#7f8c8d" "#ecf0f1" 1 [] (globalAlpha k)
        (font k) (textAlign k) (textBaseline k).

(** A whole frame painted on a canvas of size [W] x [H] whose context is in
    state [k] when the effect starts. *)
Definition frame_paints (now : Z) (W H : Q) (k : ctx_state) (gw gh : Q)
    (vs : list Vehicle.t) (ls : list Light.t) : list paint :=
  background_paints W H k ++
  flat_map (vehicle_paints W H (ctx_after_background k) gw gh) vs ++
  lights_paints now W H (globalAlpha k) [] gw gh "#7f8c8d" ls.

(** The opacity a paint was made with, and the paint with that set aside. *)
Definition paint_alpha (p : paint) : option alpha :=
  match p with
  | ClearRect _ _ _ _ => None
  | FillRect _ _ _ _ _ a => Some a
  | StrokeRect _ _ _ _ _ _ _ a => Some a
  | FillPath _ _ a => Some a
  | StrokePath _ _ _ _ a => Some a
  | FillText _ _ _ _ _ _ _ a => Some a
  end.

Definition with_alpha (a : alpha) (p : paint) : paint :=
  match p with
  | ClearRect x y w h => ClearRect x y w h
  | FillRect x y w h s _ => FillRect x y w h s a
  | StrokeRect x y w h s lw d _ => StrokeRect x y w h s lw d a
  | FillPath path s _ => FillPath path s a
  | StrokePath path s lw d _ => StrokePath path s lw d a
  | FillText t x y f al b s _ => FillText t x y f al b s a
  end.

(** The snapshot with what the component substitutes written out. *)
Definition with_defaults (s : Snapshot) : Snapshot :=
  mkSnapshot (steps s)
    (match vehicles s with Undefined => Val [] | f => f end)
    (match traffic_lights s with Undefined => Val [] | f => f end)
    (match config s with
     | Undefined => Val (mkConfig (Some 50) (Some 50) None)
     | Val cfg => Val (mkConfig (Some (or_else 50 (grid_width cfg)))
                                (Some (or_else 50 (grid_height cfg)))
                                (algorithm cfg))
     | Null => Null
     end).

(** [c'] is [c] painted further. *)
Definition extends (c c' : canvas) : Prop :=
  width c' = width c /\ height c' = height c /\
  exists ps, surface c' = surface c ++ ps.

(** *** Clicks *)

(** Lines 188-199: the element is styled [width: 100%; height: 100%], so the
    browser stretches the bitmap of [backing] pixels over a box of [box] CSS
    pixels; a point painted at [p] shows at [on_screen backing box p]. *)
Definition on_screen (backing box p : Q) : Q := p * (box / backing).

Record DOMRect := mkRect
  { left : Q; top : Q; rect_width : Q; rect_height : Q }.

(** Lines 162-173; the result is the pair handed to [onCanvasClick], [None]
    when the handler returns early. *)
Definition handleCanvasClick (l : locals) (p : Props) (canvasRef : option DOMRect)
    (clientX clientY : Q) : option (Q * Q) :=
  match canvasRef with
  | None => None
  | Some rect =>
      if negb (onCanvasClick p) then None
      else
        let x := clientX - left rect in
        let y := clientY - top rect in
        let simX := (x / rect_width rect) * gridWidth l in
        let simY := (y / rect_height rect) * gridHeight l in
        Some (simX, simY)
  end.

(** *** Frames in sequence *)

(** None of the three fields the component reads is [null]. *)
Definition well_formed (s : Snapshot) : Prop :=
  vehicles s <> Null /\ traffic_lights s <> Null /\ config s <> Null.

(** [queue_length > 0], the condition of line 139. *)
Definition queued (l : Light.t) : bool := (0 <? Light.queue_length l)%Z.

(** Some signal of the snapshot gets a queue badge. *)
Definition shows_badge (s : Snapshot) : bool :=
  match traffic_lights s with
  | Val ls => existsb queued ls
  | _ => false
  end.

(** No signal of the snapshot is in state [YELLOW]. *)
Definition no_yellow (s : Snapshot) : bool :=
  match traffic_lights s with
  | Val ls => forallb (fun l => negb (String.eqb (Light.state l) "YELLOW")) ls
  | _ => true
  end.

(** A canvas in the state the element is created in, but for the text
    baseline, which is [b]. *)
Definition fresh_but (b : string) (c : canvas) : Prop :=
  width c = 800 /\ height c = 600 /\ saved c = [] /\
  globalAlpha (ctx c) = Opaque 1 /\ lineDash (ctx c) = [] /\
  textBaseline (ctx c) = b.

(** The number of paints one frame makes. *)
Definition paint_count (vs : list Vehicle.t) (ls : list Light.t) : nat :=
  6 + 2 * List.length vs
    + List.length (filter (fun v => Qpos_bool (Vehicle.speed v)) vs)
    + 2 * List.length ls
    + List.length (filter (fun l => String.eqb (Light.state l) "YELLOW") ls)
    + 2 * List.length (filter queued ls).

Definition is_text (p : paint) : bool :=
  match p with
  | FillText _ _ _ _ _ _ _ _ => true
  | _ => false
  end.

End Canvas.

(* ===================================================================== *)
(** ** The arithmetic of the code                                          *)
(* ===================================================================== *)

(** JavaScript numbers are IEEE 754 binary64 values.  The drawing model
    above computes with the rationals these values stand for; here are the
    coordinate formulas with the arithmetic the code runs. *)
Module Binary64.
Local Open Scope float_scope.

(** SimulationCanvas.jsx, lines 73-74 and 105-106:
    [(x / gridWidth) * canvas.width] *)
Definition scaleX (x gridWidth width : float) : float :=
  (x / gridWidth) * width.

(** SimulationCanvas.jsx, lines 165-169: [x = e.clientX - rect.left] and
    [simX = (x / rect.width) * gridWidth] *)
Definition simX (clientX left width gridWidth : float) : float :=
  let x := clientX - left in
  (x / width) * gridWidth.


End Binary64.

(* ===================================================================== *)
(** ** JSON values                                                        *)
(* ===================================================================== *)

Module Json.

(** What [JSON.parse] returns.  An object holds its members in source
    order, one binding per key. *)
#[warnings="-register-all"]
Inductive json :=
| JNull
| JBool (b : bool)
| JNum (q : Q)
| JStr (s : string)
| JArr (l : list json)
| JObj (m : list (string * json)).

Fixpoint assoc (key : string) (m : list (string * json)) : option json :=
  match m with
  | [] => None
  | (k, v) :: rest => if String.eqb k key then Some v else assoc key rest
  end.

(** A property read [v.key]. *)
Inductive read :=
| Throws                 (* TypeError: v is null *)
| Missing                (* undefined *)
| Found (v : json).

(** [v.key] for the keys this program reads ([type], [metrics],
    [historical_metrics]), none of which is a built-in property of an array,
    a string, a number or a boolean. *)
Definition get (key : string) (v : json) : read :=
  match v with
  | JNull => Throws
  | JObj m => match assoc key m with Some x => Found x | None => Missing end
  | _ => Missing
  end.

(** JavaScript truthiness of a value that is there. *)
Definition truthy (v : json) : bool :=
  match v with
  | JNull => false
  | JBool b => b
  | JNum q => negb (Qeq_bool q 0)
  | JStr s => negb (String.eqb s EmptyString)
  | JArr _ => true
  | JObj _ => true
  end.

(** *** A parser for concrete frames

    The JSON grammar of ECMA-404 on a text given as UTF-8 bytes, numbers
    being read as the rationals they denote.  The connection manager is
    modelled over any parser; this one instantiates it. *)

Definition is_ws (c : ascii) : bool :=
  match nat_of_ascii c with
  | 32%nat | 9%nat | 10%nat | 13%nat => true
  | _ => false
  end.

Fixpoint skip_ws (s : string) : string :=
  match s with
  | String c rest => if is_ws c then skip_ws rest else s
  | EmptyString => s
  end.

Definition digit (c : ascii) : option Z :=
  let n := nat_of_ascii c in
  if (48 <=? n)%nat && (n <=? 57)%nat then Some (Z.of_nat (n - 48)) else None.

(** Reads a run of digits: the value, how many were read, and the rest. *)
Fixpoint digits (acc : Z) (count : nat) (s : string) : Z * nat * string :=
  match s with
  | String c rest =>
      match digit c with
      | Some d => digits (acc * 10 + d) (S count) rest
      | None => (acc, count, s)
      end
  | EmptyString => (acc, count, s)
  end.

Definition quote : ascii := "034"%char.
Definition backslash : ascii := "092"%char.

Definition hex_digit (c : ascii) : option N :=
  let n := N_of_ascii c in
  if (48 <=? n)%N && (n <=? 57)%N then Some (n - 48)%N
  else if (65 <=? n)%N && (n <=? 70)%N then Some (n - 55)%N
  else if (97 <=? n)%N && (n <=? 102)%N then Some (n - 87)%N
  else None.

(** The four hexadecimal digits of a [\u] escape. *)
Definition hex4 (s : string) : option (N * string) :=
  match s with
  | String a (String b (String c (String d rest))) =>
      match hex_digit a, hex_digit b, hex_digit c, hex_digit d with
      | Some x, Some y, Some z, Some w =>
          Some (((x * 16 + y) * 16 + z) * 16 + w, rest)%N
      | _, _, _, _ => None
      end
  | _ => None
  end.

Definition byte (n : N) : ascii := ascii_of_N n.

(** The UTF-8 bytes of a code point (of a lone surrogate too). *)
Definition utf8 (cp : N) (rest : string) : string :=
  if (cp <? 128)%N then String (byte cp) rest
  else if (cp <? 2048)%N then
    String (byte (192 + cp / 64)) (String (byte (128 + cp mod 64)) rest)
  else if (cp <? 65536)%N then
    String (byte (224 + cp / 4096))
      (String (byte (128 + (cp / 64) mod 64))
         (String (byte (128 + cp mod 64)) rest))
  else
    String (byte (240 + cp / 262144))
      (String (byte (128 + (cp / 4096) mod 64))
         (String (byte (128 + (cp / 64) mod 64))
            (String (byte (128 + cp mod 64)) rest))).

Definition is_high_surrogate (u : N) : bool := (55296 <=? u)%N && (u <=? 56319)%N.
Definition is_low_surrogate (u : N) : bool := (56320 <=? u)%N && (u <=? 57343)%N.

(** The characters up to the closing quote, escapes decoded; a high
    surrogate escape followed by a low one is one code point.  [fuel] bounds
    the characters read. *)
Fixpoint string_body (fuel : nat) (s : string) : option (string * string) :=
  match fuel with
  | O => None
  | S f =>
      match s with
      | EmptyString => None
      | String c rest =>
          if Ascii.eqb c quote then Some (EmptyString, rest)
          else if Ascii.eqb c backslash then
            match rest with
            | String e rest1 =>
                let simple (b : ascii) :=
                  match string_body f rest1 with
                  | Some (body, rest') => Some (String b body, rest')
                  | None => None
                  end in
                if Ascii.eqb e quote then simple quote
                else if Ascii.eqb e backslash then simple backslash
                else if Ascii.eqb e "/" then simple "/"%char
                else if Ascii.eqb e "b" then simple "008"%char
                else if Ascii.eqb e "f" then simple "012"%char
                else if Ascii.eqb e "n" then simple "010"%char
                else if Ascii.eqb e "r" then simple "013"%char
                else if Ascii.eqb e "t" then simple "009"%char
                else if Ascii.eqb e "u" then
                  match hex4 rest1 with
                  | Some (u, rest2) =>
                      let single :=
                        match string_body f rest2 with
                        | Some (body, rest') => Some (utf8 u body, rest')
                        | None => None
                        end in
                      if is_high_surrogate u then
                        match rest2 with
                        | String b1 (String b2 rest3) =>
                            if Ascii.eqb b1 backslash && Ascii.eqb b2 "u" then
                              match hex4 rest3 with
                              | Some (l, rest4) =>
                                  if is_low_surrogate l then
                                    match string_body f rest4 with
                                    | Some (body, rest') =>
                                        Some (utf8 (65536 + (u - 55296) * 1024
                                                    + (l - 56320))%N body,
                                              rest')
                                    | None => None
                                    end
                                  else single
                              | None => single
                              end
                            else single
                        | _ => single
                        end
                      else single
                  | None => None
                  end
                else None
            | EmptyString => None
            end
          else if (nat_of_ascii c <? 32)%nat then None
          else match string_body f rest with
               | Some (body, rest') => Some (String c body, rest')
               | None => None
               end
      end
  end.

(** [10 ^ e] as a rational. *)
Definition pow10 (e : Z) : Q :=
  match e with
  | Z0 => 1
  | Zpos p => inject_Z (Zpos (Pos.pow 10 p))
  | Zneg p => Qmake 1 (Pos.pow 10 p)
  end.

(** The exponent part, if there is one. *)
Definition exponent (s : string) : option (Z * string) :=
  match s with
  | String c rest =>
      if Ascii.eqb c "e" || Ascii.eqb c "E" then
        let '(neg, s1) :=
          match rest with
          | String "-" r => (true, r)
          | String "+" r => (false, r)
          | _ => (false, rest)
          end in
        let '(e, n, s2) := digits 0 0 s1 in
        match n with
        | O => None
        | _ => Some (if neg : bool then (- e)%Z else e, s2)
        end
      else Some (0%Z, s)
  | EmptyString => Some (0%Z, s)
  end.

(** An optional minus, an integer part without leading zero, an optional
    fraction, an optional exponent. *)
Definition number (s : string) : option (json * string) :=
  let '(neg, s1) :=
    match s with
    | String "-" rest => (true, rest)
    | _ => (false, s)
    end in
  let leading_zero :=
    match s1 with
    | String "0" (String d _) =>
        match digit d with Some _ => true | None => false end
    | _ => false
    end in
  let '(int_part, n, s2) := digits 0 0 s1 in
  match n with
  | O => None
  | _ =>
      if leading_zero : bool then None
      else
        let sign := if neg : bool then (-1)%Z else 1%Z in
        let mantissa :=
          match s2 with
          | String "." s3 =>
              let '(frac, k, s4) := digits 0 0 s3 in
              match k with
              | O => None
              | _ =>
                  let den := Pos.pow 10 (Pos.of_nat k) in
                  Some (Qmake (sign * (int_part * Zpos den + frac)) den, s4)
              end
          | _ => Some (inject_Z (sign * int_part), s2)
          end in
        match mantissa with
        | Some (m, s5) =>
            match exponent s5 with
            | Some (e, s6) => Some (JNum (Qred (m * pow10 e)), s6)
            | None => None
            end
        | None => None
        end
  end.

Definition literal (word : string) (v : json) (s : string)
  : option (json * string) :=
  if String.prefix word s
  then Some (v, substring (String.length word)
                          (String.length s - String.length word) s)
  else None.

(** Replaces the binding of [k], or adds it at the end: a later duplicate
    key wins. *)
Fixpoint obj_set (k : string) (v : json) (m : list (string * json))
  : list (string * json) :=
  match m with
  | [] => [(k, v)]
  | (k', v') :: rest =>
      if String.eqb k' k then (k, v) :: rest else (k', v') :: obj_set k v rest
  end.

Fixpoint value (fuel : nat) (s : string) : option (json * string) :=
  match fuel with
  | O => None
  | S f =>
      match skip_ws s with
      | String "{" rest =>
          match skip_ws rest with
          | String "}" rest' => Some (JObj [], rest')
          | _ => members f [] rest
          end
      | String "[" rest =>
          match skip_ws rest with
          | String "]" rest' => Some (JArr [], rest')
          | _ => elements f [] rest
          end
      | String c rest as s' =>
          if Ascii.eqb c quote then
            match string_body (String.length rest) rest with
            | Some (body, rest') => Some (JStr body, rest')
            | None => None
            end
          else if Ascii.eqb c "n" then literal "null" JNull s'
          else if Ascii.eqb c "t" then literal "true" (JBool true) s'
          else if Ascii.eqb c "f" then literal "false" (JBool false) s'
          else number s'
      | EmptyString => None
      end
  end
with members (fuel : nat) (acc : list (string * json)) (s : string)
  : option (json * string) :=
  match fuel with
  | O => None
  | S f =>
      match skip_ws s with
      | String c rest =>
          if Ascii.eqb c quote then
            match string_body (String.length rest) rest with
            | Some (key, rest1) =>
                match skip_ws rest1 with
                | String ":" rest2 =>
                    match value f rest2 with
                    | Some (v, rest3) =>
                        match skip_ws rest3 with
                        | String "," rest4 => members f (obj_set key v acc) rest4
                        | String "}" rest4 => Some (JObj (obj_set key v acc), rest4)
                        | _ => None
                        end
                    | None => None
                    end
                | _ => None
                end
            | None => None
            end
          else None
      | EmptyString => None
      end
  end
with elements (fuel : nat) (acc : list json) (s : string)
  : option (json * string) :=
  match fuel with
  | O => None
  | S f =>
      match value f s with
      | Some (v, rest) =>
          match skip_ws rest with
          | String "," rest' => elements f (acc ++ [v]) rest'
          | String "]" rest' => Some (JArr (acc ++ [v]), rest')
          | _ => None
          end
      | None => None
      end
  end.

(** The whole text must be one value; [None] is the SyntaxError. *)
Definition parse (s : string) : option json :=
  match value (S (String.length s)) s with
  | Some (v, rest) =>
      match skip_ws rest with
      | EmptyString => Some v
      | _ => None
      end
  | None => None
  end.

(** Frames are written with [q] for the quotation mark. *)
Definition q : string := String quote EmptyString.

End Json.

(* ===================================================================== *)
(** ** The connection manager (hooks/useWebSocket.js)                     *)
(* ===================================================================== *)

Module Hook.
Import Json.

Inductive readyState := CONNECTING | OPEN | CLOSING | CLOSED.

(** What a [connect] closure captured from its render: [simId] and the
    identity of [onMessage]. *)
Definition closure : Type := option string * nat.

(** A socket made by [new WebSocket(wsUrl)]; its four handlers belong to the
    closure that made it. *)
Record WebSocket := mkWS
  { made_by : closure;
    ready : readyState }.

Inductive exn := SyntaxError | TypeError.

(** The hook instance together with the browser around it.  Time is in
    milliseconds.  A socket is named by its index in [sockets], a timer by
    its handle. *)
Record hook := mkHook
  { (* the browser *)
    clock : Z;
    sockets : list WebSocket;
    timeouts : list (positive * (Z * closure));    (* handle, due time, callback *)
    intervals : list (positive * Z);               (* handle, next due time *)
    next_handle : positive;
    sent : list (nat * Z);         (* [{type:'step'}] frames: socket, time *)
    delivered : list (nat * json); (* calls of [onMessage]: which one, argument *)
    console : list exn;            (* [console.error] of the message handler *)
    (* the props of the last render *)
    mounted : bool;
    simId : option string;
    onMessage : nat;
    isRunning : bool;
    (* useState *)
    isConnected : bool;
    error : option string;
    (* useRef *)
    wsRef : option nat;
    reconnectTimeoutRef : option positive;
    stepIntervalRef : option positive }.

Definition set_clock (v : Z) (h : hook) : hook :=
  mkHook v (sockets h) (timeouts h) (intervals h) (next_handle h) (sent h)
    (delivered h) (console h) (mounted h) (simId h) (onMessage h) (isRunning h)
    (isConnected h) (error h) (wsRef h) (reconnectTimeoutRef h) (stepIntervalRef h).
Definition set_sockets (v : list WebSocket) (h : hook) : hook :=
  mkHook (clock h) v (timeouts h) (intervals h) (next_handle h) (sent h)
    (delivered h) (console h) (mounted h) (simId h) (onMessage h) (isRunning h)
    (isConnected h) (error h) (wsRef h) (reconnectTimeoutRef h) (stepIntervalRef h).
Definition set_timeouts (v : list (positive * (Z * closure))) (h : hook) : hook :=
  mkHook (clock h) (sockets h) v (intervals h) (next_handle h) (sent h)
    (delivered h) (console h) (mounted h) (simId h) (onMessage h) (isRunning h)
    (isConnected h) (error h) (wsRef h) (reconnectTimeoutRef h) (stepIntervalRef h).
Definition set_intervals (v : list (positive * Z)) (h : hook) : hook :=
  mkHook (clock h) (sockets h) (timeouts h) v (next_handle h) (sent h)
    (delivered h) (console h) (mounted h) (simId h) (onMessage h) (isRunning h)
    (isConnected h) (error h) (wsRef h) (reconnectTimeoutRef h) (stepIntervalRef h).
Definition set_next_handle (v : positive) (h : hook) : hook :=
  mkHook (clock h) (sockets h) (timeouts h) (intervals h) v (sent h)
    (delivered h) (console h) (mounted h) (simId h) (onMessage h) (isRunning h)
    (isConnected h) (error h) (wsRef h) (reconnectTimeoutRef h) (stepIntervalRef h).
Definition set_sent (v : list (nat * Z)) (h : hook) : hook :=
  mkHook (clock h) (sockets h) (timeouts h) (intervals h) (next_handle h) v
    (delivered h) (console h) (mounted h) (simId h) (onMessage h) (isRunning h)
    (isConnected h) (error h) (wsRef h) (reconnectTimeoutRef h) (stepIntervalRef h).
Definition set_delivered (v : list (nat * json)) (h : hook) : hook :=
  mkHook (clock h) (sockets h) (timeouts h) (intervals h) (next_handle h) (sent h)
    v (console h) (mounted h) (simId h) (onMessage h) (isRunning h)
    (isConnected h) (error h) (wsRef h) (reconnectTimeoutRef h) (stepIntervalRef h).
Definition set_console (v : list exn) (h : hook) : hook :=
  mkHook (clock h) (sockets h) (timeouts h) (intervals h) (next_handle h) (sent h)
    (delivered h) v (mounted h) (simId h) (onMessage h) (isRunning h)
    (isConnected h) (error h) (wsRef h) (reconnectTimeoutRef h) (stepIntervalRef h).
Definition set_mounted (v : bool) (h : hook) : hook :=
  mkHook (clock h) (sockets h) (timeouts h) (intervals h) (next_handle h) (sent h)
    (delivered h) (console h) v (simId h) (onMessage h) (isRunning h)
    (isConnected h) (error h) (wsRef h) (reconnectTimeoutRef h) (stepIntervalRef h).
Definition set_props (sim : option string) (handler : nat) (running : bool)
    (h : hook) : hook :=
  mkHook (clock h) (sockets h) (timeouts h) (intervals h) (next_handle h) (sent h)
    (delivered h) (console h) (mounted h) sim handler running
    (isConnected h) (error h) (wsRef h) (reconnectTimeoutRef h) (stepIntervalRef h).
Definition set_wsRef (v : option nat) (h : hook) : hook :=
  mkHook (clock h) (sockets h) (timeouts h) (intervals h) (next_handle h) (sent h)
    (delivered h) (console h) (mounted h) (simId h) (onMessage h) (isRunning h)
    (isConnected h) (error h) v (reconnectTimeoutRef h) (stepIntervalRef h).
Definition set_reconnectTimeoutRef (v : option positive) (h : hook) : hook :=
  mkHook (clock h) (sockets h) (timeouts h) (intervals h) (next_handle h) (sent h)
    (delivered h) (console h) (mounted h) (simId h) (onMessage h) (isRunning h)
    (isConnected h) (error h) (wsRef h) v (stepIntervalRef h).
Definition set_stepIntervalRef (v : option positive) (h : hook) : hook :=
  mkHook (clock h) (sockets h) (timeouts h) (intervals h) (next_handle h) (sent h)
    (delivered h) (console h) (mounted h) (simId h) (onMessage h) (isRunning h)
    (isConnected h) (error h) (wsRef h) (reconnectTimeoutRef h) v.

(** The state setters: React drops an update of an unmounted component. *)
Definition setIsConnected (v : bool) (h : hook) : hook :=
  if mounted h then
    mkHook (clock h) (sockets h) (timeouts h) (intervals h) (next_handle h) (sent h)
      (delivered h) (console h) (mounted h) (simId h) (onMessage h) (isRunning h)
      v (error h) (wsRef h) (reconnectTimeoutRef h) (stepIntervalRef h)
  else h.
Definition setError (v : option string) (h : hook) : hook :=
  if mounted h then
    mkHook (clock h) (sockets h) (timeouts h) (intervals h) (next_handle h) (sent h)
      (delivered h) (console h) (mounted h) (simId h) (onMessage h) (isRunning h)
      (isConnected h) v (wsRef h) (reconnectTimeoutRef h) (stepIntervalRef h)
  else h.

(** *** The browser's timers and sockets *)

(** [setTimeout(cb, delay)] and [setInterval(cb, delay)] draw their handles
    from one counter. *)
Definition setTimeout (cb : closure) (delay : Z) (h : hook) : positive * hook :=
  let t := next_handle h in
  (t, set_next_handle (Pos.succ t)
        (set_timeouts (timeouts h ++ [(t, (clock h + delay, cb)%Z)]) h)).
Definition setInterval (delay : Z) (h : hook) : positive * hook :=
  let t := next_handle h in
  (t, set_next_handle (Pos.succ t)
        (set_intervals (intervals h ++ [(t, (clock h + delay)%Z)]) h)).

Definition drop {A : Type} (t : positive) (l : list (positive * A))
  : list (positive * A) :=
  filter (fun e => negb (Pos.eqb (fst e) t)) l.

(** The program hands [clearTimeout] only handles of [setTimeout] and
    [clearInterval] only handles of [setInterval]. *)
Definition clearTimeout (t : positive) (h : hook) : hook :=
  set_timeouts (drop t (timeouts h)) h.
Definition clearInterval (t : positive) (h : hook) : hook :=
  set_intervals (drop t (intervals h)) h.

Fixpoint update {A : Type} (i : nat) (f : A -> A) (l : list A) : list A :=
  match l, i with
  | [], _ => []
  | a :: rest, O => f a :: rest
  | a :: rest, S j => a :: update j f rest
  end.

Definition ready_of (i : nat) (h : hook) : option readyState :=
  option_map ready (nth_error (sockets h) i).

Definition set_ready (i : nat) (r : readyState) (h : hook) : hook :=
  set_sockets (update i (fun ws => mkWS (made_by ws) r) (sockets h)) h.

(** [ws.close()]: starts the closing handshake of a socket that is not yet
    closing; its close event comes later. *)
Definition ws_close (i : nat) (h : hook) : hook :=
  match ready_of i h with
  | Some CONNECTING | Some OPEN => set_ready i CLOSING h
  | _ => h
  end.

(** [!simId] *)
Definition falsy (sim : option string) : bool :=
  match sim with
  | None => true
  | Some s => String.eqb s EmptyString
  end.

(** *** Statements that may throw *)

Definition M (A : Type) : Type := hook -> (A + exn) * hook.

Definition ret {A : Type} (a : A) : M A := fun h => (inl a, h).
Definition bind {A B : Type} (m : M A) (f : A -> M B) : M B := fun h =>
  match m h with
  | (inl a, h') => f a h'
  | (inr e, h') => (inr e, h')
  end.
Definition throw {A : Type} (e : exn) : M A := fun h => (inr e, h).
Definition try_catch {A : Type} (body : M A) (handler : exn -> M A) : M A :=
  fun h =>
    match body h with
    | (inr e, h') => handler e h'
    | normal => normal
    end.
Definition lift (f : hook -> hook) : M unit := fun h => (inl tt, f h).

Notation "x <- m ;; k" := (bind m (fun x => k))
  (at level 61, m at next level, right associativity).

Section Manager.

(** The built-in [JSON.parse]; [None] is its SyntaxError. *)
Variable JSON_parse : string -> option json.

Definition parse_or_throw (data : string) : M json :=
  match JSON_parse data with
  | Some v => ret v
  | None => throw SyntaxError
  end.

(** [data.type === 'ping' || data.type === 'pong'] *)
Definition is_control (data : json) : M bool :=
  match get "type" data with
  | Throws => throw TypeError
  | Found (JStr s) => ret (String.eqb s "ping" || String.eqb s "pong")
  | _ => ret false
  end.

(** Calling the handler of closure [k]. *)
Definition call_onMessage (k : closure) (data : json) : M unit :=
  lift (fun h => set_delivered (delivered h ++ [(snd k, data)]) h).

Definition console_error (e : exn) : M unit :=
  lift (fun h => set_console (console h ++ [e]) h).

(** Lines 31-43 *)
Definition ws_onmessage (k : closure) (event_data : string) : M unit :=
  try_catch
    (data <- parse_or_throw event_data ;;
     control <- is_control data ;;
     if control : bool then ret tt else call_onMessage k data)
    (fun err => console_error err).

(** Lines 25-29 *)
Definition ws_onopen (h : hook) : hook :=
  setError None (setIsConnected true h).

(** Lines 45-49 *)
Definition ws_onerror (h : hook) : hook :=
  setIsConnected false (setError (Some "WebSocket connection error") h).

(** Lines 51-66; the socket's closure is [k]. *)
Definition ws_onclose (k : closure) (h : hook) : hook :=
  let h1 := setIsConnected false h in
  let h2 :=
    match stepIntervalRef h1 with
    | Some t => set_stepIntervalRef None (clearInterval t h1)
    | None => h1
    end in
  if falsy (fst k) then h2
  else
    let '(t, h3) := setTimeout k 2000 h2 in
    set_reconnectTimeoutRef (Some t) h3.

(** Lines 10-69, the [connect] of closure [k]. *)
Definition connect (k : closure) (h : hook) : hook :=
  if falsy (fst k) then h
  else
    let h1 :=
      match wsRef h with
      | Some i => ws_close i h
      | None => h
      end in
    let ws := List.length (sockets h1) in
    set_wsRef (Some ws) (set_sockets (sockets h1 ++ [mkWS k CONNECTING]) h1).

(** Lines 71-75 *)
Definition sendStep (h : hook) : hook :=
  match wsRef h with
  | Some i =>
      match ready_of i h with
      | Some OPEN => set_sent (sent h ++ [(i, clock h)]) h
      | _ => h
      end
  | None => h
  end.

(** Lines 78-87, with the [isRunning] and [isConnected] of its render. *)
Definition step_effect (running connected : bool) (h : hook) : hook :=
  if running && connected then
    let '(t, h1) := setInterval 100 h in
    set_stepIntervalRef (Some t) h1
  else
    match stepIntervalRef h with
    | Some t => set_stepIntervalRef None (clearInterval t h)
    | None => h
    end.

(** Lines 89-93 *)
Definition step_cleanup (h : hook) : hook :=
  match stepIntervalRef h with
  | Some t => clearInterval t h
  | None => h
  end.

(** Lines 96-112 *)
Definition disconnect (h : hook) : hook :=
  let h1 :=
    match reconnectTimeoutRef h with
    | Some t => set_reconnectTimeoutRef None (clearTimeout t h)
    | None => h
    end in
  let h2 :=
    match stepIntervalRef h1 with
    | Some t => set_stepIntervalRef None (clearInterval t h1)
    | None => h1
    end in
  match wsRef h2 with
  | Some i => setIsConnected false (set_wsRef None (ws_close i h2))
  | None => h2
  end.

(** Lines 115-117, in the render of closure [k]. *)
Definition connection_effect (k : closure) (h : hook) : hook :=
  if falsy (fst k) then h else connect k h.

(** Lines 119-129, the cleanup that the render of closure [k] returned. *)
Definition connection_cleanup (k : closure) (h : hook) : hook :=
  if falsy (fst k) then
    match reconnectTimeoutRef h with
    | Some t => clearTimeout t h
    | None => h
    end
  else disconnect h.

(** Lines 137-142, the [connect] the hook returns. *)
Definition manual_connect (h : hook) : hook :=
  let h1 :=
    match reconnectTimeoutRef h with
    | Some t => clearTimeout t h
    | None => h
    end in
  connect (simId h, onMessage h) h1.

(** *** React

    A render with changed dependencies runs the cleanups of the effects
    concerned, in order, then their bodies, in order; the bodies see the
    state of their render.  A state change made on the way is rendered
    next.  The commit is taken to complete before the next timer or socket
    event is handled. *)

Definition when (b : bool) (f : hook -> hook) (h : hook) : hook :=
  if b then f h else h.

Definition closure_eqb (a b : closure) : bool :=
  match fst a, fst b with
  | Some x, Some y => String.eqb x y
  | None, None => true
  | _, _ => false
  end && Nat.eqb (snd a) (snd b).

(** The render that follows a change of [isConnected], the props being the
    ones of the last render. *)
Definition settle (rendered_isConnected : bool) (h : hook) : hook :=
  if mounted h && negb (Bool.eqb rendered_isConnected (isConnected h))
  then step_effect (isRunning h) (isConnected h) (step_cleanup h)
  else h.

(** A render with props [sim], [handler], [running]. *)
Definition render (sim : option string) (handler : nat) (running : bool)
    (h : hook) : hook :=
  let old := (simId h, onMessage h) in
  let new := (sim, handler) in
  let d1 := negb (Bool.eqb running (isRunning h)) in
  let d2 := negb (closure_eqb old new) in
  let connected := isConnected h in
  let h1 := set_props sim handler running h in
  let h2 := when d1 step_cleanup h1 in
  let h3 := when d2 (connection_cleanup old) h2 in
  let h4 := when d1 (step_effect running connected) h3 in
  let h5 := when d2 (connection_effect new) h4 in
  settle connected h5.

(** The hook before its first render, at time [now]. *)
Definition fresh (now : Z) : hook :=
  mkHook now [] [] [] 1%positive [] [] [] true None 0%nat false
         false None None None None.

(** The first render: both effects run. *)
Definition mount (now : Z) (sim : option string) (handler : nat)
    (running : bool) : hook :=
  let h1 := set_props sim handler running (fresh now) in
  connection_effect (sim, handler) (step_effect running false h1).

(** Unmounting runs both cleanups. *)
Definition unmount (h : hook) : hook :=
  set_mounted false
    (connection_cleanup (simId h, onMessage h) (step_cleanup h)).

(** *** The events of the system *)

Inductive event :=
| Render (sim : option string) (handler : nat) (running : bool)
| Unmount
| CallSendStep                     (* the returned [sendStep] *)
| CallDisconnect                   (* the returned [disconnect] *)
| CallConnect                      (* the returned [connect] *)
| SockOpen (i : nat)               (* the connection is established *)
| SockMessage (i : nat) (data : string)
| SockFail (i : nat)               (* the connection fails: error, then close *)
| SockClose (i : nat)              (* the connection is closed *)
| Elapse (d : Z)                   (* time passes, no timer being due before *)
| FireTimeout (t : positive)
| FireInterval (t : positive).

Fixpoint lookup {A : Type} (t : positive) (l : list (positive * A)) : option A :=
  match l with
  | [] => None
  | (t', a) :: rest => if Pos.eqb t' t then Some a else lookup t rest
  end.

(** No pending timer is due before [deadline]. *)
Definition none_due_before (deadline : Z) (h : hook) : bool :=
  forallb (fun e => (deadline <=? fst (snd e))%Z) (timeouts h) &&
  forallb (fun e => (deadline <=? snd e)%Z) (intervals h).

(** One event; [None] when the event cannot happen in [h]. *)
Definition step (e : event) (h : hook) : option hook :=
  match e with
  | Render sim handler running =>
      if mounted h then Some (render sim handler running h) else None
  | Unmount =>
      if mounted h then Some (unmount h) else None
  | CallSendStep => Some (sendStep h)
  | CallDisconnect => Some (settle (isConnected h) (disconnect h))
  | CallConnect => Some (manual_connect h)
  | SockOpen i =>
      match ready_of i h with
      | Some CONNECTING =>
          Some (settle (isConnected h) (ws_onopen (set_ready i OPEN h)))
      | _ => None
      end
  | SockMessage i data =>
      match nth_error (sockets h) i with
      | Some ws =>
          match ready ws with
          | OPEN => Some (snd (ws_onmessage (made_by ws) data h))
          | _ => None
          end
      | None => None
      end
  | SockFail i =>
      match nth_error (sockets h) i with
      | Some ws =>
          match ready ws with
          | CLOSED => None
          | _ =>
              Some (settle (isConnected h)
                      (ws_onclose (made_by ws)
                         (ws_onerror (set_ready i CLOSED h))))
          end
      | None => None
      end
  | SockClose i =>
      match nth_error (sockets h) i with
      | Some ws =>
          match ready ws with
          | CLOSED => None
          | _ =>
              Some (settle (isConnected h)
                      (ws_onclose (made_by ws) (set_ready i CLOSED h)))
          end
      | None => None
      end
  | Elapse d =>
      if (0 <=? d)%Z && none_due_before (clock h + d) h
      then Some (set_clock (clock h + d) h)
      else None
  | FireTimeout t =>
      match lookup t (timeouts h) with
      | Some (due, k) =>
          if (due <=? clock h)%Z
          then Some (connect k (set_timeouts (drop t (timeouts h)) h))
          else None
      | None => None
      end
  | FireInterval t =>
      match lookup t (intervals h) with
      | Some due =>
          if (due <=? clock h)%Z
          then Some (sendStep
                       (set_intervals
                          (map (fun e => if Pos.eqb (fst e) t
                                         then (t, (due + 100)%Z) else e)
                               (intervals h)) h))
          else None
      | None => None
      end
  end.

(** A run of events. *)
Fixpoint run (es : list event) (h : hook) : option hook :=
  match es with
  | [] => Some h
  | e :: rest =>
      match step e h with
      | Some h' => run rest h'
      | None => None
      end
  end.

End Manager.

(** *** What the proofs speak about *)

(** The pacing timer is in order: no interval is active, or one is, the one
    [stepIntervalRef] names, under a mounted, running, connected hook. *)
Definition paced_ok (h : hook) : bool :=
  match intervals h with
  | [] => true
  | [(t, _)] =>
      match stepIntervalRef h with
      | Some t' => Pos.eqb t t'
      | None => false
      end && mounted h && isRunning h && isConnected h
  | _ => false
  end.

(** No interval is active. *)
Definition idle (h : hook) : Prop := intervals h = [].

(** Every active interval is the one [stepIntervalRef] names. *)
Definition tracked (h : hook) : Prop :=
  intervals h = [] \/
  exists t due, intervals h = [(t, due)] /\ stepIntervalRef h = Some t.

(** Between [h] and [h'] nothing was sent and the hook stayed as mounted and
    as running as it was. *)
Definition quiet (h h' : hook) : Prop :=
  mounted h' = mounted h /\ isRunning h' = isRunning h /\ sent h' = sent h.

(** Moreover the pacing timer was left alone, *)
Definition same_timer (h h' : hook) : Prop :=
  intervals h' = intervals h /\ stepIntervalRef h' = stepIntervalRef h /\
  quiet h h'.

(** and the connectivity flag too. *)
Definition same_pacing (h h' : hook) : Prop :=
  same_timer h h' /\ isConnected h' = isConnected h.

(** The socket [wsRef] holds is open. *)
Definition channel_open (h : hook) : bool :=
  match wsRef h with
  | Some i =>
      match ready_of i h with
      | Some OPEN => true
      | _ => false
      end
  | None => false
  end.

(** Whether a value is tagged as control traffic: [type] is [ping] or
    [pong]. *)
Definition control_tag (data : json) : bool :=
  match get "type" data with
  | Found (JStr s) => String.eqb s "ping" || String.eqb s "pong"
  | _ => false
  end.

(** The handler calls made between two states. *)
Definition new_calls (before after : hook) : list (nat * json) :=
  skipn (List.length (delivered before)) (delivered after).

(** [k] periods of the pacing timer [t]: 100 ms pass, the timer fires. *)
Fixpoint pace (t : positive) (k : nat) : list event :=
  match k with
  | O => []
  | S k' => Elapse 100 :: FireInterval t :: pace t k'
  end.

(** [k] frames on socket [i], 100 ms apart, the first 100 ms after [from]. *)
Fixpoint beats (i : nat) (from : Z) (k : nat) : list (nat * Z) :=
  match k with
  | O => []
  | S k' => (i, (from + 100)%Z) :: beats i (from + 100)%Z k'
  end.

(** Events that neither set the running flag nor ask for an advance by
    hand. *)
Definition keeps_paused (e : event) : bool :=
  match e with
  | Render _ _ running => negb running
  | CallSendStep => false
  | _ => true
  end.

(** A socket whose handshake or connection is alive. *)
Definition live (r : readyState) : bool :=
  match r with
  | CONNECTING | OPEN => true
  | CLOSING | CLOSED => false
  end.

(** Every socket that is alive is the one [wsRef] holds. *)
Definition one_live (h : hook) : Prop :=
  forall i ws,
    nth_error (sockets h) i = Some ws -> live (ready ws) = true ->
    wsRef h = Some i.

(** [h'] has the sockets of [h], in the states they were in, and the same
    current one. *)
Definition same_channel (h h' : hook) : Prop :=
  sockets h' = sockets h /\ wsRef h' = wsRef h.

(** Socket [i] fails, two seconds pass, timeout [t] fires. *)
Definition retry (i : nat) (t : positive) : list event :=
  [SockFail i; Elapse 2000; FireTimeout t].

(** [n] failures in a row, of socket [i] and of each socket opened to
    replace the one before, the first reconnect being timeout [t]. *)
Fixpoint retries (i : nat) (t : positive) (n : nat) : list event :=
  match n with
  | O => []
  | S n' => retry i t ++ retries (S i) (Pos.succ t) n'
  end.

(** Between [h] and [h'] no frame was sent, and the manager did not come to
    think itself connected. *)
Definition stays_closed (h h' : hook) : Prop :=
  sent h' = sent h /\ (isConnected h = false -> isConnected h' = false).

(** The manager waits for socket [i], the last one made, to open; no timer
    is pending and the next handle is [t]. *)
Definition retrying (k : closure) (i : nat) (t : positive) (h : hook) : Prop :=
  nth_error (sockets h) i = Some (mkWS k CONNECTING) /\
  List.length (sockets h) = S i /\
  wsRef h = Some i /\ next_handle h = t /\
  timeouts h = [] /\ intervals h = [] /\ stepIntervalRef h = None /\
  isConnected h = false.

(** The newest socket opens, the one before it, closed by the program,
    reports its close, and the reconnect that this schedules fires. *)
Definition flip (i : nat) (t : positive) : list event :=
  [SockOpen (S i); SockClose i; Elapse 2000; FireTimeout t].
Fixpoint flips (i : nat) (t : positive) (n : nat) : list event :=
  match n with
  | O => []
  | S n' => flip i t ++ flips (S i) (Pos.succ t) n'
  end.

(** A paused manager whose last socket, made by closure [ka], has replaced
    socket [i], made by [kb], which has been closed but has not yet reported
    it. *)
Definition contested (ka kb : closure) (i : nat) (t : positive) (h : hook) : Prop :=
  nth_error (sockets h) i = Some (mkWS kb CLOSING) /\
  nth_error (sockets h) (S i) = Some (mkWS ka CONNECTING) /\
  List.length (sockets h) = S (S i) /\
  wsRef h = Some (S i) /\ next_handle h = t /\
  timeouts h = [] /\ intervals h = [] /\ stepIntervalRef h = None /\
  isRunning h = false /\ mounted h = true.

(** Events other than a socket opening and a request by hand. *)
Definition keeps_closed (e : event) : bool :=
  match e with
  | SockOpen _ | CallSendStep => false
  | _ => true
  end.

End Hook.

(* ===================================================================== *)
(** ** The session orchestrator (App.jsx)                                 *)
(* ===================================================================== *)

Module App.
Import Json.

(** What [App] holds in [useState]. *)
Record app := mkApp
  { simulationId : option string;
    simulationState : json;
    metrics : json;
    historicalMetrics : json;
    isRunning : bool }.

(** [useState({})] for the three objects, no simulation, paused. *)
Definition initial : app := mkApp None (JObj []) (JObj []) (JObj []) false.

(** [data.key || {}] *)
Definition or_empty (key : string) (data : json) : json :=
  match get key data with
  | Found v => if truthy v then v else JObj []
  | _ => JObj []
  end.

(** Lines 20-24, the handler given to the hook.  The hook only calls it
    with a value whose [type] it has read, never with [null]. *)
Definition onSnapshot (data : json) (a : app) : app :=
  mkApp (simulationId a) data (or_empty "metrics" data)
        (or_empty "historical_metrics" data) (isRunning a).

(** The handler calls of a run of the hook, applied in order. *)
Definition apply_deliveries (calls : list (nat * json)) (a : app) : app :=
  fold_left (fun acc call => onSnapshot (snd call) acc) calls a.

(** A frame arriving on a socket of closure [k]: the hook's message
    callback runs, and what it hands to the handler reaches the state. *)
Definition on_frame (JSON_parse : string -> option json) (k : Hook.closure)
    (event_data : string) (ha : Hook.hook * app) : Hook.hook * app :=
  let h' := snd (Hook.ws_onmessage JSON_parse k event_data (fst ha)) in
  (h', apply_deliveries (Hook.new_calls (fst ha) h') (snd ha)).

(** How an awaited request of the control client ends. *)
Inductive response (A : Type) :=
| Resolved (a : A)
| Rejected.
Arguments Resolved {A} a.
Arguments Rejected {A}.

(** What [handleStep] does to the world around it, in order. *)
Inductive action :=
| SendStep                                        (* the hook's [sendStep] *)
| StepSimulation (simId : string) (steps : Z)     (* POST .../step?steps=n *)
| GetSimulationState (simId : string)             (* GET .../state *)
| ConsoleError.

(** [!simulationId] *)
Definition falsy (sim : option string) : bool :=
  match sim with
  | None => true
  | Some s => String.eqb s EmptyString
  end.

(** Lines 88-102.  [isConnected] is the hook's flag in this render;
    [stepped] and [fetched] are how the two requests end, should they be
    made. *)
Definition handleStep (isConnected : bool) (stepped : response unit)
    (fetched : response json) (a : app) : app * list action :=
  match simulationId a with
  | None => (a, [])
  | Some id =>
      if String.eqb id EmptyString then (a, [])
      else if isConnected then (a, [SendStep])
      else
        match stepped with
        | Rejected => (a, [StepSimulation id 10; ConsoleError])
        | Resolved _ =>
            match fetched with
            | Rejected =>
                (a, [StepSimulation id 10; GetSimulationState id; ConsoleError])
            | Resolved data =>
                (mkApp (simulationId a) data (metrics a) (historicalMetrics a)
                       (isRunning a),
                 [StepSimulation id 10; GetSimulationState id])
            end
        end
  end.

(** The requests of a list of actions that go through the control client. *)
Definition is_control_call (x : action) : bool :=
  match x with
  | StepSimulation _ _ | GetSimulationState _ => true
  | _ => false
  end.

Definition is_fetch (x : action) : bool :=
  match x with
  | GetSimulationState _ => true
  | _ => false
  end.

End App.

(* ===================================================================== *)
(** ** The orchestrator's requests (App.jsx)                              *)
(* ===================================================================== *)

Module Orchestrator.
Import Json App.

(** All of [App]'s state: what [App.app] holds and the two values that
    choose the screen (lines 10-16). *)
Record shell := mkShell
  { held : app;
    isLoading : bool;
    error : option string }.

Definition initial : shell := mkShell App.initial true None.

(** Lines 32-40 and 117-125: the configuration every simulation is created
    with. *)
Definition new_simulation_config : json :=
  JObj [("grid_width", JNum 50); ("grid_height", JNum 50);
        ("num_vehicles", JNum 20); ("algorithm", JStr "static");
        ("spawn_rate", JNum (1 # 10)); ("simulation_speed", JNum 1);
        ("road_config", JStr "crossroad")].

(** What the handlers do to the world around them, in order. *)
Inductive call :=
| CreateSimulation (config : json)                 (* POST .../create *)
| GetSimulationState (id : string)                 (* GET .../state *)
| GetMetrics (id : string)                         (* GET .../metrics *)
| UpdateConfig (id : string) (config : json)       (* POST .../config *)
| ChangeAlgorithm (id : string) (algorithm : string)
| ConsoleError
| ConsoleLog.

Definition is_request (c : call) : bool :=
  match c with
  | ConsoleError | ConsoleLog => false
  | _ => true
  end.

Definition setSimulationId (id : string) (a : app) : app :=
  mkApp (Some id) (simulationState a) (metrics a) (historicalMetrics a)
        (isRunning a).
Definition setSimulationState (v : json) (a : app) : app :=
  mkApp (simulationId a) v (metrics a) (historicalMetrics a) (isRunning a).
Definition setMetrics (v : json) (a : app) : app :=
  mkApp (simulationId a) (simulationState a) v (historicalMetrics a)
        (isRunning a).
Definition setHistoricalMetrics (v : json) (a : app) : app :=
  mkApp (simulationId a) (simulationState a) (metrics a) v (isRunning a).
Definition setIsRunning (v : bool) (a : app) : app :=
  mkApp (simulationId a) (simulationState a) (metrics a) (historicalMetrics a) v.

(** The [catch] and [finally] of lines 56-61 and 135-140, entered with
    state [a] after [calls]. *)
Definition failed (msg : string) (calls : list call) (a : app) : shell * list call :=
  (mkShell a false (Some msg), calls ++ [ConsoleError]).

(** Lines 29-62, run to its end.  [created] is how the create request ends
    and, when it succeeds, the [simulation_id] of its response, taken to be a
    string; [state] and [metrics] are how the two reads end and the [data]
    of their responses. *)
Definition createNewSimulation (created : response string)
    (state metrics : response json) (s : shell) : shell * list call :=
  let msg := "Failed to create simulation. Please check if backend is running." in
  let create := CreateSimulation new_simulation_config in
  match created with
  | Rejected => failed msg [create] (held s)
  | Resolved id =>
      let a1 := setSimulationId id (held s) in
      match state with
      | Rejected => failed msg [create; GetSimulationState id] a1
      | Resolved st =>
          let a2 := setSimulationState st a1 in
          let calls := [create; GetSimulationState id; GetMetrics id] in
          match metrics with
          | Rejected => failed msg calls a2
          | Resolved m =>
              match get "current_metrics" m with
              | Throws => failed msg calls a2
              | _ =>
                  let a3 := setMetrics (or_empty "current_metrics" m) a2 in
                  match get "historical_metrics" st with
                  | Throws => failed msg calls a3
                  | _ =>
                      (mkShell (setHistoricalMetrics
                                  (or_empty "historical_metrics" st) a3)
                               false None,
                       calls)
                  end
              end
          end
      end
  end.

(** Lines 112-141, run to its end. *)
Definition handleRestartSimulation (created : response string)
    (state : response json) (s : shell) : shell * list call :=
  let msg := "Failed to restart simulation." in
  let create := CreateSimulation new_simulation_config in
  let a0 := setIsRunning false (held s) in
  match created with
  | Rejected => failed msg [create] a0
  | Resolved id =>
      let a1 := setSimulationId id a0 in
      match state with
      | Rejected => failed msg [create; GetSimulationState id] a1
      | Resolved st =>
          (mkShell (setSimulationState st a1) false None,
           [create; GetSimulationState id])
      end
  end.

(** Lines 67-75 *)
Definition handleConfigUpdate (updated : response unit) (a : app)
    (newConfig : json) : list call :=
  match simulationId a with
  | None => []
  | Some id =>
      if String.eqb id EmptyString then []
      else
        match updated with
        | Resolved _ => [UpdateConfig id newConfig]
        | Rejected => [UpdateConfig id newConfig; ConsoleError]
        end
  end.

(** Lines 77-86 *)
Definition handleAlgorithmChange (changed : response unit) (a : app)
    (algorithm : string) : list call :=
  match simulationId a with
  | None => []
  | Some id =>
      if String.eqb id EmptyString then []
      else
        match changed with
        | Resolved _ => [ChangeAlgorithm id algorithm; ConsoleLog]
        | Rejected => [ChangeAlgorithm id algorithm; ConsoleError]
        end
  end.

(** Lines 104-106; [rendered] is the [isRunning] of the render the handler
    was made in. *)
Definition handleToggleRunning (rendered : bool) (a : app) : app :=
  setIsRunning (negb rendered) a.

(** Lines 143-168: which screen the component returns. *)
Inductive screen :=
| Loading
| Failure (msg : string)
| Main.

Definition view (s : shell) : screen :=
  if isLoading s then Loading
  else
    match error s with
    | Some e => if String.eqb e EmptyString then Main else Failure e
    | None => Main
    end.

End Orchestrator.

(* ===================================================================== *)
(** ** The control panel (ControlPanel.jsx)                               *)
(* ===================================================================== *)

Module Panel.
Import Json App Orchestrator.

(** Lines 13-24; [config] is the object, its members in insertion order. *)
Record panel := mkPanel
  { config : list (string * json);
    algorithms : json;
    isLoading : bool }.

Definition initial : panel :=
  mkPanel [("num_vehicles", JNum 20); ("spawn_rate", JNum (1 # 10));
           ("simulation_speed", JNum 1); ("algorithm", JStr "static");
           ("grid_width", JNum 50); ("grid_height", JNum 50);
           ("road_config", JStr "crossroad")]
          (JArr []) false.

(** Lines 39-45; [{ ...config, [key]: value }] is [obj_set].  The callback
    prop is [None] when it is not passed, and else gives the calls the
    orchestrator's handler makes. *)
Definition handleConfigChange (onConfigUpdate : option (json -> list call))
    (key : string) (value : json) (p : panel) : panel * list call :=
  let newConfig := obj_set key value (config p) in
  (mkPanel newConfig (algorithms p) (isLoading p),
   match onConfigUpdate with
   | Some f => f (JObj newConfig)
   | None => []
   end).

(** Lines 47-62, run to its end.  The two callbacks are not awaited: their
    calls are listed where they start, and of these only the order of the
    requests is the order in time. *)
Definition handleAlgorithmChange (simulationId : option string)
    (changed : response unit)
    (onConfigUpdate : option (json -> list call))
    (onAlgorithmChange : option (string -> list call))
    (algorithm : string) (p : panel) : panel * list call :=
  match simulationId with
  | None => (p, [])
  | Some id =>
      if String.eqb id EmptyString then (p, [])
      else
        match changed with
        | Rejected =>
            (mkPanel (config p) (algorithms p) false,
             [ChangeAlgorithm id algorithm; ConsoleError])
        | Resolved _ =>
            let '(p1, updates) :=
              handleConfigChange onConfigUpdate "algorithm" (JStr algorithm) p in
            (mkPanel (config p1) (algorithms p1) false,
             [ChangeAlgorithm id algorithm] ++ updates ++
             match onAlgorithmChange with
             | Some f => f algorithm
             | None => []
             end)
        end
  end.

(** Lines 64-75; [onStep] gives what the orchestrator's handler does. *)
Definition handleStep (simulationId : option string) (stepped : response unit)
    (onStep : option (list action)) : list action :=
  match simulationId with
  | None => []
  | Some id =>
      if String.eqb id EmptyString then []
      else
        match stepped with
        | Rejected => [StepSimulation id 10; App.ConsoleError]
        | Resolved _ =>
            StepSimulation id 10 ::
            match onStep with
            | Some does => does
            | None => []
            end
        end
  end.

(** The Step button (line 118) as [App] wires it (line 207): the panel's
    handler with the orchestrator's [handleStep] as [onStep]. *)
Definition step_button (isConnected : bool) (stepped again : response unit)
    (fetched : response json) (a : app) : app * list action :=
  let '(a', does) := App.handleStep isConnected again fetched a in
  let trace := handleStep (simulationId a) stepped (Some does) in
  (match simulationId a, stepped with
   | Some id, Resolved _ => if String.eqb id EmptyString then a else a'
   | _, _ => a
   end, trace).

(** An algorithm button (line 144) as [App] wires it (lines 204-206). *)
Definition algorithm_button (changed updated changed_again : response unit)
    (a : app) (algorithm : string) (p : panel) : panel * list call :=
  handleAlgorithmChange (simulationId a) changed
    (Some (Orchestrator.handleConfigUpdate updated a))
    (Some (Orchestrator.handleAlgorithmChange changed_again a))
    algorithm p.

(** The steps asked of the engine through the control client. *)
Definition steps_requested (trace : list action) : Z :=
  fold_right (fun x n => match x with
                         | StepSimulation _ k => (k + n)%Z
                         | _ => n
                         end) 0%Z trace.

End Panel.

(* ===================================================================== *)
(** ** The metrics dashboard (MetricsDashboard.jsx)                       *)
(* ===================================================================== *)

Module Dashboard.
Import Json.

(** One point of the charts. *)
Record row := mkRow
  { step : nat;
    waitingTime : json;
    delay : json;
    throughput : json;
    speed : json;
    vehicles : json }.

(** [x || 0], [None] being [undefined]. *)
Definition or_zero (x : option json) : json :=
  match x with
  | Some v => if truthy v then v else JNum 0
  | None => JNum 0
  end.

(** [v[index]] for a value that is there: an element of an array, a
    character of a string, the member of an object whose key is the index in
    decimal. *)
Definition element (index : nat) (v : json) : option json :=
  match v with
  | JArr l => nth_error l index
  | JStr s =>
      match String.get index s with
      | Some c => Some (JStr (String c EmptyString))
      | None => None
      end
  | JObj m => assoc (NilZero.string_of_uint (Nat.to_uint index)) m
  | _ => None
  end.

(** [h.key?.[index]]; the keys read are no built-in property. *)
Definition at_index (key : string) (index : nat) (h : json) : option json :=
  match get key h with
  | Found JNull => None
  | Found v => element index v
  | _ => None
  end.

(** The callback of [map], lines 323-330. *)
Definition point (h : json) (waitingTime : json) (index : nat) : row :=
  mkRow index
        (or_zero (Some waitingTime))
        (or_zero (at_index "delay_history" index h))
        (or_zero (at_index "throughput_history" index h))
        (or_zero (at_index "speed_history" index h))
        (or_zero (at_index "vehicle_count_history" index h)).

(** [l.map(f)] from index [index] on. *)
Fixpoint map_from (f : json -> nat -> row) (index : nat) (l : list json)
  : list row :=
  match l with
  | [] => []
  | x :: rest => f x index :: map_from f (S index) rest
  end.

(** Lines 320-331.  The prop is [None] when it is [undefined]; the result
    is [None] for the TypeError of calling [map] on a value that has none. *)
Definition formatChartData (historicalMetrics : option json) : option (list row) :=
  match historicalMetrics with
  | None => Some []
  | Some h =>
      if negb (truthy h) then Some []
      else
        match get "waiting_time_history" h with
        | Found (JArr l) => Some (map_from (point h) 0 l)
        | Found JNull => Some []
        | Found _ => None
        | _ => Some []
        end
  end.

End Dashboard.

(* ===================================================================== *)
(** ** The DOM markers (Vehicle.jsx, TrafficLight.jsx)                    *)
(* ===================================================================== *)

Module Dom.
Import Canvas.

(** The inline style of a vehicle marker: position in percent of the
    container, diameter and glow radius in pixels. *)
Record vehicle_style := mkVehicleStyle
  { v_left : Q;
    v_top : Q;
    v_size : Q;
    v_backgroundColor : string;
    v_opacity : Q;
    v_glow : Q }.

(** Vehicle.jsx, lines 4-36 *)
Definition Vehicle (vehicle : Vehicle.t) (gridWidth gridHeight : Q) : vehicle_style :=
  let scaleX := (Vehicle.x vehicle / gridWidth) * 100 in
  let scaleY := (Vehicle.y vehicle / gridHeight) * 100 in
  let size := Qmax 2 (Qmin 5 (Vehicle.speed vehicle * 2)) in
  let opacity := if Qpos_bool (Vehicle.waiting_time vehicle) then 7 # 10 else 1 in
  mkVehicleStyle scaleX scaleY size (Vehicle.color vehicle) opacity
    (if Qpos_bool (Vehicle.waiting_time vehicle) then 8 else 4).

(** The inline style and the children of a signal marker. *)
Record light_style := mkLightStyle
  { l_left : Q;
    l_top : Q;
    l_width : Q;
    l_height : Q;
    l_backgroundColor : option string;   (* [None]: the declaration is dropped *)
    l_badge : option Z;              (* the queue length shown above *)
    l_blink : bool }.                (* the blinking dot *)

(** Line 77, [backgroundColor: stateColors[state] || '#666'], the table being
    the one of the canvas (lines 59-63): a member inherited from
    [Object.prototype] is written out as text that is no colour, and the
    browser drops the declaration. *)
Definition backgroundColor (state : string) : option string :=
  match stateColors state with
  | Colour c => Some c
  | Member => None
  | NoEntry => Some "#666"
  end.

(** TrafficLight.jsx, lines 53-120 *)
Definition TrafficLight (light : Light.t) (gridWidth gridHeight : Q) : light_style :=
  let scaleX := (Light.x light / gridWidth) * 100 in
  let scaleY := (Light.y light / gridHeight) * 100 in
  let size := if String.eqb (Light.direction light) "horizontal" then 20 else 8 in
  let width := if String.eqb (Light.direction light) "horizontal" then 8 else 20 in
  mkLightStyle scaleX scaleY width size
    (backgroundColor (Light.state light))
    (if (0 <? Light.queue_length light)%Z
     then Some (Light.queue_length light) else None)
    (String.eqb (Light.state light) "YELLOW").

End Dom.

(* ===================================================================== *)
(** ** Scenarios                                                          *)
(* ===================================================================== *)

Module Scenario.

(** A frame with one signal that has a queue, and a frame with one moving
    vehicle. *)
Definition queued_signal : Canvas.Snapshot :=
  Canvas.mkSnapshot (Some 1%Z) Canvas.Undefined
    (Canvas.Val [Canvas.Light.mk 10 10 "RED" "horizontal" 2])
    Canvas.Undefined.

Definition moving_vehicle : Canvas.Snapshot :=
  Canvas.mkSnapshot (Some 2%Z)
    (Canvas.Val [Canvas.Vehicle.mk 25 25 "#f00" 2 0])
    Canvas.Undefined Canvas.Undefined.

Definition paused (s : Canvas.Snapshot) : Canvas.Props :=
  Canvas.mkProps s false true.

(** Frames of the streaming channel: an object whose only member is [type],
    with value [ping] or [pong], and an object with [step] 1 and an empty
    [vehicles] list. *)
Definition tagged (tag : string) : string :=
  ("{" ++ Json.q ++ "type" ++ Json.q ++ ":" ++ Json.q ++ tag ++ Json.q ++ "}")%string.
Definition ping_frame : string := tagged "ping".
Definition pong_frame : string := tagged "pong".
Definition snapshot_frame : string :=
  ("{" ++ Json.q ++ "step" ++ Json.q ++ ":1," ++
   Json.q ++ "vehicles" ++ Json.q ++ ":[]}")%string.
Definition snapshot_value : Json.json :=
  Json.JObj [("step", Json.JNum 1); ("vehicles", Json.JArr [])].

(** The hook mounted at time 0 for simulation [sim-1] with handler 0, paused,
    and the same once its socket is open. *)
Definition mounted : Hook.hook := Hook.mount 0 (Some "sim-1") 0 false.
Definition connected : Hook.hook :=
  Hook.settle false (Hook.ws_onopen (Hook.set_ready 0 Hook.OPEN mounted)).

(** Explicit teardown of a connected manager, the socket's close event,
    two seconds, the timer. *)
Definition teardown_then_wait : list Hook.event :=
  [Hook.CallDisconnect; Hook.SockClose 0; Hook.Elapse 2000;
   Hook.FireTimeout 1].
Definition unmount_then_wait : list Hook.event :=
  [Hook.Unmount; Hook.SockClose 0; Hook.Elapse 2000; Hook.FireTimeout 1].

(** An orchestrator that holds simulation [sim-1]. *)
Definition session : App.app :=
  App.mkApp (Some "sim-1") (Json.JObj []) (Json.JObj []) (Json.JObj []) false.

End Scenario.

(* ===================================================================== *)
(** ** Facts about the scene renderer                                     *)
(* ===================================================================== *)

Module CanvasFacts.
Import Canvas.
Local Open Scope Q_scope.

(** Runs a straight-line drawing program on a canvas given field by field. *)
Ltac run_canvas :=
  cbv [seq_prog skip save restore set_globalAlpha set_fillStyle set_strokeStyle
       set_lineWidth setLineDash set_font set_textAlign set_textBaseline
       beginPath moveTo lineTo arc fill stroke fillRect strokeRect fillText
       with_ctx with_path emit
       width height ctx saved path surface
       fillStyle strokeStyle lineWidth lineDash globalAlpha font textAlign
       textBaseline].

(** Line 27 erases the whole element. *)
Lemma clearRect_whole (c : canvas) :
  clearRect 0 0 (width c) (height c) c =
  mkCanvas (width c) (height c) (ctx c) (saved c) (path c) [].
Proof.
  unfold clearRect, covers.
  assert (Hw : Qle_bool (width c) (0 + width c) = true).
  { apply Qle_bool_iff. rewrite Qplus_0_l. apply Qle_refl. }
  assert (Hh : Qle_bool (height c) (0 + height c) = true).
  { apply Qle_bool_iff. rewrite Qplus_0_l. apply Qle_refl. }
  rewrite Hw, Hh. reflexivity.
Qed.

(** Lines 27-68 in closed form. *)
Lemma draw_background_eq (c : canvas) :
  draw_background c =
  mkCanvas (width c) (height c) (ctx_after_background (ctx c)) (saved c)
    [MoveTo (width c / 2) 0; LineTo (width c / 2) (height c)]
    (background_paints (width c) (height c) (ctx c)).
Proof.
  unfold draw_background. cbv zeta. unfold seq_prog at 1. rewrite clearRect_whole.
  destruct c as [W H k st p ps]. destruct k. reflexivity.
Qed.

(** Lines 70-100 in closed form: the context is restored, the path is the
    marker, the surface has the marker on top. *)
Lemma draw_vehicle_eq (gw gh : Q) (v : Vehicle.t) (c : canvas) :
  draw_vehicle gw gh v c =
  mkCanvas (width c) (height c) (ctx c) (saved c)
    [ArcTo (scale (Vehicle.x v) gw (width c)) (scale (Vehicle.y v) gh (height c))
           (marker_size (Vehicle.speed v))]
    (surface c ++ vehicle_paints (width c) (height c) (ctx c) gw gh v).
Proof.
  destruct c as [W H k st p ps]. destruct k.
  unfold draw_vehicle, vehicle_paints.
  destruct (Qpos_bool (Vehicle.speed v)); run_canvas;
    rewrite <- ?app_assoc; reflexivity.
Qed.

Lemma forEach_vehicles (gw gh : Q) (vs : list Vehicle.t) (c : canvas) :
  let c' := forEach vs (draw_vehicle gw gh) c in
  width c' = width c /\ height c' = height c /\ ctx c' = ctx c /\
  saved c' = saved c /\
  surface c' =
    surface c ++ flat_map (vehicle_paints (width c) (height c) (ctx c) gw gh) vs.
Proof.
  unfold forEach. revert c.
  induction vs as [|v vs IH]; intros c; simpl.
  - rewrite app_nil_r. auto.
  - destruct (IH (draw_vehicle gw gh v c)) as (Hw & Hh & Hk & Hs & Hp).
    rewrite Hw, Hh, Hk, Hs, Hp, draw_vehicle_eq. simpl.
    rewrite <- app_assoc. auto.
Qed.

(** Lines 102-159: opacity and line dash survive a signal, the other
    settings do not. *)
Lemma draw_light_eq (now : Z) (gw gh : Q) (l : Light.t) (c : canvas) :
  let c' := draw_light now gw gh l c in
  width c' = width c /\ height c' = height c /\
  globalAlpha (ctx c') = globalAlpha (ctx c) /\
  lineDash (ctx c') = lineDash (ctx c) /\
  saved c' = saved c /\
  fillStyle (ctx c') = fill_after (fillStyle (ctx c)) l /\
  surface c' =
    surface c ++ light_paints now (width c) (height c) (globalAlpha (ctx c))
                   (lineDash (ctx c)) gw gh (fillStyle (ctx c)) l.
Proof.
  destruct c as [W H k st p ps]. destruct k.
  unfold draw_light, light_paints, fill_after.
  destruct (String.eqb (Light.state l) "YELLOW");
    destruct (0 <? Light.queue_length l)%Z; run_canvas;
    rewrite <- ?app_assoc; simpl app; auto 10.
Qed.

Lemma forEach_lights (now : Z) (gw gh : Q) (ls : list Light.t) (c : canvas) :
  let c' := forEach ls (draw_light now gw gh) c in
  width c' = width c /\ height c' = height c /\
  globalAlpha (ctx c') = globalAlpha (ctx c) /\
  lineDash (ctx c') = lineDash (ctx c) /\
  saved c' = saved c /\
  surface c' =
    surface c ++ lights_paints now (width c) (height c)
                   (globalAlpha (ctx c)) (lineDash (ctx c)) gw gh
                   (fillStyle (ctx c)) ls.
Proof.
  unfold forEach. revert c.
  induction ls as [|l ls IH]; intros c; simpl.
  - rewrite app_nil_r. auto 10.
  - destruct (draw_light_eq now gw gh l c) as (Hw & Hh & Ha & Hd & Hs & Hf & Hp).
    destruct (IH (draw_light now gw gh l c)) as (Hw' & Hh' & Ha' & Hd' & Hs' & Hp').
    rewrite Hw', Hh', Ha', Hd', Hs', Hp', Hw, Hh, Ha, Hd, Hs, Hf, Hp, <- app_assoc.
    auto 10.
Qed.

(** A signal of the list is painted where it stands, by a context with some
    fill style. *)
Lemma in_lights_paints (now : Z) (W H : Q) (a : alpha) (dash : list Q)
    (gw gh : Q) (t : Light.t) (ls : list Light.t) :
  In t ls ->
  forall fill p,
    (forall f, In (p f) (light_paints now W H a dash gw gh f t)) ->
    exists f, In (p f) (lights_paints now W H a dash gw gh fill ls).
Proof.
  induction ls as [|l ls IH]; intros Hin fill p Hp; [destruct Hin|].
  cbn [lights_paints]. destruct Hin as [->|Hin].
  - exists fill. apply in_or_app. left. apply Hp.
  - destruct (IH Hin (fill_after fill l) p Hp) as (f & Hf).
    exists f. apply in_or_app. right. exact Hf.
Qed.

(** The effect on well-formed lists, in closed form: the frame is the
    background, then the vehicles, then the signals. *)
Lemma draw_effect_eq (now : Z) (l : locals) (c : canvas)
    (vs : list Vehicle.t) (ls : list Light.t) :
  l_vehicles l = Some vs -> l_trafficLights l = Some ls ->
  exists c', draw_effect now l c = Done c' /\
    width c' = width c /\ height c' = height c /\ saved c' = saved c /\
    globalAlpha (ctx c') = globalAlpha (ctx c) /\ lineDash (ctx c') = [] /\
    surface c' = frame_paints now (width c) (height c) (ctx c)
                   (gridWidth l) (gridHeight l) vs ls.
Proof.
  intros Hv Hl. unfold draw_effect. rewrite Hv, Hl.
  eexists. split; [reflexivity|].
  pose proof (forEach_vehicles (gridWidth l) (gridHeight l) vs (draw_background c))
    as (Hw & Hh & Hk & Hs & Hp).
  pose proof (forEach_lights now (gridWidth l) (gridHeight l) ls
                (forEach vs (draw_vehicle (gridWidth l) (gridHeight l))
                         (draw_background c)))
    as (Hw' & Hh' & Ha' & Hd' & Hs' & Hp').
  rewrite Hw', Hh', Ha', Hd', Hs', Hp', Hw, Hh, Hk, Hs, Hp.
  rewrite draw_background_eq. cbn [width height ctx saved surface].
  unfold frame_paints. rewrite <- app_assoc.
  destruct (ctx c). cbn. auto 10.
Qed.

(** No accumulation: what was on the surface before a frame is gone after
    it. *)
Lemma frame_erases_surface (now : Z) (l : locals) (c : canvas) (ps : list paint) :
  draw_effect now l (mkCanvas (width c) (height c) (ctx c) (saved c) (path c) ps) =
  draw_effect now l (mkCanvas (width c) (height c) (ctx c) (saved c) (path c) []).
Proof.
  unfold draw_effect. rewrite !draw_background_eq. reflexivity.
Qed.

(** *** Marker size *)

Lemma marker_size_low (s : Q) : s * 2 <= 3 -> marker_size s == 3.
Proof.
  intros H. unfold marker_size.
  rewrite (Q.min_r 8 (s * 2)) by lra. apply Q.max_l; exact H.
Qed.

Lemma marker_size_mid (s : Q) : 3 <= s * 2 -> s * 2 <= 8 -> marker_size s == s * 2.
Proof.
  intros H1 H2. unfold marker_size.
  rewrite (Q.min_r 8 (s * 2)) by exact H2. apply Q.max_r; exact H1.
Qed.

Lemma marker_size_high (s : Q) : 8 <= s * 2 -> marker_size s == 8.
Proof.
  intros H. unfold marker_size.
  rewrite (Q.min_l 8 (s * 2)) by exact H. apply Q.max_r; lra.
Qed.

Lemma marker_size_monotone (s1 s2 : Q) :
  s1 <= s2 -> marker_size s1 <= marker_size s2.
Proof.
  intros H. unfold marker_size.
  apply Q.max_le_compat_l. apply Q.min_le_compat_l. lra.
Qed.

Lemma marker_size_bounds (s : Q) : 3 <= marker_size s /\ marker_size s <= 8.
Proof.
  unfold marker_size. split.
  - apply Q.le_max_l.
  - apply Q.max_lub; [lra | apply Q.le_min_l].
Qed.

(** Every vehicle handed to the effect is on the surface afterwards. *)
Lemma vehicle_is_painted (now : Z) (l : locals) (c : canvas)
    (vs : list Vehicle.t) (ls : list Light.t) (v : Vehicle.t) :
  l_vehicles l = Some vs -> l_trafficLights l = Some ls -> In v vs ->
  exists c', draw_effect now l c = Done c' /\
    In (FillPath
          [ArcTo (Vehicle.x v / gridWidth l * width c)
                 (Vehicle.y v / gridHeight l * height c)
                 (marker_size (Vehicle.speed v))]
          (Vehicle.color v)
          (Opaque (vehicle_opacity (Vehicle.waiting_time v))))
       (surface c').
Proof.
  intros Hv Hl Hin.
  destruct (draw_effect_eq now l c vs ls Hv Hl) as (c' & E & _ & _ & _ & _ & _ & Hs).
  exists c'. split; [exact E|]. rewrite Hs. unfold frame_paints.
  apply in_or_app. right. apply in_or_app. left.
  apply in_flat_map. exists v. split; [exact Hin|]. left. reflexivity.
Qed.

Lemma light_is_painted (now : Z) (l : locals) (c : canvas)
    (vs : list Vehicle.t) (ls : list Light.t) (t : Light.t) :
  l_vehicles l = Some vs -> l_trafficLights l = Some ls -> In t ls ->
  let w := if String.eqb (Light.direction t) "horizontal" then 20 else 8 in
  let h := if String.eqb (Light.direction t) "horizontal" then 8 else 20 in
  exists c' fill, draw_effect now l c = Done c' /\
    In (FillRect (Light.x t / gridWidth l * width c - w / 2)
                 (Light.y t / gridHeight l * height c - h / 2) w h
                 (fill_of fill (Light.state t))
                 (globalAlpha (ctx c)))
       (surface c').
Proof.
  intros Hv Hl Hin w h.
  destruct (draw_effect_eq now l c vs ls Hv Hl) as (c' & E & _ & _ & _ & _ & _ & Hs).
  destruct (in_lights_paints now (width c) (height c) (globalAlpha (ctx c)) []
              (gridWidth l) (gridHeight l) t ls Hin "#7f8c8d"
              (fun f => FillRect (Light.x t / gridWidth l * width c - w / 2)
                          (Light.y t / gridHeight l * height c - h / 2) w h
                          (fill_of f (Light.state t)) (globalAlpha (ctx c))))
    as (fill & Hf).
  { intros f. left. reflexivity. }
  exists c', fill. split; [exact E|]. rewrite Hs. unfold frame_paints.
  apply in_or_app. right. apply in_or_app. right. exact Hf.
Qed.

(** A snapshot none of whose three fields is [null] renders: the bindings
    are lists and numbers. *)
Lemma renders_without_null (s : Snapshot) (running click : bool) :
  vehicles s <> Null -> traffic_lights s <> Null -> config s <> Null ->
  exists l vs ls o,
    destructure s = Some l /\
    l_vehicles l = Some vs /\ l_trafficLights l = Some ls /\
    SimulationCanvas (mkProps s running click) = Some (l, o).
Proof.
  intros Hv Hl Hc. unfold SimulationCanvas, destructure. cbn [simulationState].
  destruct (config s) as [| |cfg]; [|congruence|];
    destruct (vehicles s) as [| |vs]; try congruence;
    destruct (traffic_lights s) as [| |ls]; try congruence;
    cbn; do 4 eexists; repeat split; reflexivity.
Qed.


(** *** The claims about the renderer *)

(** C4 (code defect).  Two runs that end in the same snapshot do not show the
    same picture: after a frame that drew a queue badge, the speed label of a
    vehicle is placed with text baseline [middle], without it with
    [alphabetic].  Line 156 sets [textBaseline] outside any [save]/[restore]
    and line 96 draws the label without setting it. *)
Theorem C4_label_baseline_depends_on_earlier_frame (t1 t2 : Z) :
  let alone :=
    visual (present_all [(t2, Scenario.paused Scenario.moving_vehicle)]
                        new_canvas) in
  let after_badge :=
    visual (present_all [(t1, Scenario.paused Scenario.queued_signal);
                         (t2, Scenario.paused Scenario.moving_vehicle)]
                        new_canvas) in
  alone <> after_badge /\
  In (FillText (ToFixed 2 1) (scale 25 50 800) (scale 25 50 600 + marker_size 2 + 10)
               "8px Arial" "center" "alphabetic" "#fff" (Opaque 1)) (fst alone) /\
  In (FillText (ToFixed 2 1) (scale 25 50 800) (scale 25 50 600 + marker_size 2 + 10)
               "8px Arial" "center" "middle" "#fff" (Opaque 1)) (fst after_badge).
Proof.
  cbv zeta. split; [|split].
  - intros E. apply (f_equal fst) in E. vm_compute in E. discriminate E.
  - vm_compute. do 8 right. left. reflexivity.
  - vm_compute. do 8 right. left. reflexivity.
Qed.


(** Apart from that, a frame owes nothing to the frames before it: it is
    the paints of its own snapshot, and depends on the canvas it is drawn on
    only through the size and three settings of the context. *)
Lemma frame_depends_on_context_only (now : Z) (s : Snapshot)
    (running click : bool) (c1 c2 : canvas) :
  vehicles s <> Null -> traffic_lights s <> Null -> config s <> Null ->
  width c1 = width c2 -> height c1 = height c2 ->
  globalAlpha (ctx c1) = globalAlpha (ctx c2) ->
  lineDash (ctx c1) = lineDash (ctx c2) ->
  textBaseline (ctx c1) = textBaseline (ctx c2) ->
  visual (present now (mkProps s running click) c1) =
  visual (present now (mkProps s running click) c2).
Proof.
  intros Hv Hl Hc Hw Hh Ha Hd Hb.
  destruct (renders_without_null s running click Hv Hl Hc)
    as (l & vs & ls & o & _ & Hvs & Hls & Hr).
  unfold present. rewrite Hr.
  destruct (draw_effect_eq now l c1 vs ls Hvs Hls) as (c1' & E1 & _ & _ & _ & _ & _ & S1).
  destruct (draw_effect_eq now l c2 vs ls Hvs Hls) as (c2' & E2 & _ & _ & _ & _ & _ & S2).
  unfold visual. cbn [fst snd]. rewrite E1, E2. cbn [canvas_of].
  rewrite S1, S2, Hw, Hh. f_equal.
  unfold frame_paints, background_paints, vehicle_paints, ctx_after_background.
  cbn [globalAlpha lineDash textBaseline]. rewrite Ha, Hd, Hb. reflexivity.
Qed.

(** C5 (as amended).  With a grid of [w] x [h] and a surface of [sw] x [sh],
    every vehicle and every signal of a frame, however many there are, is
    painted at [((x / w) * sw, (y / h) * sh)]; a click at offset [(cx, cy)]
    into the element is reported as grid point [((cx / sw) * w, (cy / sh) * h)].
    The two formulas undo each other as formulas over the rationals.
    [x = 25] on a grid 50 wide lands at half the surface width, and a click in
    the middle of the surface of a 100 x 100 grid is reported as [(50, 50)],
    in the arithmetic of the code as well. *)
Theorem C5_grid_and_surface_coordinates (w h sw sh : Q) :
  0 < w -> 0 < h -> 0 < sw -> 0 < sh ->
  (forall now l c vs ls v,
      gridWidth l = w -> gridHeight l = h -> width c = sw -> height c = sh ->
      l_vehicles l = Some vs -> l_trafficLights l = Some ls -> In v vs ->
      exists c', draw_effect now l c = Done c' /\
        In (FillPath [ArcTo ((Vehicle.x v / w) * sw) ((Vehicle.y v / h) * sh)
                            (marker_size (Vehicle.speed v))]
                     (Vehicle.color v)
                     (Opaque (vehicle_opacity (Vehicle.waiting_time v))))
           (surface c')) /\
  (forall now l c vs ls t,
      gridWidth l = w -> gridHeight l = h -> width c = sw -> height c = sh ->
      l_vehicles l = Some vs -> l_trafficLights l = Some ls -> In t ls ->
      let lw := if String.eqb (Light.direction t) "horizontal" then 20 else 8 in
      let lh := if String.eqb (Light.direction t) "horizontal" then 8 else 20 in
      exists c' style, draw_effect now l c = Done c' /\
        In (FillRect ((Light.x t / w) * sw - lw / 2) ((Light.y t / h) * sh - lh / 2)
                     lw lh style (globalAlpha (ctx c)))
           (surface c')) /\
  (forall l p rect clientX clientY,
      gridWidth l = w -> gridHeight l = h ->
      rect_width rect = sw -> rect_height rect = sh -> onCanvasClick p = true ->
      handleCanvasClick l p (Some rect) clientX clientY =
        Some (((clientX - left rect) / sw) * w, ((clientY - top rect) / sh) * h)) /\
  (forall x : Q, (((x / w) * sw) / sw) * w == x) /\
  (forall cx : Q, (((cx / sw) * w) / w) * sw == cx) /\
  scale 25 50 sw == (1 # 2) * sw /\
  (forall l p rect clientX clientY,
      gridWidth l = 100 -> gridHeight l = 100 ->
      rect_width rect = sw -> rect_height rect = sh -> onCanvasClick p = true ->
      clientX - left rect == sw / 2 -> clientY - top rect == sh / 2 ->
      exists gx gy,
        handleCanvasClick l p (Some rect) clientX clientY = Some (gx, gy) /\
        gx == 50 /\ gy == 50) /\
  (Binary64.scaleX 25 50 800 = 400%float /\
   (25 / 50)%float = 0.5%float /\
   Binary64.simX 400 0 800 100 = 50%float /\
   Binary64.simX 300 0 600 100 = 50%float).
Proof.
  intros Hw Hh Hsw Hsh. repeat split.
  - intros now l c vs ls v <- <- <- <- Hvs Hls Hin.
    exact (vehicle_is_painted now l c vs ls v Hvs Hls Hin).
  - intros now l c vs ls t <- <- <- <- Hvs Hls Hin.
    destruct (light_is_painted now l c vs ls t Hvs Hls Hin) as (c' & fill & E & I).
    exists c', (fill_of fill (Light.state t)). split; [exact E | exact I].
  - intros l p rect cx cy <- <- <- <- Hc. unfold handleCanvasClick.
    rewrite Hc. reflexivity.
  - intros x. field. split; lra.
  - intros cx. field. split; lra.
  - unfold scale. field.
  - intros l p rect cx cy Hgw Hgh <- <- Hc Hx Hy. unfold handleCanvasClick.
    rewrite Hc, Hgw, Hgh. cbn [negb]. do 2 eexists. split; [reflexivity|].
    split; [rewrite Hx | rewrite Hy]; field; lra.
Qed.

(** C5 (as stated) fails in the arithmetic of the code: numbers are binary64
    values, and grid position 7 on a grid 50 wide, painted on a surface 800
    wide at 112.00000000000001 and clicked there, is reported as
    7.000000000000001. *)
Theorem C5_round_trip_is_inexact_in_binary64 :
  Binary64.scaleX 7 50 800 = 0x1.c000000000001p+6%float /\
  Binary64.simX (Binary64.scaleX 7 50 800) 0 800 50 = 0x1.c000000000001p+2%float /\
  PrimFloat.eqb (Binary64.simX (Binary64.scaleX 7 50 800) 0 800 50) 7 = false /\
  PrimFloat.ltb 7 (Binary64.simX (Binary64.scaleX 7 50 800) 0 800 50) = true.
Proof.
  repeat split.
Qed.

(** C6.  The marker of every vehicle is painted with radius
    [clamp(speed * 2, 3, 8)]: 3 below, [speed * 2] in between, 8 above; the
    radius does not decrease when the speed grows; speeds 0, 2 and 10 give
    3, 4 and 8. *)
Theorem C6_marker_radius_is_clamped_speed :
  (forall now l c vs ls v,
      l_vehicles l = Some vs -> l_trafficLights l = Some ls -> In v vs ->
      exists c' x y style a, draw_effect now l c = Done c' /\
        In (FillPath [ArcTo x y (Qmax 3 (Qmin 8 (Vehicle.speed v * 2)))] style a)
           (surface c')) /\
  (forall s, s * 2 <= 3 -> marker_size s == 3) /\
  (forall s, 3 <= s * 2 -> s * 2 <= 8 -> marker_size s == s * 2) /\
  (forall s, 8 <= s * 2 -> marker_size s == 8) /\
  (forall s1 s2, s1 <= s2 -> marker_size s1 <= marker_size s2) /\
  marker_size 0 == 3 /\ marker_size 2 == 4 /\ marker_size 10 == 8.
Proof.
  split; [|repeat split].
  - intros now l c vs ls v Hvs Hls Hin.
    destruct (vehicle_is_painted now l c vs ls v Hvs Hls Hin) as (c' & E & H).
    exists c'. do 4 eexists. split; [exact E | exact H].
  - exact marker_size_low.
  - exact marker_size_mid.
  - exact marker_size_high.
  - exact marker_size_monotone.
Qed.

(** C7.  Of two vehicles that differ in waiting time only, one waiting and
    one not, the first is painted with opacity 0.7 and the second with
    opacity 1: the disc, its outline and the speed label, if there is one,
    are each painted under that opacity, and are otherwise the same paints;
    so it is in every frame that holds such a vehicle.  The opacity does not
    outlive the vehicle. *)
Theorem C7_waiting_vehicle_is_dimmed (gw gh : Q) (v1 v2 : Vehicle.t) (c : canvas) :
  Vehicle.x v1 = Vehicle.x v2 -> Vehicle.y v1 = Vehicle.y v2 ->
  Vehicle.color v1 = Vehicle.color v2 -> Vehicle.speed v1 = Vehicle.speed v2 ->
  0 < Vehicle.waiting_time v1 -> Vehicle.waiting_time v2 == 0 ->
  vehicle_opacity (Vehicle.waiting_time v1) = 7 # 10 /\
  vehicle_opacity (Vehicle.waiting_time v2) = 1 /\
  (exists cx cy r label1 label2,
      surface (draw_vehicle gw gh v1 c) =
        surface c ++
        FillPath [ArcTo cx cy r] (Vehicle.color v1) (Opaque (7 # 10)) ::
        StrokePath [ArcTo cx cy r] "#fff" 1 (lineDash (ctx c)) (Opaque (7 # 10)) ::
        label1 /\
      surface (draw_vehicle gw gh v2 c) =
        surface c ++
        FillPath [ArcTo cx cy r] (Vehicle.color v2) (Opaque 1) ::
        StrokePath [ArcTo cx cy r] "#fff" 1 (lineDash (ctx c)) (Opaque 1) ::
        label2 /\
      Forall (fun p => paint_alpha p = Some (Opaque (7 # 10))) label1 /\
      Forall (fun p => paint_alpha p = Some (Opaque 1)) label2 /\
      map (with_alpha (Opaque 1)) label1 = label2 /\
      (List.length label1 <= 1)%nat) /\
  ctx (draw_vehicle gw gh v1 c) = ctx c /\
  ctx (draw_vehicle gw gh v2 c) = ctx c /\
  (forall now l c0 vs ls,
      l_vehicles l = Some vs -> l_trafficLights l = Some ls ->
      (In v1 vs ->
       exists c' cx cy r, draw_effect now l c0 = Done c' /\
         In (FillPath [ArcTo cx cy r] (Vehicle.color v1) (Opaque (7 # 10)))
            (surface c')) /\
      (In v2 vs ->
       exists c' cx cy r, draw_effect now l c0 = Done c' /\
         In (FillPath [ArcTo cx cy r] (Vehicle.color v2) (Opaque 1))
            (surface c'))).
Proof.
  intros Hx Hy Hc Hs H1 H2.
  assert (O1 : vehicle_opacity (Vehicle.waiting_time v1) = 7 # 10).
  { unfold vehicle_opacity, Qpos_bool.
    destruct (Qle_bool (Vehicle.waiting_time v1) 0) eqn:E; [|reflexivity].
    apply Qle_bool_iff in E. lra. }
  assert (O2 : vehicle_opacity (Vehicle.waiting_time v2) = 1).
  { unfold vehicle_opacity, Qpos_bool.
    destruct (Qle_bool (Vehicle.waiting_time v2) 0) eqn:E; [reflexivity|].
    assert (Qle_bool (Vehicle.waiting_time v2) 0 = true) as E'
      by (apply Qle_bool_iff; lra).
    congruence. }
  split; [exact O1|]. split; [exact O2|]. split; [|split; [|split]].
  - rewrite !draw_vehicle_eq. cbn [surface].
    unfold vehicle_paints. rewrite O1, O2, Hx, Hy, Hc, Hs. cbn [app].
    destruct (Qpos_bool (Vehicle.speed v2)); do 5 eexists;
      (split; [reflexivity|]); (split; [reflexivity|]);
      repeat split; repeat constructor.
  - rewrite draw_vehicle_eq. reflexivity.
  - rewrite draw_vehicle_eq. reflexivity.
  - intros now l c0 vs ls Hvs Hls. split; intros Hin.
    + destruct (vehicle_is_painted now l c0 vs ls v1 Hvs Hls Hin) as (c' & E & I).
      rewrite O1 in I. eauto 6.
    + destruct (vehicle_is_painted now l c0 vs ls v2 Hvs Hls Hin) as (c' & E & I).
      rewrite O2 in I. eauto 6.
Qed.

(** C10.  A snapshot that lacks [vehicles], [traffic_lights] or [config]
    (none of them being [null]) renders and draws without error, as the
    snapshot with an empty vehicle list, an empty signal list and a 50 x 50
    grid in their place does; the grid dimensions that divide the positions
    are then 50, not zero.  The initial state [{}] shows the background
    alone. *)
Theorem C10_missing_fields_take_defaults (s : Snapshot) (now : Z)
    (running click : bool) (c : canvas) :
  vehicles s <> Null -> traffic_lights s <> Null -> config s <> Null ->
  (exists c' o, present now (mkProps s running click) c = (Done c', Some o)) /\
  present now (mkProps s running click) c =
    present now (mkProps (with_defaults s) running click) c /\
  (exists l, destructure s = Some l /\
     (vehicles s = Undefined -> l_vehicles l = Some []) /\
     (traffic_lights s = Undefined -> l_trafficLights l = Some []) /\
     (config s = Undefined ->
        gridWidth l = 50 /\ gridHeight l = 50 /\
        ~ gridWidth l == 0 /\ ~ gridHeight l == 0)) /\
  visual (present now (mkProps empty_snapshot running click) c) =
    (background_paints (width c) (height c) (ctx c),
     Some (mkOverlay running (negb running) 0 0 (50, 50) None)).
Proof.
  intros Hv Hl Hc.
  destruct (renders_without_null s running click Hv Hl Hc)
    as (l & vs & ls & o & Hd & Hvs & Hls & Hr).
  split; [|split; [|split]].
  - destruct (draw_effect_eq now l c vs ls Hvs Hls) as (c' & E & _).
    exists c', o. unfold present. rewrite Hr, E. reflexivity.
  - unfold present, SimulationCanvas, destructure, with_defaults, shown_algorithm.
    cbn [simulationState isRunning vehicles traffic_lights config steps].
    destruct (config s) as [| |cfg]; [|congruence|];
      destruct (vehicles s) as [| |vs']; try congruence;
      destruct (traffic_lights s) as [| |ls']; try congruence;
      try reflexivity;
      destruct cfg as [[gw|] [gh|] alg]; reflexivity.
  - exists l. split; [exact Hd|].
    unfold destructure in Hd.
    destruct (config s) as [| |cfg]; [|congruence|];
      cbn in Hd; injection Hd as <-; cbn;
      (split; [intros ->; reflexivity|]);
      (split; [intros ->; reflexivity|]);
      intros E; try discriminate E.
    repeat split; try reflexivity; intros Z0; discriminate Z0.
  - unfold present, visual. cbn [SimulationCanvas]. cbn -[draw_effect background_paints].
    destruct (draw_effect_eq now (mkLocals (Some []) (Some []) 50 50) c [] []
                eq_refl eq_refl) as (c' & E & _ & _ & _ & _ & _ & S).
    rewrite E. cbn [canvas_of]. rewrite S. unfold frame_paints. cbn [flat_map].
    rewrite !app_nil_r. reflexivity.
Qed.
(** C5 on the default grid and the 800 x 600 surface. *)
Lemma C5_on_the_default_grid :
  0 < 50 /\ 0 < 800 /\ 0 < 600 /\
  scale 25 50 800 == (1 # 2) * 800 /\
  (((10 / 50) * 800) / 800) * 50 == 10 /\
  (((200 / 800) * 50) / 50) * 800 == 200.
Proof.
  pose proof (C5_grid_and_surface_coordinates 50 50 800 600
                eq_refl eq_refl eq_refl eq_refl)
    as (_ & _ & _ & I & J & E & _).
  split; [reflexivity|]. split; [reflexivity|]. split; [reflexivity|].
  split; [exact E|]. split; [exact (I 10) | exact (J 200)].
Defined.

(** C6 between speeds 1/2 and 1. *)
Lemma C6_between_two_speeds :
  (1 # 2) <= 1 /\ marker_size (1 # 2) <= marker_size 1 /\ marker_size 2 == 4.
Proof.
  pose proof C6_marker_radius_is_clamped_speed as (_ & _ & _ & _ & M & _ & E & _).
  split; [discriminate|]. split; [apply M; discriminate | exact E].
Defined.

(** C7 for a vehicle that has waited three steps and its twin that has
    not. *)
Lemma C7_for_twins :
  0 < 3 /\
  vehicle_opacity (Vehicle.waiting_time (Vehicle.mk 25 25 "#f00" 2 3)) = 7 # 10 /\
  vehicle_opacity (Vehicle.waiting_time (Vehicle.mk 25 25 "#f00" 2 0)) = 1 /\
  exists cx cy r label,
    surface (draw_vehicle 50 50 (Vehicle.mk 25 25 "#f00" 2 3) new_canvas) =
      FillPath [ArcTo cx cy r] "#f00" (Opaque (7 # 10)) ::
      StrokePath [ArcTo cx cy r] "#fff" 1 [] (Opaque (7 # 10)) :: label.
Proof.
  pose proof (C7_waiting_vehicle_is_dimmed 50 50
                (Vehicle.mk 25 25 "#f00" 2 3) (Vehicle.mk 25 25 "#f00" 2 0)
                new_canvas eq_refl eq_refl eq_refl eq_refl eq_refl eq_refl)
    as (A & B & (cx & cy & r & l1 & l2 & S1 & _) & _).
  split; [reflexivity|]. split; [exact A|]. split; [exact B|].
  exists cx, cy, r, l1. exact S1.
Defined.

(** C10 for the initial state [{}]. *)
Lemma C10_for_the_empty_state :
  vehicles empty_snapshot <> Null /\
  exists c' o,
    present 0 (mkProps empty_snapshot false true) new_canvas = (Done c', Some o).
Proof.
  split; [discriminate|].
  refine (proj1 (C10_missing_fields_take_defaults empty_snapshot 0 false true
                   new_canvas _ _ _)); discriminate.
Defined.

End CanvasFacts.

(* ===================================================================== *)
(** ** Facts about the connection manager                                 *)
(* ===================================================================== *)

Module HookFacts.
Import Json Hook.

Section Messages.

Variable JSON_parse : string -> option json.

(** Unfolds the message callback down to the property read. *)
Ltac open_callback E :=
  unfold ws_onmessage, try_catch, bind, parse_or_throw, is_control;
  rewrite E; unfold ret at 1; cbn beta iota.

(** A frame that does not parse is logged; nothing else changes. *)
Lemma unparsable_frame_is_logged (k : closure) (raw : string) (h : hook) :
  JSON_parse raw = None ->
  ws_onmessage JSON_parse k raw h =
    (inl tt, set_console (console h ++ [SyntaxError]) h).
Proof.
  intros E. unfold ws_onmessage, try_catch, bind, parse_or_throw.
  rewrite E. reflexivity.
Qed.

(** A frame holding [null] parses, but reading its [type] throws. *)
Lemma null_frame_is_logged (k : closure) (raw : string) (h : hook) :
  JSON_parse raw = Some JNull ->
  ws_onmessage JSON_parse k raw h =
    (inl tt, set_console (console h ++ [TypeError]) h).
Proof.
  intros E. open_callback E. reflexivity.
Qed.

(** A frame tagged [ping] or [pong] changes nothing. *)
Lemma control_frame_is_ignored (k : closure) (raw : string) (data : json) (h : hook) :
  JSON_parse raw = Some data -> control_tag data = true ->
  ws_onmessage JSON_parse k raw h = (inl tt, h).
Proof.
  intros E T. open_callback E. unfold control_tag in T.
  destruct (get "type" data) as [| |[ |b|q|s|l|m]]; try discriminate T.
  cbn. rewrite T. reflexivity.
Qed.

(** Any other value but [null] goes to the handler, once. *)
Lemma snapshot_frame_is_delivered (k : closure) (raw : string) (data : json) (h : hook) :
  JSON_parse raw = Some data -> data <> JNull -> control_tag data = false ->
  ws_onmessage JSON_parse k raw h =
    (inl tt, set_delivered (delivered h ++ [(snd k, data)]) h).
Proof.
  intros E N T. open_callback E. unfold control_tag in T.
  destruct (get "type" data) as [| |[ |b|q|s|l|m]] eqn:G; try reflexivity.
  - destruct data as [ |b|q|s|l|m]; cbn in G; try discriminate G;
      [ congruence | destruct (assoc "type" m); discriminate G ].
  - cbn. rewrite T. reflexivity.
Qed.

(** The message callback always returns: whatever its body throws is
    caught. *)
Lemma ws_onmessage_returns (k : closure) (raw : string) (h : hook) :
  fst (ws_onmessage JSON_parse k raw h) = inl tt.
Proof.
  destruct (JSON_parse raw) as [data|] eqn:E.
  - destruct data as [ |b|q|s|l|m] eqn:D;
      [ rewrite (null_frame_is_logged k raw h E); reflexivity | rewrite <- D in *.. ];
      (destruct (control_tag data) eqn:T;
       [ rewrite (control_frame_is_ignored k raw data h E T); reflexivity
       | rewrite (snapshot_frame_is_delivered k raw data h E); [reflexivity| subst; discriminate | exact T] ]).
  - rewrite (unparsable_frame_is_logged k raw h E). reflexivity.
Qed.

Lemma skipn_past {A : Type} (l more : list A) :
  skipn (List.length l) (l ++ more) = more.
Proof.
  induction l as [|x l IH]; [reflexivity | exact IH].
Qed.

Lemma new_calls_same (h h' : hook) :
  delivered h' = delivered h -> new_calls h h' = [].
Proof.
  intros E. unfold new_calls. rewrite E.
  rewrite <- (app_nil_r (delivered h)) at 2. apply skipn_past.
Qed.

Lemma new_calls_one (h h' : hook) (call : nat * json) :
  delivered h' = delivered h ++ [call] -> new_calls h h' = [call].
Proof.
  intros E. unfold new_calls. rewrite E. apply skipn_past.
Qed.

(** C3.  A frame whose parsed [type] is [ping] or [pong] never reaches the
    snapshot handler; every other message reaches it exactly once, as the
    value parsed: so it is for every JSON object, which is what a message of
    the channel is, and for every other parsed value but [null]; of the
    three frames [{type:ping}], [{step:1,...}], [{type:pong}] exactly the
    second is delivered. *)
Theorem C3_frames_reach_handler_unless_control :
  (forall (k : closure) (raw : string) (data : json) (h : hook),
      JSON_parse raw = Some data -> control_tag data = true ->
      new_calls h (snd (ws_onmessage JSON_parse k raw h)) = []) /\
  (forall (k : closure) (raw : string) (data : json) (h : hook),
      JSON_parse raw = Some data -> data <> JNull -> control_tag data = false ->
      new_calls h (snd (ws_onmessage JSON_parse k raw h)) = [(snd k, data)]) /\
  (forall m : list (string * json),
      control_tag (JObj m) = true <->
      assoc "type" m = Some (JStr "ping") \/ assoc "type" m = Some (JStr "pong")) /\
  run Json.parse
      [ SockMessage 0 Scenario.ping_frame;
        SockMessage 0 Scenario.snapshot_frame;
        SockMessage 0 Scenario.pong_frame ] Scenario.connected =
    Some (set_delivered [(0%nat, Scenario.snapshot_value)] Scenario.connected).
Proof.
  split; [|split; [|split]].
  - intros k raw data h E T. rewrite (control_frame_is_ignored k raw data h E T).
    apply new_calls_same. reflexivity.
  - intros k raw data h E N T. rewrite (snapshot_frame_is_delivered k raw data h E N T).
    apply new_calls_one. reflexivity.
  - intros m. unfold control_tag. cbn [get].
    destruct (assoc "type" m) as [[ |b|q|s|l|m']|]; split; intros H;
      try discriminate H; try (destruct H as [H|H]; discriminate H).
    + apply orb_true_iff in H. destruct H as [H|H];
        apply String.eqb_eq in H; subst; auto.
    + destruct H as [H|H]; injection H as ->; reflexivity.
  - reflexivity.
Qed.

(** C8.  A frame that fails to parse does not reach the handler; the message
    callback returns normally, having only logged the error; the snapshot
    the orchestrator holds stays the one shown, and the next frame that
    carries a snapshot replaces it. *)
Theorem C8_unparsable_frame_is_dropped (k : closure) (raw : string)
    (h : hook) (a : App.app) :
  JSON_parse raw = None ->
  fst (ws_onmessage JSON_parse k raw h) = inl tt /\
  snd (ws_onmessage JSON_parse k raw h) = set_console (console h ++ [SyntaxError]) h /\
  new_calls h (snd (ws_onmessage JSON_parse k raw h)) = [] /\
  snd (App.on_frame JSON_parse k raw (h, a)) = a /\
  (forall i, nth_error (sockets h) i = Some (mkWS k OPEN) ->
     step JSON_parse (SockMessage i raw) h =
       Some (set_console (console h ++ [SyntaxError]) h)) /\
  (forall raw' data',
     JSON_parse raw' = Some data' -> data' <> JNull -> control_tag data' = false ->
     App.simulationState
       (snd (App.on_frame JSON_parse k raw'
               (App.on_frame JSON_parse k raw (h, a)))) = data').
Proof.
  intros E.
  assert (Hdrop : snd (App.on_frame JSON_parse k raw (h, a)) = a).
  { unfold App.on_frame. cbn [fst snd]. rewrite (unparsable_frame_is_logged k raw h E).
    cbn [snd]. rewrite new_calls_same by reflexivity. reflexivity. }
  repeat split.
  - apply ws_onmessage_returns.
  - rewrite (unparsable_frame_is_logged k raw h E). reflexivity.
  - rewrite (unparsable_frame_is_logged k raw h E). apply new_calls_same. reflexivity.
  - exact Hdrop.
  - intros i Hi. cbn [step]. rewrite Hi. cbn [ready made_by].
    rewrite (unparsable_frame_is_logged k raw h E). reflexivity.
  - intros raw' data' E' N' T'.
    destruct (App.on_frame JSON_parse k raw (h, a)) as [h1 a1] eqn:F.
    cbn [snd] in Hdrop. subst a1.
    unfold App.on_frame at 1. cbn [fst snd].
    rewrite (snapshot_frame_is_delivered k raw' data' h1 E' N' T'). cbn [snd].
    rewrite (new_calls_one h1 _ (snd k, data')) by reflexivity.
    reflexivity.
Qed.

End Messages.

(** The text [null] is no message of the channel, whose messages are
    objects.  Were it sent, it would parse, reading its [type] would throw,
    the error would be logged and the handler not called. *)
Lemma null_frame_is_not_delivered :
  Json.parse "null" = Some JNull /\
  control_tag JNull = false /\
  new_calls Scenario.connected
    (snd (ws_onmessage Json.parse (Some "sim-1", 0%nat) "null" Scenario.connected))
    <> [(0%nat, JNull)] /\
  exists h',
    step Json.parse (SockMessage 0 "null") Scenario.connected = Some h' /\
    delivered h' = delivered Scenario.connected.
Proof.
  split; [reflexivity|]. split; [reflexivity|]. split.
  - vm_compute. discriminate.
  - eexists. split; reflexivity.
Qed.


(** *** Reconnection *)

Section Reconnect.

Variable JSON_parse : string -> option json.

(** Lines 60-65: a close event schedules one reconnect, due two seconds
    later, and remembers its handle. *)
Lemma onclose_schedules_one_reconnect (k : closure) (h : hook) :
  falsy (fst k) = false ->
  timeouts (ws_onclose k h) =
    timeouts h ++ [(next_handle h, ((clock h + 2000)%Z, k))] /\
  reconnectTimeoutRef (ws_onclose k h) = Some (next_handle h).
Proof.
  intros F. unfold ws_onclose. rewrite F.
  unfold setIsConnected.
  destruct (mounted h); cbn [stepIntervalRef];
    destruct (stepIntervalRef h); split; reflexivity.
Qed.

(** A timeout fires only when it is due, and time does not pass a timeout
    that is due. *)
Lemma timeout_fires_when_due (t : positive) (h h' : hook) :
  step JSON_parse (FireTimeout t) h = Some h' ->
  exists due k, lookup t (timeouts h) = Some (due, k) /\ (due <= clock h)%Z.
Proof.
  cbn [step]. destruct (lookup t (timeouts h)) as [[due k]|]; [|discriminate].
  destruct (due <=? clock h)%Z eqn:D; [|discriminate].
  intros _. exists due, k. split; [reflexivity | apply Z.leb_le; exact D].
Qed.

Lemma time_stops_at_due_timeout (d : Z) (h h' : hook) :
  step JSON_parse (Elapse d) h = Some h' ->
  forall t due k, In (t, (due, k)) (timeouts h) -> (clock h' <= due)%Z.
Proof.
  cbn [step]. destruct (0 <=? d)%Z; [|discriminate]. cbn [andb].
  unfold none_due_before.
  destruct (forallb (fun e => (clock h + d <=? fst (snd e))%Z) (timeouts h)) eqn:F;
    [|discriminate].
  destruct (forallb _ (intervals h)); [|discriminate].
  intros E t due k Hin. injection E as <-. cbn [clock set_clock].
  rewrite forallb_forall in F. specialize (F _ Hin). cbn in F.
  apply Z.leb_le. exact F.
Qed.

Lemma lookup_drop {A : Type} (t : positive) (l : list (positive * A)) :
  lookup t (drop t l) = None.
Proof.
  induction l as [|[t' a] l IH]; [reflexivity|].
  unfold drop in *. cbn [filter fst].
  destruct (Pos.eqb t' t) eqn:E; cbn [negb]; [exact IH|].
  cbn [lookup]. rewrite E. exact IH.
Qed.

(** Lines 97-100: [disconnect] cancels the reconnect whose handle the hook
    remembers. *)
Lemma disconnect_cancels_remembered_reconnect (t : positive) (h : hook) :
  reconnectTimeoutRef h = Some t ->
  lookup t (timeouts (disconnect h)) = None /\
  reconnectTimeoutRef (disconnect h) = None.
Proof.
  intros R. destruct h; cbn in R; subst.
  unfold disconnect, ws_close, ready_of, setIsConnected.
  destruct stepIntervalRef0 as [s|], wsRef0 as [i|], mounted0; cbn;
    try (destruct (nth_error sockets0 i) as [[mk []]|]; cbn);
    (split; [exact (lookup_drop t timeouts0) | reflexivity]).
Qed.

(** The connected manager of the scenario is the mounted one after its
    socket has opened. *)
Lemma connected_is_reached :
  step JSON_parse (SockOpen 0) Scenario.mounted = Some Scenario.connected.
Proof. reflexivity. Qed.

(** C1 (code defect).  [disconnect()] on a connected manager closes the
    socket, whose close event then runs [ws.onclose] like any other: a
    reconnect is scheduled after the teardown, and two seconds later it
    fires and opens a second socket.  The same happens when the component
    unmounts. *)
Theorem C1_reconnect_fires_after_teardown :
  (exists h,
      run JSON_parse Scenario.teardown_then_wait Scenario.connected = Some h /\
      clock h = 2000%Z /\
      List.length (sockets h) = 2%nat /\
      wsRef h = Some 1%nat /\ ready_of 1 h = Some CONNECTING) /\
  (exists h,
      run JSON_parse Scenario.unmount_then_wait Scenario.connected = Some h /\
      mounted h = false /\
      clock h = 2000%Z /\
      List.length (sockets h) = 2%nat /\
      wsRef h = Some 1%nat /\ ready_of 1 h = Some CONNECTING).
Proof.
  split; eexists; (split; [vm_compute; reflexivity|]); repeat split.
Qed.

End Reconnect.


(** *** The pacing timer *)

Section Pacing.

Variable JSON_parse : string -> option json.

(** What [paced_ok] says. *)
Lemma paced_ok_cases (h : hook) :
  paced_ok h = true ->
  intervals h = [] \/
  exists t due, intervals h = [(t, due)] /\ stepIntervalRef h = Some t /\
    mounted h = true /\ isRunning h = true /\ isConnected h = true.
Proof.
  unfold paced_ok. destruct (intervals h) as [|[t due] [|e rest]]; [auto| |discriminate].
  destruct (stepIntervalRef h) as [t'|]; [|discriminate].
  intros H. repeat (apply andb_prop in H; destruct H as [H ?]).
  apply Pos.eqb_eq in H. subst t'. right. exists t, due. auto.
Qed.

Lemma paced_ok_tracked (h : hook) : paced_ok h = true -> tracked h.
Proof.
  intros H. destruct (paced_ok_cases h H) as [E|(t & due & E & R & _)].
  - left. exact E.
  - right. exists t, due. auto.
Qed.

Lemma idle_paced_ok (h : hook) : idle h -> paced_ok h = true.
Proof. unfold idle, paced_ok. intros ->. reflexivity. Qed.

Lemma same_pacing_refl (h : hook) : same_pacing h h.
Proof. repeat split. Qed.

Lemma same_pacing_trans (h1 h2 h3 : hook) :
  same_pacing h1 h2 -> same_pacing h2 h3 -> same_pacing h1 h3.
Proof.
  unfold same_pacing, same_timer, quiet.
  intros ((A1 & A2 & A3 & A4 & A5) & A6) ((B1 & B2 & B3 & B4 & B5) & B6).
  repeat split; congruence.
Qed.

Lemma same_pacing_ok (h h' : hook) :
  same_pacing h h' -> paced_ok h = true -> paced_ok h' = true.
Proof.
  unfold same_pacing, same_timer, quiet, paced_ok.
  intros ((A1 & A2 & A3 & A4 & A5) & A6).
  rewrite A1, A2, A3, A4, A6. auto.
Qed.

Lemma same_timer_tracked (h h' : hook) :
  same_timer h h' -> tracked h -> tracked h'.
Proof.
  unfold same_timer, tracked. intros (A1 & A2 & _). rewrite A1, A2. auto.
Qed.

Lemma same_timer_idle (h h' : hook) :
  same_timer h h' -> idle h -> idle h'.
Proof.
  unfold same_timer, idle. intros (A1 & _). rewrite A1. auto.
Qed.

Lemma same_timer_quiet (h h' : hook) : same_timer h h' -> quiet h h'.
Proof. intros (_ & _ & Q). exact Q. Qed.

Lemma quiet_trans (h1 h2 h3 : hook) : quiet h1 h2 -> quiet h2 h3 -> quiet h1 h3.
Proof.
  unfold quiet. intros (A1 & A2 & A3) (B1 & B2 & B3). repeat split; congruence.
Qed.

(** Solves [same_pacing h (f h)] for an operation [f] that is a composition
    of setters under case distinctions. *)
Ltac silent :=
  unfold same_pacing, same_timer, quiet;
  repeat match goal with
         | |- context [match ?x with _ => _ end] => destruct x
         | |- context [if ?x then _ else _] => destruct x
         end;
  repeat split.

Lemma ws_close_silent (i : nat) (h : hook) : same_pacing h (ws_close i h).
Proof. unfold ws_close. silent. Qed.

Lemma connect_silent (k : closure) (h : hook) : same_pacing h (connect k h).
Proof. unfold connect, ws_close. silent. Qed.

Lemma manual_connect_silent (h : hook) : same_pacing h (manual_connect h).
Proof.
  unfold manual_connect.
  destruct (reconnectTimeoutRef h);
    (eapply same_pacing_trans; [|apply connect_silent]); repeat split.
Qed.

Lemma onmessage_silent (k : closure) (raw : string) (h : hook) :
  same_pacing h (snd (ws_onmessage JSON_parse k raw h)).
Proof.
  unfold ws_onmessage, try_catch, bind, parse_or_throw, is_control.
  destruct (JSON_parse raw) as [data|]; [|repeat split].
  unfold ret at 1. cbn beta iota.
  destruct (get "type" data) as [| |[ |b|q|s|l|m]]; try solve [repeat split].
  cbn. destruct (String.eqb s "ping" || String.eqb s "pong"); repeat split.
Qed.

Lemma connection_effect_silent (k : closure) (h : hook) :
  same_pacing h (connection_effect k h).
Proof.
  unfold connection_effect. destruct (falsy (fst k));
    [apply same_pacing_refl | apply connect_silent].
Qed.

(** *** The operations that touch the pacing timer *)

Lemma drop_single {A : Type} (t : positive) (a : A) : drop t [(t, a)] = [].
Proof. unfold drop. cbn. rewrite Pos.eqb_refl. reflexivity. Qed.

(** Clearing the remembered interval of a tracked hook leaves none. *)
Lemma clear_remembered (h : hook) :
  tracked h ->
  match stepIntervalRef h with
  | Some t => drop t (intervals h)
  | None => intervals h
  end = [].
Proof.
  intros [E|(t & due & E & R)]; rewrite E.
  - destruct (stepIntervalRef h); reflexivity.
  - rewrite R. apply drop_single.
Qed.

Lemma step_cleanup_idle (h : hook) :
  tracked h ->
  idle (step_cleanup h) /\ quiet h (step_cleanup h) /\
  isConnected (step_cleanup h) = isConnected h /\
  stepIntervalRef (step_cleanup h) = stepIntervalRef h.
Proof.
  intros T. pose proof (clear_remembered h T) as C.
  unfold step_cleanup, idle, quiet.
  destruct (stepIntervalRef h) eqn:R; cbn; rewrite ?R; auto 10.
Qed.

Lemma disconnect_idle (h : hook) :
  tracked h -> idle (disconnect h) /\ quiet h (disconnect h).
Proof.
  intros T. pose proof (clear_remembered h T) as C.
  destruct h. unfold disconnect, ws_close, ready_of, setIsConnected, idle, quiet.
  cbn in *.
  destruct reconnectTimeoutRef0, stepIntervalRef0, wsRef0 as [i|]; cbn;
    try (destruct (nth_error sockets0 i) as [[mk []]|]; cbn);
    try (destruct mounted0; cbn); auto.
Qed.

Lemma connection_cleanup_cases (k : closure) (h : hook) :
  tracked h ->
  same_pacing h (connection_cleanup k h) \/
  (idle (connection_cleanup k h) /\ quiet h (connection_cleanup k h)).
Proof.
  intros T. unfold connection_cleanup. destruct (falsy (fst k)).
  - left. destruct (reconnectTimeoutRef h); repeat split.
  - right. apply disconnect_idle. exact T.
Qed.

Lemma step_effect_on_idle (r c : bool) (h : hook) :
  idle h ->
  quiet h (step_effect r c h) /\
  isConnected (step_effect r c h) = isConnected h /\
  if r && c
  then intervals (step_effect r c h) = [(next_handle h, (clock h + 100)%Z)] /\
       stepIntervalRef (step_effect r c h) = Some (next_handle h)
  else idle (step_effect r c h).
Proof.
  unfold idle, step_effect, quiet. intros I.
  destruct (r && c); cbn.
  - rewrite I. auto 10.
  - destruct (stepIntervalRef h); cbn; rewrite I; auto 10.
Qed.

Lemma onclose_idle (k : closure) (h : hook) :
  tracked h -> idle (ws_onclose k h) /\ quiet h (ws_onclose k h).
Proof.
  intros T. pose proof (clear_remembered h T) as C.
  destruct h. unfold ws_onclose, setIsConnected, idle, quiet. cbn in *.
  destruct mounted0, stepIntervalRef0, (falsy (fst k)); cbn; auto.
Qed.

Lemma setIsConnected_timer (v : bool) (h : hook) : same_timer h (setIsConnected v h).
Proof.
  unfold setIsConnected, same_timer, quiet.
  destruct (mounted h) eqn:M; cbn; rewrite ?M; auto 10.
Qed.

Lemma setError_silent (v : option string) (h : hook) : same_pacing h (setError v h).
Proof.
  unfold setError, same_pacing, same_timer, quiet.
  destruct (mounted h) eqn:M; cbn; rewrite ?M; auto 10.
Qed.

Lemma onopen_timer (h : hook) : same_timer h (ws_onopen h).
Proof.
  unfold ws_onopen, setError, setIsConnected, same_timer, quiet.
  destruct (mounted h) eqn:M; cbn; rewrite ?M; cbn; rewrite ?M; auto 10.
Qed.

Lemma onerror_timer (h : hook) : same_timer h (ws_onerror h).
Proof.
  unfold ws_onerror, setError, setIsConnected, same_timer, quiet.
  destruct (mounted h) eqn:M; cbn; rewrite ?M; cbn; rewrite ?M; auto 10.
Qed.

(** The render that follows a change of [isConnected] puts the timer in
    order. *)
Lemma settle_ok (c0 : bool) (h : hook) :
  tracked h ->
  (mounted h && negb (Bool.eqb c0 (isConnected h)) = false -> paced_ok h = true) ->
  paced_ok (settle c0 h) = true /\ quiet h (settle c0 h) /\
  (idle h -> isRunning h = false -> idle (settle c0 h)).
Proof.
  intros T P. unfold settle.
  destruct (mounted h && negb (Bool.eqb c0 (isConnected h))) eqn:D.
  - apply andb_prop in D. destruct D as [M _].
    destruct (step_cleanup_idle h T) as (I & Q & C & _).
    destruct (step_effect_on_idle (isRunning h) (isConnected h) (step_cleanup h) I)
      as (Q' & C' & E).
    split; [|split].
    + unfold paced_ok. destruct Q as (Q1 & Q2 & Q3). destruct Q' as (Q1' & Q2' & Q3').
      destruct (isRunning h && isConnected h) eqn:RC.
      * destruct E as (E1 & E2). rewrite E1, E2, Pos.eqb_refl, Q1', Q2', C', Q1, Q2, C, M.
        apply andb_prop in RC. destruct RC as [-> ->]. reflexivity.
      * unfold idle in E. rewrite E. reflexivity.
    + eapply quiet_trans; eassumption.
    + intros _ R. rewrite R in E |- *. exact E.
  - split; [auto|]. split; [repeat split | auto].
Qed.


Lemma tracked_of_same_fields (h h' : hook) :
  intervals h' = intervals h -> stepIntervalRef h' = stepIntervalRef h ->
  tracked h -> tracked h'.
Proof. unfold tracked. intros -> ->. auto. Qed.

(** What a render leaves behind, before the render that may follow it:
    the timer is tracked; it is in order if [isConnected] was not changed;
    and no interval is left if the render is a paused one. *)
Lemma render_before_settle (sim : option string) (handler : nat)
    (running : bool) (h : hook) :
  paced_ok h = true -> mounted h = true ->
  let old := (simId h, onMessage h) in
  let new := (sim, handler) in
  let d1 := negb (Bool.eqb running (isRunning h)) in
  let d2 := negb (closure_eqb old new) in
  let h5 :=
    when d2 (connection_effect new)
      (when d1 (step_effect running (isConnected h))
         (when d2 (connection_cleanup old)
            (when d1 step_cleanup (set_props sim handler running h)))) in
  tracked h5 /\
  mounted h5 = true /\ isRunning h5 = running /\ sent h5 = sent h /\
  (isConnected h5 = isConnected h -> paced_ok h5 = true) /\
  (running = false -> idle h5).
Proof.
  intros P M old new d1 d2 h5.
  pose proof (paced_ok_tracked h P) as T.
  set (h1 := set_props sim handler running h) in *.
  assert (T1 : tracked h1) by (apply (tracked_of_same_fields h); auto).
  assert (M1 : mounted h1 = true) by exact M.
  assert (R1 : isRunning h1 = running) by reflexivity.
  assert (S1 : sent h1 = sent h) by reflexivity.
  assert (C1 : isConnected h1 = isConnected h) by reflexivity.
  assert (P1 : isRunning h = running -> paced_ok h1 = true).
  { intros <-. exact P. }
  clearbody h1.
  set (h2 := when d1 step_cleanup h1) in *.
  set (h3 := when d2 (connection_cleanup old) h2) in *.
  set (h4 := when d1 (step_effect running (isConnected h)) h3) in *.
  (* h2 *)
  assert (F2 : tracked h2 /\ mounted h2 = true /\ isRunning h2 = running /\
               sent h2 = sent h /\ isConnected h2 = isConnected h /\
               (d1 = true -> idle h2) /\ (d1 = false -> paced_ok h2 = true)).
  { subst h2. unfold when. destruct d1 eqn:D1.
    - destruct (step_cleanup_idle h1 T1) as (I & (Q1 & Q2 & Q3) & C & _).
      repeat split; try congruence; auto.
      left. exact I.
    - repeat split; auto; try discriminate.
      intros _. subst d1. apply negb_false_iff, eqb_prop in D1.
      apply P1. congruence. }
  destruct F2 as (T2 & M2 & R2 & S2 & C2 & I2 & P2).
  (* h3 *)
  assert (F3 : tracked h3 /\ mounted h3 = true /\ isRunning h3 = running /\
               sent h3 = sent h /\
               (d1 = true -> idle h3) /\
               (d1 = false -> paced_ok h3 = true) /\
               (isConnected h3 = isConnected h \/ idle h3)).
  { subst h3. unfold when. destruct d2.
    - destruct (connection_cleanup_cases old h2 T2)
        as [((A1 & A2 & A3 & A4 & A5) & A6) | (I & (Q1 & Q2 & Q3))].
      + repeat split; try congruence.
        * apply (tracked_of_same_fields h2); auto.
        * intros D. unfold idle in *. rewrite A1. auto.
        * intros D. apply (same_pacing_ok h2); [repeat split; auto | auto].
        * left. congruence.
      + repeat split; try congruence; auto.
        * left. exact I.
        * intros _. apply idle_paced_ok. exact I.
    - repeat split; auto. }
  destruct F3 as (T3 & M3 & R3 & S3 & I3 & P3 & C3).
  (* h4 *)
  assert (F4 : tracked h4 /\ mounted h4 = true /\ isRunning h4 = running /\
               sent h4 = sent h /\
               (isConnected h4 = isConnected h -> paced_ok h4 = true) /\
               (running = false -> idle h4)).
  { subst h4. unfold when. destruct d1 eqn:D1.
    - destruct (step_effect_on_idle running (isConnected h) h3 (I3 eq_refl))
        as ((Q1 & Q2 & Q3) & C & E).
      destruct (running && isConnected h) eqn:RC.
      + destruct E as (E1 & E2).
        repeat split; try congruence.
        * right. eauto.
        * intros Hc. unfold paced_ok. rewrite E1, E2, Pos.eqb_refl.
          apply andb_prop in RC. destruct RC as [Rr Rc].
          rewrite Q1, M3, Q2, R3, Hc, Rr, Rc. reflexivity.
        * intros Rf. rewrite Rf in RC. discriminate RC.
      + repeat split; try congruence; auto.
        * left. exact E.
        * intros _. apply idle_paced_ok. exact E.
    - repeat split; auto.
      intros Rf. destruct C3 as [C3|C3]; [|exact C3].
      specialize (P3 eq_refl).
      destruct (paced_ok_cases h3 P3) as [E|(t & due & _ & _ & _ & Rt & _)];
        [exact E | congruence]. }
  destruct F4 as (T4 & M4 & R4 & S4 & P4 & I4).
  (* h5 *)
  subst h5. unfold when. destruct d2; [|repeat split; auto].
  destruct (connection_effect_silent new h4) as ((A1 & A2 & A3 & A4 & A5) & A6).
  repeat split; try congruence.
  - apply (tracked_of_same_fields h4); auto.
  - intros Hc. apply (same_pacing_ok h4); [repeat split; auto|].
    apply P4. congruence.
  - intros Rf. unfold idle in *. rewrite A1. auto.
Qed.

(** A render keeps the pacing timer in order. *)
Lemma render_ok (sim : option string) (handler : nat) (running : bool) (h : hook) :
  paced_ok h = true -> mounted h = true ->
  paced_ok (render sim handler running h) = true /\
  sent (render sim handler running h) = sent h /\
  isRunning (render sim handler running h) = running /\
  (running = false -> idle (render sim handler running h)).
Proof.
  intros P M.
  destruct (render_before_settle sim handler running h P M)
    as (T5 & M5 & R5 & S5 & P5 & I5).
  unfold render. cbv zeta.
  match goal with
  | |- paced_ok (settle ?c ?x) = true /\ _ => set (h5 := x) in *
  end.
  destruct (settle_ok (isConnected h) h5 T5) as (Ps & (Q1 & Q2 & Q3) & Is).
  { rewrite M5. cbn [andb]. intros D. apply negb_false_iff, eqb_prop in D.
    apply P5. congruence. }
  repeat split; try congruence.
  intros Rf. apply Is; [auto | congruence].
Qed.


Lemma sendStep_timer (h : hook) :
  intervals (sendStep h) = intervals h /\
  stepIntervalRef (sendStep h) = stepIntervalRef h /\
  mounted (sendStep h) = mounted h /\ isRunning (sendStep h) = isRunning h /\
  isConnected (sendStep h) = isConnected h.
Proof.
  unfold sendStep. destruct (wsRef h) as [i|]; [|auto 10].
  destruct (ready_of i h) as [[]|]; auto 10.
Qed.

Lemma paused_is_idle (h : hook) :
  paced_ok h = true -> isRunning h = false -> idle h.
Proof.
  intros P R. destruct (paced_ok_cases h P) as [E|(t & due & _ & _ & _ & Rt & _)];
    [exact E | congruence].
Qed.

Lemma unmounted_is_idle (h : hook) :
  paced_ok h = true -> mounted h = false -> idle h.
Proof.
  intros P R. destruct (paced_ok_cases h P) as [E|(t & due & _ & _ & Rt & _)];
    [exact E | congruence].
Qed.

(** What an event handler leaves behind is settled into order, whether the
    handler left the timer alone or cleared it. *)
Lemma settled_handler_ok (h h1 : hook) :
  paced_ok h = true ->
  (same_timer h h1 \/ (idle h1 /\ quiet h h1)) ->
  paced_ok (settle (isConnected h) h1) = true /\
  (isRunning h = false ->
   isRunning (settle (isConnected h) h1) = false /\
   idle (settle (isConnected h) h1) /\
   sent (settle (isConnected h) h1) = sent h).
Proof.
  intros P H.
  assert (T1 : tracked h1).
  { destruct H as [H|[I _]]; [|left; exact I].
    apply (same_timer_tracked h); [exact H | apply paced_ok_tracked; exact P]. }
  assert (Q : quiet h h1).
  { destruct H as [H|[_ Q]]; [apply same_timer_quiet; exact H | exact Q]. }
  assert (I1 : isRunning h = false -> idle h1).
  { intros R. destruct H as [H|[I _]]; [|exact I].
    apply (same_timer_idle h); [exact H | apply paused_is_idle; auto]. }
  destruct (settle_ok (isConnected h) h1 T1) as (Ps & Qs & Is).
  { intros D. destruct H as [H|[I _]]; [|apply idle_paced_ok; exact I].
    apply andb_false_iff in D. destruct D as [D|D].
    - apply idle_paced_ok. apply (same_timer_idle h); [exact H|].
      apply unmounted_is_idle; [exact P|]. destruct Q as (Q1 & _). congruence.
    - apply negb_false_iff, eqb_prop in D.
      apply (same_pacing_ok h); [split; [exact H | congruence] | exact P]. }
  split; [exact Ps|]. intros R.
  destruct (quiet_trans _ _ _ Q Qs) as (A1 & A2 & A3).
  repeat split; try congruence.
  apply Is; [auto | destruct Q as (_ & Q2 & _); congruence].
Qed.

(** Every event keeps the pacing timer in order, and while the hook is
    paused no event but a render that sets it running, or a request by
    hand, sends a frame or starts the timer. *)
Lemma step_keeps_order (e : event) (h h' : hook) :
  paced_ok h = true -> step JSON_parse e h = Some h' ->
  paced_ok h' = true /\
  (keeps_paused e = true -> isRunning h = false ->
   isRunning h' = false /\ idle h' /\ sent h' = sent h).
Proof.
  intros P S. destruct e as [sim handler running| | | | |i|i raw|i|i|d|t|t];
    cbn [step keeps_paused] in *.
  - (* Render *)
    destruct (mounted h) eqn:M; [|discriminate]. injection S as <-.
    destruct (render_ok sim handler running h P M) as (P' & S' & R' & I').
    split; [exact P'|]. intros K _. apply negb_true_iff in K.
    repeat split; auto; congruence.
  - (* Unmount *)
    destruct (mounted h) eqn:M; [|discriminate]. injection S as <-.
    unfold unmount.
    destruct (step_cleanup_idle h (paced_ok_tracked h P)) as (I & Q & C & _).
    assert (I' : idle (connection_cleanup (simId h, onMessage h) (step_cleanup h)) /\
                 quiet (step_cleanup h)
                   (connection_cleanup (simId h, onMessage h) (step_cleanup h))).
    { destruct (connection_cleanup_cases (simId h, onMessage h) (step_cleanup h))
        as [(A & _)|A]; [left; exact I| |exact A].
      split; [apply (same_timer_idle (step_cleanup h)); auto
             | apply same_timer_quiet; exact A]. }
    destruct I' as (I' & Q'). destruct (quiet_trans _ _ _ Q Q') as (A1 & A2 & A3).
    split; [apply idle_paced_ok; exact I'|].
    intros _ R. repeat split; cbn; try congruence. exact I'.
  - (* CallSendStep *)
    injection S as <-. split; [|discriminate].
    destruct (sendStep_timer h) as (A1 & A2 & A3 & A4 & A5).
    unfold paced_ok in *. rewrite A1, A2, A3, A4, A5. exact P.
  - (* CallDisconnect *)
    injection S as <-. refine (let X := settled_handler_ok h _ P _ in conj (proj1 X) (fun _ => proj2 X)).
    right. apply disconnect_idle. apply paced_ok_tracked. exact P.
  - (* CallConnect *)
    injection S as <-. destruct (manual_connect_silent h) as ((A1 & A2 & A3 & A4 & A5) & A6).
    split.
    + apply (same_pacing_ok h); [repeat split; auto | exact P].
    + intros _ R. repeat split; try congruence.
      unfold idle. rewrite A1. apply paused_is_idle; auto.
  - (* SockOpen *)
    destruct (ready_of i h) as [[]|]; try discriminate. injection S as <-.
    refine (let X := settled_handler_ok h _ P _ in conj (proj1 X) (fun _ => proj2 X)). left.
    destruct (onopen_timer (set_ready i OPEN h)) as (A1 & A2 & A3 & A4 & A5).
    repeat split; assumption.
  - (* SockMessage *)
    destruct (nth_error (sockets h) i) as [ws|]; [|discriminate].
    destruct (ready ws); try discriminate. injection S as <-.
    destruct (onmessage_silent (made_by ws) raw h) as ((A1 & A2 & A3 & A4 & A5) & A6).
    split.
    + apply (same_pacing_ok h); [repeat split; auto | exact P].
    + intros _ R. repeat split; try congruence.
      unfold idle. rewrite A1. apply paused_is_idle; auto.
  - (* SockFail *)
    destruct (nth_error (sockets h) i) as [ws|]; [|discriminate].
    assert (E : h' = settle (isConnected h)
                  (ws_onclose (made_by ws) (ws_onerror (set_ready i CLOSED h)))).
    { destruct (ready ws); try discriminate; injection S as <-; reflexivity. }
    subst h'. refine (let X := settled_handler_ok h _ P _ in conj (proj1 X) (fun _ => proj2 X)). right.
    destruct (onerror_timer (set_ready i CLOSED h)) as (A1 & A2 & A3 & A4 & A5).
    destruct (onclose_idle (made_by ws) (ws_onerror (set_ready i CLOSED h)))
      as (I & B1 & B2 & B3).
    { apply (tracked_of_same_fields h); auto. apply paced_ok_tracked. exact P. }
    cbn [set_ready set_sockets mounted isRunning sent] in A3, A4, A5.
    split; [exact I|]. repeat split; congruence.
  - (* SockClose *)
    destruct (nth_error (sockets h) i) as [ws|]; [|discriminate].
    assert (E : h' = settle (isConnected h)
                  (ws_onclose (made_by ws) (set_ready i CLOSED h))).
    { destruct (ready ws); try discriminate; injection S as <-; reflexivity. }
    subst h'. refine (let X := settled_handler_ok h _ P _ in conj (proj1 X) (fun _ => proj2 X)). right.
    destruct (onclose_idle (made_by ws) (set_ready i CLOSED h)) as (I & B1 & B2 & B3).
    { apply (tracked_of_same_fields h); auto. apply paced_ok_tracked. exact P. }
    split; [exact I|]. repeat split; assumption.
  - (* Elapse *)
    destruct ((0 <=? d)%Z && none_due_before (clock h + d) h); [|discriminate].
    injection S as <-. split; [exact P|].
    intros _ R. repeat split; auto. apply (paused_is_idle h P R).
  - (* FireTimeout *)
    destruct (lookup t (timeouts h)) as [[due k]|]; [|discriminate].
    destruct (due <=? clock h)%Z; [|discriminate]. injection S as <-.
    pose proof (connect_silent k (set_timeouts (drop t (timeouts h)) h)) as A.
    split.
    + eapply same_pacing_ok; [exact A | exact P].
    + destruct A as ((A1 & A2 & A3 & A4 & A5) & A6).
      intros _ R. split; [|split].
      * rewrite A4. exact R.
      * unfold idle. rewrite A1. apply (paused_is_idle h P R).
      * exact A5.
  - (* FireInterval *)
    destruct (lookup t (intervals h)) as [due|] eqn:L; [|discriminate].
    destruct (due <=? clock h)%Z; [|discriminate]. injection S as <-.
    destruct (paced_ok_cases h P) as [E|(t0 & due0 & E & Rf & M & R & C)].
    { rewrite E in L. discriminate L. }
    rewrite E in L. cbn in L. destruct (Pos.eqb t0 t) eqn:Et; [|discriminate].
    injection L as ->. apply Pos.eqb_eq in Et. subst t0.
    split.
    + destruct (sendStep_timer
                  (set_intervals
                     (map (fun e => if Pos.eqb (fst e) t then (t, (due + 100)%Z) else e)
                          (intervals h)) h)) as (A1 & A2 & A3 & A4 & A5).
      unfold paced_ok. rewrite A1, A2, A3, A4, A5. cbn. rewrite E. cbn.
      rewrite Pos.eqb_refl, Rf, Pos.eqb_refl, M, R, C. reflexivity.
    + intros _ R'. congruence.
Qed.


(** A run of events keeps the timer in order. *)
Lemma run_keeps_order (es : list event) (h h' : hook) :
  paced_ok h = true -> run JSON_parse es h = Some h' -> paced_ok h' = true.
Proof.
  revert h. induction es as [|e es IH]; intros h P R; cbn in R.
  - injection R as <-. exact P.
  - destruct (step JSON_parse e h) as [h1|] eqn:S; [|discriminate].
    apply (IH h1); [|exact R]. apply (step_keeps_order e h h1 P S).
Qed.

(** While paused, a run without a render that sets the hook running and
    without a request by hand sends nothing and starts no timer. *)
Lemma run_paused (es : list event) (h h' : hook) :
  paced_ok h = true -> isRunning h = false ->
  forallb keeps_paused es = true -> run JSON_parse es h = Some h' ->
  isRunning h' = false /\ idle h' /\ sent h' = sent h.
Proof.
  revert h. induction es as [|e es IH]; intros h P R K S; cbn in S, K.
  - injection S as <-. repeat split; auto. apply paused_is_idle; auto.
  - destruct (step JSON_parse e h) as [h1|] eqn:S1; [|discriminate].
    apply andb_prop in K. destruct K as [K1 K2].
    destruct (step_keeps_order e h h1 P S1) as (P1 & Q).
    destruct (Q K1 R) as (R1 & I1 & E1).
    destruct (IH h1 P1 R1 K2 S) as (R' & I' & E').
    repeat split; auto. congruence.
Qed.

(** The hook is in order when it mounts. *)
Lemma mount_ok (now : Z) (sim : option string) (handler : nat) (running : bool) :
  paced_ok (mount now sim handler running) = true.
Proof.
  unfold mount. eapply same_pacing_ok; [apply connection_effect_silent|].
  unfold step_effect. rewrite andb_false_r. reflexivity.
Qed.

(** *** The beat *)

Lemma closure_eqb_refl (k : closure) : closure_eqb k k = true.
Proof.
  unfold closure_eqb. destruct (fst k) as [s|];
    rewrite ?String.eqb_refl, Nat.eqb_refl; reflexivity.
Qed.

(** Setting a connected, paused hook running starts one interval, first due
    100 ms later, and changes nothing else the beat depends on. *)
Lemma render_starts_timer (h : hook) :
  paced_ok h = true ->
  mounted h = true -> isRunning h = false -> isConnected h = true ->
  let h1 := render (simId h) (onMessage h) true h in
  intervals h1 = [(next_handle h, (clock h + 100)%Z)] /\
  clock h1 = clock h /\ timeouts h1 = timeouts h /\ wsRef h1 = wsRef h /\
  sockets h1 = sockets h /\ sent h1 = sent h.
Proof.
  intros P M R C. pose proof (paused_is_idle h P R) as I.
  unfold render. cbv zeta. rewrite closure_eqb_refl, R, C.
  destruct h. unfold idle in I. cbn in *. subst.
  unfold when, settle, step_cleanup, step_effect. cbn.
  destruct stepIntervalRef0; cbn; auto 10.
Qed.

(** One period: 100 ms pass, the interval fires, one frame goes out on the
    open socket, and the interval is due 100 ms later again. *)
Lemma one_period (t : positive) (i : nat) (h : hook) :
  intervals h = [(t, (clock h + 100)%Z)] -> timeouts h = [] ->
  wsRef h = Some i -> ready_of i h = Some OPEN ->
  run JSON_parse [Elapse 100; FireInterval t] h =
    Some (set_sent (sent h ++ [(i, (clock h + 100)%Z)])
            (set_intervals [(t, (clock h + 100 + 100)%Z)]
               (set_clock (clock h + 100) h))).
Proof.
  intros I T W O.
  assert (E1 : step JSON_parse (Elapse 100) h = Some (set_clock (clock h + 100) h)).
  { cbn [step]. unfold none_due_before. rewrite I, T. cbn [forallb fst snd].
    rewrite Z.leb_refl. reflexivity. }
  assert (E2 : step JSON_parse (FireInterval t) (set_clock (clock h + 100) h) =
               Some (set_sent (sent h ++ [(i, (clock h + 100)%Z)])
                       (set_intervals [(t, (clock h + 100 + 100)%Z)]
                          (set_clock (clock h + 100) h)))).
  { cbn [step intervals set_clock clock]. rewrite I. cbn [lookup].
    rewrite Pos.eqb_refl, Z.leb_refl. cbn [map fst]. rewrite Pos.eqb_refl.
    unfold sendStep. cbn [wsRef set_intervals set_clock]. rewrite W.
    change (ready_of i (set_intervals [(t, (clock h + 100 + 100)%Z)]
                          (set_clock (clock h + 100) h)))
      with (ready_of i h).
    rewrite O. reflexivity. }
  cbn [run]. rewrite E1, E2. reflexivity.
Qed.

Lemma pace_beats (t : positive) (i : nat) (k : nat) :
  forall h : hook,
    intervals h = [(t, (clock h + 100)%Z)] -> timeouts h = [] ->
    wsRef h = Some i -> ready_of i h = Some OPEN ->
    exists h',
      run JSON_parse (pace t k) h = Some h' /\
      sent h' = sent h ++ beats i (clock h) k /\
      clock h' = (clock h + 100 * Z.of_nat k)%Z /\
      intervals h' = [(t, (clock h' + 100)%Z)].
Proof.
  induction k as [|k IH]; intros h I T W O.
  - exists h. cbn. rewrite app_nil_r, Z.add_0_r. auto.
  - pose proof (one_period t i h I T W O) as E.
    set (h1 := set_sent (sent h ++ [(i, (clock h + 100)%Z)])
                 (set_intervals [(t, (clock h + 100 + 100)%Z)]
                    (set_clock (clock h + 100) h))) in *.
    destruct (IH h1) as (h' & R & S & C & I'); try reflexivity; try assumption.
    exists h'. split; [|split; [|split]].
    + cbn [pace run] in *.
      destruct (step JSON_parse (Elapse 100) h) as [ha|]; [|discriminate].
      destruct (step JSON_parse (FireInterval t) ha) as [hb|]; [|discriminate].
      injection E as ->. exact R.
    + rewrite S. cbn [beats]. subst h1. cbn [sent set_sent clock set_intervals set_clock].
      rewrite <- app_assoc. reflexivity.
    + rewrite C. subst h1. cbn [clock set_sent set_intervals set_clock]. lia.
    + exact I'.
Qed.

(** Without an open socket [sendStep] does nothing. *)
Lemma sendStep_closed (h : hook) : channel_open h = false -> sendStep h = h.
Proof.
  unfold channel_open, sendStep. destruct (wsRef h) as [i|]; [|reflexivity].
  destruct (ready_of i h) as [[]|]; try reflexivity. discriminate.
Qed.


(** What holds of the pacing when the render that sets the flag keeps the
    simulation id and the identity of the handler.  From a state with the
    pacing timer in order:
    - when the running flag becomes true while the manager is connected (flag
      set, socket open, no reconnect pending), an interval starts, and [k]
      periods of 100 ms send exactly [k] step frames on the socket, 100 ms
      apart, none of them early;
    - when the running flag becomes false, the interval is gone with the
      render that carries the flag, and whatever happens next (short of
      setting the flag again or stepping by hand) no frame is sent and no
      interval can fire, the one that was pending included;
    - while [isConnected] is false no interval exists, and while the socket
      is not open neither the timer nor a call of [sendStep] sends a frame. *)
Theorem advance_signal_is_paced_under_stable_handler (h : hook) :
  paced_ok h = true ->
  (forall i : nat,
      mounted h = true -> isRunning h = false -> isConnected h = true ->
      wsRef h = Some i -> ready_of i h = Some OPEN -> timeouts h = [] ->
      forall k : nat, exists h',
        run JSON_parse
            (Render (simId h) (onMessage h) true :: pace (next_handle h) k) h
          = Some h' /\
        sent h' = sent h ++ beats i (clock h) k /\
        clock h' = (clock h + 100 * Z.of_nat k)%Z /\
        (forall d h'', (0 <= d < 100)%Z ->
           step JSON_parse (Elapse d) h' = Some h'' ->
           step JSON_parse (FireInterval (next_handle h)) h'' = None)) /\
  (forall (sim : option string) (handler : nat),
      mounted h = true ->
      let h1 := render sim handler false h in
      sent h1 = sent h /\ intervals h1 = [] /\
      forall es h2,
        forallb keeps_paused es = true -> run JSON_parse es h1 = Some h2 ->
        sent h2 = sent h /\ intervals h2 = [] /\
        forall t, step JSON_parse (FireInterval t) h2 = None) /\
  (isConnected h = false -> intervals h = []) /\
  (channel_open h = false ->
     sendStep h = h /\
     forall t h', step JSON_parse (FireInterval t) h = Some h' -> sent h' = sent h).
Proof.
  intros P. split; [|split; [|split]].
  - intros i M R C W O T k.
    destruct (render_starts_timer h P M R C) as (I1 & C1 & T1 & W1 & S1 & E1).
    set (h1 := render (simId h) (onMessage h) true h) in *.
    destruct (pace_beats (next_handle h) i k h1) as (h' & Rn & Sn & Cn & In).
    + rewrite I1, C1. reflexivity.
    + congruence.
    + congruence.
    + unfold ready_of. rewrite S1. exact O.
    + exists h'. split; [|split; [|split]].
      * cbn [run step]. rewrite M. exact Rn.
      * rewrite Sn, E1, C1. reflexivity.
      * rewrite Cn, C1. reflexivity.
      * intros d h'' D Sd. cbn [step] in Sd.
        destruct ((0 <=? d)%Z && none_due_before (clock h' + d) h'); [|discriminate].
        injection Sd as <-. cbn [step intervals set_clock clock]. rewrite In.
        cbn [lookup]. rewrite Pos.eqb_refl.
        destruct (clock h' + 100 <=? clock h' + d)%Z eqn:L; [|reflexivity].
        apply Z.leb_le in L. lia.
  - intros sim handler M h1.
    destruct (render_ok sim handler false h P M) as (P1 & S1 & R1 & I1).
    split; [exact S1|]. split; [exact (I1 eq_refl)|].
    intros es h2 K Rn.
    destruct (run_paused es h1 h2 P1 R1 K Rn) as (R2 & I2 & S2).
    split; [rewrite S2; exact S1|]. split; [exact I2|].
    intros t. cbn [step]. unfold idle in I2. rewrite I2. reflexivity.
  - intros C. destruct (paced_ok_cases h P) as [E|(t & due & _ & _ & _ & _ & Ct)];
      [exact E | congruence].
  - intros O. split; [apply sendStep_closed; exact O|].
    intros t h' S. cbn [step] in S.
    destruct (lookup t (intervals h)) as [due|]; [|discriminate].
    destruct (due <=? clock h)%Z; [|discriminate]. injection S as <-.
    rewrite sendStep_closed; [reflexivity|exact O].
Qed.

End Pacing.

(** The manager of the scenario, connected and then set running by a render
    that keeps the handler, sends three frames in 300 ms. *)
Lemma three_beats_under_stable_handler :
  paced_ok Scenario.connected = true /\
  exists h',
    run Json.parse
        (Render (Some "sim-1") 0 true :: pace 1 3) Scenario.connected = Some h' /\
    sent h' = [(0%nat, 100%Z); (0%nat, 200%Z); (0%nat, 300%Z)] /\
    clock h' = 300%Z.
Proof.
  split; [reflexivity|].
  destruct (proj1 (advance_signal_is_paced_under_stable_handler Json.parse
                     Scenario.connected eq_refl)
              0%nat eq_refl eq_refl eq_refl eq_refl eq_refl eq_refl 3%nat)
    as (h' & R & S & C & _).
  exists h'. split; [exact R|]. split; [exact S | exact C].
Defined.

(** C3 on the snapshot frame of the scenario. *)
Lemma C3_for_the_snapshot_frame :
  Json.parse Scenario.snapshot_frame = Some Scenario.snapshot_value /\
  new_calls Scenario.connected
    (snd (ws_onmessage Json.parse (Some "sim-1", 0%nat) Scenario.snapshot_frame
            Scenario.connected)) =
  [(0%nat, Scenario.snapshot_value)].
Proof.
  split; [reflexivity|].
  refine (proj1 (proj2 (C3_frames_reach_handler_unless_control Json.parse))
            (Some "sim-1", 0%nat) Scenario.snapshot_frame Scenario.snapshot_value
            Scenario.connected eq_refl _ eq_refl).
  discriminate.
Defined.

(** C8 on a frame cut short. *)
Lemma C8_for_a_truncated_frame :
  Json.parse "{oops" = None /\
  snd (App.on_frame Json.parse (Some "sim-1", 0%nat) "{oops"
         (Scenario.connected, Scenario.session)) = Scenario.session.
Proof.
  split; [reflexivity|].
  pose proof (C8_unparsable_frame_is_dropped Json.parse (Some "sim-1", 0%nat)
                "{oops" Scenario.connected Scenario.session eq_refl)
    as (_ & _ & _ & H & _).
  exact H.
Defined.

(** The orchestrator hands the hook a new handler at every render (App.jsx,
    lines 18-26), so the connection effect runs again: setting the manager
    of the scenario running with a handler of another identity closes the
    socket it had and opens another, and no interval is left. *)
Lemma render_with_new_handler_reconnects :
  exists h',
    step Json.parse (Render (Some "sim-1") 1 true) Scenario.connected = Some h' /\
    ready_of 0 h' = Some CLOSING /\ ready_of 1 h' = Some CONNECTING /\
    isConnected h' = false /\ intervals h' = [].
Proof.
  eexists. split; [vm_compute; reflexivity|]. repeat split.
Qed.

End HookFacts.

(* ===================================================================== *)
(** ** Facts about the orchestrator                                       *)
(* ===================================================================== *)

Module AppFacts.
Import Json App.

(** C9 (as amended).  A manual advance while a simulation identifier is held:
    connected, it calls the hook's [sendStep] and makes no request; not
    connected, it asks the control client to advance by 10 steps and, when
    that request succeeds, fetches the snapshot once; when the fetch
    succeeds, its result replaces the held state.  When either request
    fails the error is logged, nothing more is requested and the held state
    stays.  Without an identifier nothing happens. *)
Theorem C9_manual_advance_strategy (a : app) (connected : bool)
    (stepped : response unit) (fetched : response json) :
  (falsy (simulationId a) = true ->
     handleStep connected stepped fetched a = (a, [])) /\
  (forall id : string,
     simulationId a = Some id -> id <> EmptyString ->
     handleStep true stepped fetched a = (a, [SendStep]) /\
     (exists rest,
        snd (handleStep false stepped fetched a) = StepSimulation id 10 :: rest /\
        filter is_control_call rest = filter is_fetch rest) /\
     (stepped = Rejected ->
        handleStep false stepped fetched a = (a, [StepSimulation id 10; ConsoleError])) /\
     (stepped <> Rejected ->
        filter is_fetch (snd (handleStep false stepped fetched a)) =
          [GetSimulationState id] /\
        (forall data, fetched = Resolved data ->
           handleStep false stepped fetched a =
             (mkApp (simulationId a) data (metrics a) (historicalMetrics a)
                    (isRunning a),
              [StepSimulation id 10; GetSimulationState id])) /\
        (fetched = Rejected ->
           handleStep false stepped fetched a =
             (a, [StepSimulation id 10; GetSimulationState id; ConsoleError])))).
Proof.
  split.
  - unfold falsy, handleStep. destruct (simulationId a) as [id|]; [|reflexivity].
    intros ->. reflexivity.
  - intros id E N. unfold handleStep. rewrite E.
    destruct (String.eqb id EmptyString) eqn:D; [apply String.eqb_eq in D; contradiction|].
    split; [reflexivity|]. split; [|split].
    + destruct stepped; [destruct fetched|]; eexists; split; reflexivity.
    + intros ->. reflexivity.
    + intros S. destruct stepped as [u|]; [|contradiction].
      split; [destruct fetched; reflexivity|]. split.
      * intros data ->. reflexivity.
      * intros ->. reflexivity.
Qed.

(** C9 (as stated) fails when the step request is rejected: no snapshot is
    fetched, and the held state stays; and without a simulation identifier
    nothing is requested at all. *)
Lemma C9_rejected_step_is_not_followed_by_fetch :
  (let r := handleStep false Rejected (Resolved Scenario.snapshot_value)
                       Scenario.session in
   snd r = [StepSimulation "sim-1" 10; ConsoleError] /\
   List.length (filter is_fetch (snd r)) <> 1%nat /\
   simulationState (fst r) <> Scenario.snapshot_value) /\
  (let r := handleStep false (Resolved tt) (Resolved Scenario.snapshot_value)
                       initial in
   filter is_control_call (snd r) = []).
Proof.
  split; cbv zeta; [split; [reflexivity | split; [|]] | reflexivity].
  - cbn. discriminate.
  - cbn. discriminate.
Qed.

(** C9 at work for the orchestrator of the scenario. *)
Lemma C9_for_session :
  Scenario.session.(simulationId) = Some "sim-1" /\
  handleStep true (Resolved tt) (Resolved Scenario.snapshot_value) Scenario.session =
    (Scenario.session, [SendStep]) /\
  handleStep false (Resolved tt) (Resolved Scenario.snapshot_value) Scenario.session =
    (mkApp (Some "sim-1") Scenario.snapshot_value (JObj []) (JObj []) false,
     [StepSimulation "sim-1" 10; GetSimulationState "sim-1"]).
Proof.
  split; [reflexivity|].
  destruct (proj2 (C9_manual_advance_strategy Scenario.session false (Resolved tt)
                     (Resolved Scenario.snapshot_value))
              "sim-1" eq_refl) as (A & _ & _ & B).
  - discriminate.
  - split; [exact A|].
    destruct B as (_ & B & _); [discriminate|].
    exact (B Scenario.snapshot_value eq_refl).
Defined.

End AppFacts.

(* ===================================================================== *)
(** ** Further facts about the connection manager                         *)
(* ===================================================================== *)


(* ===================================================================== *)
(** ** More about the connection manager                                  *)
(* ===================================================================== *)

Module ChannelFacts.
Import Json Hook.

(** *** One live socket *)

Lemma nth_error_update {A : Type} (f : A -> A) (l : list A) (i j : nat) :
  nth_error (update i f l) j =
  if Nat.eqb i j then option_map f (nth_error l j) else nth_error l j.
Proof.
  revert i j. induction l as [|a l IH]; intros i j.
  - destruct i, j; cbn; try reflexivity; destruct (Nat.eqb i j); reflexivity.
  - destruct i, j; cbn; try reflexivity. apply IH.
Qed.

Lemma same_channel_one_live (h h' : hook) :
  same_channel h h' -> one_live h -> one_live h'.
Proof.
  intros (S & W) L i ws. rewrite S, W. apply L.
Qed.

Lemma same_channel_refl (h : hook) : same_channel h h.
Proof. split; reflexivity. Qed.

Lemma same_channel_trans (h1 h2 h3 : hook) :
  same_channel h1 h2 -> same_channel h2 h3 -> same_channel h1 h3.
Proof. intros (A & B) (C & D). split; congruence. Qed.

(** Marking a socket as closing or closed keeps the others as they are. *)
Lemma set_ready_dead (i : nat) (r : readyState) (h : hook) :
  live r = false -> one_live h -> one_live (set_ready i r h).
Proof.
  intros D L j ws. cbn [sockets set_ready set_sockets wsRef].
  rewrite nth_error_update. destruct (Nat.eqb i j) eqn:E.
  - destruct (nth_error (sockets h) j) as [w|]; [|discriminate].
    cbn. intros [= <-]. cbn [ready]. congruence.
  - apply L.
Qed.

Lemma ws_close_one_live (i : nat) (h : hook) :
  one_live h -> one_live (ws_close i h).
Proof.
  intros L. unfold ws_close.
  destruct (ready_of i h) as [[]|]; try exact L; apply set_ready_dead; auto.
Qed.

(** After [ws.close()] the socket is not alive. *)
Lemma ws_close_dead (i : nat) (h : hook) (ws : WebSocket) :
  nth_error (sockets (ws_close i h)) i = Some ws -> live (ready ws) = false.
Proof.
  unfold ws_close, ready_of.
  destruct (nth_error (sockets h) i) as [w|] eqn:N; cbn [option_map].
  - destruct (ready w) eqn:R;
      cbn [sockets set_ready set_sockets]; rewrite ?nth_error_update, ?Nat.eqb_refl, ?N;
      cbn; intros [= <-]; cbn; try reflexivity; rewrite R; reflexivity.
  - rewrite N. discriminate.
Qed.

Lemma ws_close_wsRef (i : nat) (h : hook) : wsRef (ws_close i h) = wsRef h.
Proof. unfold ws_close. destruct (ready_of i h) as [[]|]; reflexivity. Qed.

(** After [connect] the one live socket is the new one. *)
Lemma connect_one_live (k : closure) (h : hook) :
  one_live h -> one_live (connect k h).
Proof.
  intros L. unfold connect. destruct (falsy (fst k)); [exact L|].
  set (h1 := match wsRef h with Some i => ws_close i h | None => h end).
  assert (L1 : one_live h1).
  { subst h1. destruct (wsRef h); [apply ws_close_one_live|]; exact L. }
  assert (D1 : forall j ws, nth_error (sockets h1) j = Some ws -> live (ready ws) = false).
  { intros j ws N. destruct (live (ready ws)) eqn:V; [|reflexivity].
    pose proof (L1 j ws N V) as W. subst h1.
    destruct (wsRef h) as [i|] eqn:Wi.
    - rewrite ws_close_wsRef, Wi in W. injection W as ->.
      rewrite (ws_close_dead j h ws N) in V. discriminate.
    - rewrite Wi in W. discriminate. }
  intros j ws. cbn [sockets wsRef set_wsRef set_sockets].
  intros N V. destruct (Nat.lt_ge_cases j (List.length (sockets h1))) as [Lt|Ge].
  - rewrite nth_error_app1 in N by exact Lt. rewrite (D1 j ws N) in V. discriminate.
  - destruct (Nat.eq_dec j (List.length (sockets h1))) as [->|Ne]; [reflexivity|].
    assert (nth_error (sockets h1 ++ [mkWS k CONNECTING]) j = None).
    { apply nth_error_None. rewrite length_app. cbn. lia. }
    congruence.
Qed.

(** After [disconnect] no socket is alive. *)
Lemma disconnect_one_live (h : hook) : one_live h -> one_live (disconnect h).
Proof.
  intros L. unfold disconnect.
  set (h2 := match stepIntervalRef _ with Some t => _ | None => _ end).
  assert (C : same_channel h h2).
  { subst h2. destruct (reconnectTimeoutRef h); cbn;
      destruct (stepIntervalRef h); split; reflexivity. }
  pose proof (same_channel_one_live h h2 C L) as L2.
  destruct (wsRef h2) as [i|] eqn:W; [|exact L2].
  intros j ws N V. exfalso.
  assert (N' : nth_error (sockets (ws_close i h2)) j = Some ws).
  { revert N. unfold setIsConnected. destruct (mounted _); exact (fun x => x). }
  pose proof (ws_close_one_live i h2 L2 j ws N' V) as Wj.
  rewrite ws_close_wsRef, W in Wj. injection Wj as ->.
  rewrite (ws_close_dead j h2 ws N') in V. discriminate.
Qed.


(** Solves [same_channel h (f h)] for an operation [f] that leaves sockets
    and [wsRef] alone. *)
Ltac channel :=
  unfold same_channel;
  repeat match goal with
         | |- context [match ?x with _ => _ end] => destruct x eqn:?
         | |- context [if ?x then _ else _] => destruct x eqn:?
         end;
  split; cbn; congruence.

Lemma step_cleanup_channel (h : hook) : same_channel h (step_cleanup h).
Proof. unfold step_cleanup. channel. Qed.

Lemma step_effect_channel (r c : bool) (h : hook) : same_channel h (step_effect r c h).
Proof. unfold step_effect, setInterval. channel. Qed.

Lemma settle_channel (c : bool) (h : hook) : same_channel h (settle c h).
Proof.
  unfold settle. destruct (mounted h && negb (Bool.eqb c (isConnected h)));
    [|apply same_channel_refl].
  eapply same_channel_trans; [apply step_cleanup_channel | apply step_effect_channel].
Qed.

Lemma onopen_channel (h : hook) : same_channel h (ws_onopen h).
Proof. unfold ws_onopen, setError, setIsConnected. channel. Qed.

Lemma onerror_channel (h : hook) : same_channel h (ws_onerror h).
Proof. unfold ws_onerror, setError, setIsConnected. channel. Qed.

Lemma onclose_channel (k : closure) (h : hook) : same_channel h (ws_onclose k h).
Proof. unfold ws_onclose, setIsConnected, setTimeout. channel. Qed.

Lemma sendStep_channel (h : hook) : same_channel h (sendStep h).
Proof. unfold sendStep. channel. Qed.

Section Channel.

Variable JSON_parse : string -> option json.

Lemma onmessage_channel (k : closure) (raw : string) (h : hook) :
  same_channel h (snd (ws_onmessage JSON_parse k raw h)).
Proof.
  destruct (JSON_parse raw) as [data|] eqn:E.
  - destruct data as [ |b|q|s|l|m] eqn:D;
      [ rewrite (HookFacts.null_frame_is_logged JSON_parse k raw h E); split; reflexivity
      | rewrite <- D in *.. ];
      (destruct (control_tag data) eqn:T;
       [ rewrite (HookFacts.control_frame_is_ignored JSON_parse k raw data h E T);
         split; reflexivity
       | rewrite (HookFacts.snapshot_frame_is_delivered JSON_parse k raw data h E);
         [split; reflexivity | subst; discriminate | exact T] ]).
  - rewrite (HookFacts.unparsable_frame_is_logged JSON_parse k raw h E). split; reflexivity.
Qed.

Lemma connection_cleanup_one_live (k : closure) (h : hook) :
  one_live h -> one_live (connection_cleanup k h).
Proof.
  intros L. unfold connection_cleanup. destruct (falsy (fst k)).
  - destruct (reconnectTimeoutRef h); exact L.
  - apply disconnect_one_live. exact L.
Qed.

Lemma render_one_live (sim : option string) (handler : nat) (running : bool)
    (h : hook) :
  one_live h -> one_live (render sim handler running h).
Proof.
  intros L. unfold render. cbv zeta.
  apply (same_channel_one_live _ _ (settle_channel _ _)).
  unfold when.
  destruct (negb (closure_eqb (simId h, onMessage h) (sim, handler)));
    destruct (negb (Bool.eqb running (isRunning h)));
    repeat first
      [ apply connect_one_live
      | apply connection_cleanup_one_live
      | apply (same_channel_one_live _ _ (step_effect_channel _ _ _))
      | apply (same_channel_one_live _ _ (step_cleanup_channel _))
      | unfold connection_effect;
        match goal with |- context [falsy ?x] => destruct (falsy x) end ];
    exact L.
Qed.

(** No event leaves two sockets alive. *)
Lemma step_one_live (e : event) (h h' : hook) :
  one_live h -> step JSON_parse e h = Some h' -> one_live h'.
Proof.
  intros L S. destruct e as [sim handler running| | | | |i|i raw|i|i|d|t|t];
    cbn [step] in S.
  - destruct (mounted h); [|discriminate]. injection S as <-.
    apply render_one_live. exact L.
  - destruct (mounted h); [|discriminate]. injection S as <-.
    unfold unmount. apply connection_cleanup_one_live.
    apply (same_channel_one_live _ _ (step_cleanup_channel _)). exact L.
  - injection S as <-. apply (same_channel_one_live _ _ (sendStep_channel _)). exact L.
  - injection S as <-. apply (same_channel_one_live _ _ (settle_channel _ _)).
    apply disconnect_one_live. exact L.
  - injection S as <-. unfold manual_connect. apply connect_one_live.
    destruct (reconnectTimeoutRef h); exact L.
  - destruct (ready_of i h) as [[]|] eqn:R; try discriminate. injection S as <-.
    apply (same_channel_one_live _ _ (settle_channel _ _)).
    apply (same_channel_one_live _ _ (onopen_channel _)).
    intros j ws. cbn [sockets wsRef set_ready set_sockets].
    rewrite nth_error_update. destruct (Nat.eqb i j) eqn:E; [|apply L].
    apply Nat.eqb_eq in E. subst j. intros _ _.
    unfold ready_of in R. destruct (nth_error (sockets h) i) as [w|] eqn:N; [|discriminate].
    cbn in R. injection R as R. apply (L i w N). rewrite R. reflexivity.
  - destruct (nth_error (sockets h) i) as [ws|]; [|discriminate].
    destruct (ready ws); try discriminate. injection S as <-.
    apply (same_channel_one_live _ _ (onmessage_channel _ _ _)). exact L.
  - destruct (nth_error (sockets h) i) as [ws|]; [|discriminate].
    assert (E : h' = settle (isConnected h)
                  (ws_onclose (made_by ws) (ws_onerror (set_ready i CLOSED h)))).
    { destruct (ready ws); try discriminate; injection S as <-; reflexivity. }
    subst h'.
    apply (same_channel_one_live _ _ (settle_channel _ _)).
    apply (same_channel_one_live _ _ (onclose_channel _ _)).
    apply (same_channel_one_live _ _ (onerror_channel _)).
    apply set_ready_dead; auto.
  - destruct (nth_error (sockets h) i) as [ws|]; [|discriminate].
    assert (E : h' = settle (isConnected h)
                  (ws_onclose (made_by ws) (set_ready i CLOSED h))).
    { destruct (ready ws); try discriminate; injection S as <-; reflexivity. }
    subst h'.
    apply (same_channel_one_live _ _ (settle_channel _ _)).
    apply (same_channel_one_live _ _ (onclose_channel _ _)).
    apply set_ready_dead; auto.
  - destruct ((0 <=? d)%Z && none_due_before (clock h + d) h); [|discriminate].
    injection S as <-. exact L.
  - destruct (lookup t (timeouts h)) as [[due k]|]; [|discriminate].
    destruct (due <=? clock h)%Z; [|discriminate]. injection S as <-.
    apply connect_one_live. exact L.
  - destruct (lookup t (intervals h)) as [due|]; [|discriminate].
    destruct (due <=? clock h)%Z; [|discriminate]. injection S as <-.
    apply (same_channel_one_live _ _ (sendStep_channel _)). exact L.
Qed.

Lemma run_one_live (es : list event) (h h' : hook) :
  one_live h -> run JSON_parse es h = Some h' -> one_live h'.
Proof.
  revert h. induction es as [|e es IH]; intros h L R; cbn in R.
  - injection R as <-. exact L.
  - destruct (step JSON_parse e h) as [h1|] eqn:S; [|discriminate].
    apply (IH h1); [|exact R]. apply (step_one_live e h h1 L S).
Qed.

Lemma mount_one_live (now : Z) (sim : option string) (handler : nat)
    (running : bool) :
  one_live (mount now sim handler running).
Proof.
  unfold mount, connection_effect. destruct (falsy (fst (sim, handler))).
  - intros i ws. unfold step_effect. rewrite andb_false_r. cbn.
    destruct i; discriminate.
  - apply connect_one_live. intros i ws. unfold step_effect.
    rewrite andb_false_r. cbn. destruct i; discriminate.
Qed.

(** X: single live channel.  However the manager got where it is, the only
    socket that is connecting or open is the one in [wsRef]; so no two
    sockets are ever alive together. *)
Theorem at_most_one_live_socket (now : Z) (sim : option string) (handler : nat)
    (running : bool) (es : list event) (h : hook) :
  run JSON_parse es (mount now sim handler running) = Some h ->
  (forall i ws,
      nth_error (sockets h) i = Some ws -> live (ready ws) = true ->
      wsRef h = Some i) /\
  (forall i j wi wj,
      nth_error (sockets h) i = Some wi -> live (ready wi) = true ->
      nth_error (sockets h) j = Some wj -> live (ready wj) = true ->
      i = j).
Proof.
  intros R.
  pose proof (run_one_live es _ h (mount_one_live now sim handler running) R) as L.
  split; [exact L|].
  intros i j wi wj Ni Vi Nj Vj.
  pose proof (L i wi Ni Vi) as A. pose proof (L j wj Nj Vj) as B. congruence.
Qed.


(** X: one pacing timer.  However the manager got where it is, at most one
    interval is active; it is the one [stepIntervalRef] names, and it exists
    only under a mounted hook that is running and connected. *)
Theorem at_most_one_pacing_timer (now : Z) (sim : option string) (handler : nat)
    (running : bool) (es : list event) (h : hook) :
  run JSON_parse es (mount now sim handler running) = Some h ->
  (List.length (intervals h) <= 1)%nat /\
  (forall t due,
      In (t, due) (intervals h) ->
      stepIntervalRef h = Some t /\
      mounted h = true /\ isRunning h = true /\ isConnected h = true).
Proof.
  intros R.
  pose proof (HookFacts.run_keeps_order JSON_parse es _ h
                (HookFacts.mount_ok now sim handler running) R) as P.
  destruct (HookFacts.paced_ok_cases h P) as [E|(t & due & E & Rf & M & Rn & C)];
    rewrite E; cbn.
  - split; [lia|]. intros t due [].
  - split; [lia|]. intros t' due' [[= <- <-]|[]]. auto.
Qed.

(** *** Teardown twice *)

Lemma disconnect_refs (h : hook) :
  reconnectTimeoutRef (disconnect h) = None /\
  stepIntervalRef (disconnect h) = None /\ wsRef (disconnect h) = None.
Proof.
  destruct h. unfold disconnect, ws_close, ready_of, setIsConnected.
  destruct reconnectTimeoutRef0, stepIntervalRef0, wsRef0 as [i|], mounted0; cbn;
    try (destruct (nth_error sockets0 i) as [[mk []]|]; cbn); auto.
Qed.

Lemma disconnect_without_refs (h : hook) :
  reconnectTimeoutRef h = None -> stepIntervalRef h = None -> wsRef h = None ->
  disconnect h = h.
Proof.
  intros A B C. unfold disconnect. rewrite A, B, C. reflexivity.
Qed.

Lemma disconnect_isConnected (h : hook) :
  isConnected (disconnect h) = isConnected h \/ isConnected (disconnect h) = false.
Proof.
  destruct h. unfold disconnect, ws_close, ready_of, setIsConnected.
  destruct reconnectTimeoutRef0, stepIntervalRef0, wsRef0 as [i|], mounted0; cbn;
    try (destruct (nth_error sockets0 i) as [[mk []]|]; cbn); auto.
Qed.

Lemma settle_refs (c : bool) (h : hook) :
  reconnectTimeoutRef (settle c h) = reconnectTimeoutRef h /\
  isConnected (settle c h) = isConnected h /\
  (stepIntervalRef h = None -> isConnected h = false ->
   stepIntervalRef (settle c h) = None).
Proof.
  unfold settle, step_effect, step_cleanup.
  destruct (mounted h && negb (Bool.eqb c (isConnected h))); [|auto].
  destruct (stepIntervalRef h) eqn:S; cbn; rewrite ?S;
    destruct (isRunning h && isConnected h) eqn:RC; cbn; rewrite ?S; cbn;
    repeat split; intros; try discriminate;
    match goal with
    | H : isConnected h = false |- _ =>
        rewrite H, andb_false_r in RC; discriminate RC
    | _ => idtac
    end.
Qed.

(** X: teardown is idempotent.  A second [disconnect()] right after the
    first changes nothing: there is no timer, no interval and no socket left
    for it to act on. *)
Theorem disconnect_twice (h : hook) :
  disconnect (disconnect h) = disconnect h /\
  run JSON_parse [CallDisconnect; CallDisconnect] h =
  run JSON_parse [CallDisconnect] h.
Proof.
  destruct (disconnect_refs h) as (A & B & C).
  split; [apply disconnect_without_refs; assumption|].
  cbn [run step].
  set (h1 := settle (isConnected h) (disconnect h)).
  destruct (settle_refs (isConnected h) (disconnect h)) as (A1 & C1 & B1).
  destruct (settle_channel (isConnected h) (disconnect h)) as (_ & W1).
  assert (B2 : stepIntervalRef h1 = None).
  { subst h1. unfold settle in *.
    destruct (mounted (disconnect h) &&
              negb (Bool.eqb (isConnected h) (isConnected (disconnect h)))) eqn:D;
      [|exact B].
    apply B1; [exact B|].
    destruct (disconnect_isConnected h) as [E|E]; [|exact E].
    rewrite E, Bool.eqb_reflx in D. cbn in D. rewrite andb_false_r in D.
    discriminate D. }
  rewrite (disconnect_without_refs h1) by (subst h1; congruence).
  unfold settle at 1. rewrite Bool.eqb_reflx. cbn [negb]. rewrite andb_false_r.
  reflexivity.
Qed.

End Channel.


(** The manager of the scenario after teardown and the stale reconnect. *)
Lemma one_live_socket_after_teardown :
  exists h,
    run Json.parse (SockOpen 0 :: Scenario.teardown_then_wait) Scenario.mounted
      = Some h /\
    (forall i ws, nth_error (sockets h) i = Some ws -> live (ready ws) = true ->
                  wsRef h = Some i) /\
    (forall i j wi wj, nth_error (sockets h) i = Some wi -> live (ready wi) = true ->
       nth_error (sockets h) j = Some wj -> live (ready wj) = true -> i = j).
Proof.
  destruct (run Json.parse (SockOpen 0 :: Scenario.teardown_then_wait)
              Scenario.mounted) as [h|] eqn:R;
    [|vm_compute in R; discriminate R].
  exists h. split; [reflexivity|].
  exact (at_most_one_live_socket Json.parse 0 (Some "sim-1") 0%nat false
           (SockOpen 0 :: Scenario.teardown_then_wait) h R).
Defined.

(** The manager of the scenario, connected and set running. *)
Lemma one_pacing_timer_when_running :
  exists h,
    run Json.parse [SockOpen 0; Render (Some "sim-1") 0 true] Scenario.mounted
      = Some h /\
    (List.length (intervals h) <= 1)%nat /\
    (forall t due,
        In (t, due) (intervals h) ->
        stepIntervalRef h = Some t /\
        mounted h = true /\ isRunning h = true /\ isConnected h = true).
Proof.
  destruct (run Json.parse [SockOpen 0; Render (Some "sim-1") 0 true]
              Scenario.mounted) as [h|] eqn:R;
    [|vm_compute in R; discriminate R].
  exists h. split; [reflexivity|].
  exact (at_most_one_pacing_timer Json.parse 0 (Some "sim-1") 0%nat false
           [SockOpen 0; Render (Some "sim-1") 0 true] h R).
Defined.

End ChannelFacts.

Module RetryFacts.
Import Json Hook.

Lemma nth_error_update_same {A : Type} (f : A -> A) (l : list A) (i : nat) (a : A) :
  nth_error l i = Some a -> nth_error (update i f l) i = Some (f a).
Proof.
  revert i. induction l as [|b l IH]; intros [|i]; cbn; try discriminate.
  - intros [= ->]. reflexivity.
  - apply IH.
Qed.

Lemma length_update {A : Type} (f : A -> A) (l : list A) (i : nat) :
  List.length (update i f l) = List.length l.
Proof.
  revert i. induction l as [|b l IH]; intros [|i]; cbn; try reflexivity.
  rewrite IH. reflexivity.
Qed.

Lemma nth_error_last {A : Type} (l : list A) (a : A) :
  nth_error (l ++ [a]) (List.length l) = Some a.
Proof.
  induction l as [|b l IH]; [reflexivity | exact IH].
Qed.

Section Retry.

Variable JSON_parse : string -> option json.

Lemma one_retry (k : closure) (i : nat) (t : positive) (h : hook) :
  falsy (fst k) = false ->
  retrying k i t h ->
  exists h',
    run JSON_parse (retry i t) h = Some h' /\
    retrying k (S i) (Pos.succ t) h' /\
    clock h' = (clock h + 2000)%Z /\ sent h' = sent h /\
    delivered h' = delivered h.
Proof.
  intros F (N & L & W & T & TO & IV & SR & C).
  destruct h as [clock sockets timeouts intervals next sent delivered console
                 mounted simId onMessage isRunning isConnected error wsRef
                 rref sref].
  cbn in N, L, W, T, TO, IV, SR, C. subst.
  set (closed := update i (fun ws => mkWS (made_by ws) CLOSED) sockets).
  set (shown := if mounted then Some "WebSocket connection error" else error).
  set (h1 := mkHook clock closed [(t, ((clock + 2000)%Z, k))] [] (Pos.succ t)
               sent delivered console mounted simId onMessage isRunning false
               shown (Some i) (Some t) None).
  set (h2 := mkHook (clock + 2000) closed [(t, ((clock + 2000)%Z, k))] []
               (Pos.succ t) sent delivered console mounted simId onMessage
               isRunning false shown (Some i) (Some t) None).
  set (h3 := mkHook (clock + 2000) (closed ++ [mkWS k CONNECTING]) [] []
               (Pos.succ t) sent delivered console mounted simId onMessage
               isRunning false shown (Some (List.length closed)) (Some t) None).
  assert (E1 : step JSON_parse (SockFail i)
                 (mkHook clock sockets [] [] t sent delivered console mounted
                    simId onMessage isRunning false error (Some i) rref None)
               = Some h1).
  { cbn [step Hook.sockets]. rewrite N. cbn [ready made_by]. f_equal.
    unfold ws_onclose. rewrite F. subst h1 shown closed.
    destruct mounted; reflexivity. }
  assert (E2 : step JSON_parse (Elapse 2000) h1 = Some h2).
  { cbn [step]. unfold none_due_before. subst h1 h2. cbn.
    rewrite Z.leb_refl. reflexivity. }
  assert (E3 : step JSON_parse (FireTimeout t) h2 = Some h3).
  { cbn [step]. subst h2 h3. cbn [Hook.timeouts lookup Hook.clock].
    rewrite Pos.eqb_refl, Z.leb_refl. f_equal.
    unfold connect. rewrite F. cbn [Hook.wsRef set_timeouts].
    unfold ws_close, ready_of. cbn [Hook.sockets set_timeouts].
    subst closed. rewrite (nth_error_update_same _ _ _ _ N). cbn [option_map ready].
    unfold drop. cbn [filter fst]. rewrite Pos.eqb_refl. reflexivity. }
  exists h3. unfold retry. cbn [run]. rewrite E1, E2, E3.
  split; [reflexivity|].
  assert (Lc : List.length closed = S i)
    by (subst closed; rewrite length_update; exact L).
  unfold retrying. subst h3.
  cbn [Hook.sockets Hook.wsRef Hook.next_handle Hook.timeouts Hook.intervals
       Hook.stepIntervalRef Hook.isConnected Hook.clock Hook.sent Hook.delivered].
  split; [|repeat split].
  split; [rewrite <- Lc; apply nth_error_last|].
  split; [rewrite length_app, Lc; cbn; lia|].
  split; [rewrite Lc; reflexivity|].
  repeat split.
Qed.

Lemma run_app (es es' : list event) (h : hook) :
  run JSON_parse (es ++ es') h =
  match run JSON_parse es h with
  | Some h' => run JSON_parse es' h'
  | None => None
  end.
Proof.
  revert h. induction es as [|e es IH]; intros h; [reflexivity|].
  cbn [app run]. destruct (step JSON_parse e h); [apply IH | reflexivity].
Qed.

Lemma many_retries (k : closure) (n : nat) :
  falsy (fst k) = false ->
  forall i t h,
    retrying k i t h ->
    exists h' t',
      run JSON_parse (retries i t n) h = Some h' /\
      retrying k (i + n) t' h' /\
      clock h' = (clock h + 2000 * Z.of_nat n)%Z /\ sent h' = sent h /\
      delivered h' = delivered h.
Proof.
  intros F. induction n as [|n IH]; intros i t h R.
  - exists h, t. rewrite Nat.add_0_r, Z.add_0_r. cbn. auto.
  - destruct (one_retry k i t h F R) as (h1 & R1 & I1 & C1 & S1 & D1).
    destruct (IH (S i) (Pos.succ t) h1 I1) as (h2 & t2 & R2 & I2 & C2 & S2 & D2).
    exists h2, t2. cbn [retries]. rewrite run_app, R1, R2.
    replace (i + S n)%nat with (S i + n)%nat by lia.
    split; [reflexivity|]. split; [exact I2|].
    split; [rewrite C2, C1; lia|]. split; congruence.
Qed.

Lemma mount_retrying (now : Z) (sim : option string) (handler : nat) (running : bool) :
  falsy sim = false ->
  retrying (sim, handler) 0 1 (mount now sim handler running).
Proof.
  intros F. unfold mount, connection_effect, connect, step_effect. cbn.
  rewrite F, andb_false_r. cbn. repeat split.
Qed.

(** X: reconnection has no cap and no back-off.  Against a server that
    refuses every connection, a manager mounted with a simulation id makes a
    new attempt exactly 2000 ms after each failure, as many times as one
    cares to wait: after [n] failures, [2000 * n] ms after mounting, it is
    waiting on socket number [n] and has sent and delivered nothing. *)
Theorem reconnect_is_unbounded (now : Z) (sim : option string) (handler : nat)
    (running : bool) (n : nat) :
  falsy sim = false ->
  exists h,
    run JSON_parse (retries 0 1 n) (mount now sim handler running) = Some h /\
    clock h = (now + 2000 * Z.of_nat n)%Z /\
    List.length (sockets h) = S n /\
    wsRef h = Some n /\
    nth_error (sockets h) n = Some (mkWS (sim, handler) CONNECTING) /\
    timeouts h = [] /\ isConnected h = false /\ sent h = [] /\ delivered h = [].
Proof.
  intros F.
  destruct (many_retries (sim, handler) n F 0%nat 1%positive _
              (mount_retrying now sim handler running F))
    as (h & t & R & (N & L & W & T & TO & IV & SR & C) & Cl & S & D).
  exists h. cbn [Nat.add] in *.
  repeat split; try assumption.
  - rewrite Cl. unfold mount, connection_effect, connect, step_effect. cbn.
    rewrite F, andb_false_r. reflexivity.
  - rewrite S. unfold mount, connection_effect, connect, step_effect. cbn.
    rewrite F, andb_false_r. reflexivity.
  - rewrite D. unfold mount, connection_effect, connect, step_effect. cbn.
    rewrite F, andb_false_r. reflexivity.
Qed.

(** *** Reconnecting by hand *)



(** *** After the connection is lost *)

Lemma stays_closed_refl (h : hook) : stays_closed h h.
Proof. split; auto. Qed.

Lemma stays_closed_trans (a b c : hook) :
  stays_closed a b -> stays_closed b c -> stays_closed a c.
Proof. intros (S1 & C1) (S2 & C2). split; [congruence | auto]. Qed.

Ltac closed :=
  unfold stays_closed;
  repeat match goal with
         | |- context [match ?x with _ => _ end] => destruct x eqn:?
         | |- context [if ?x then _ else _] => destruct x eqn:?
         end;
  split; cbn; congruence.

Lemma ws_close_closed (i : nat) (h : hook) : stays_closed h (ws_close i h).
Proof. unfold ws_close. closed. Qed.

Lemma step_cleanup_closed (h : hook) : stays_closed h (step_cleanup h).
Proof. unfold step_cleanup. closed. Qed.

Lemma step_effect_closed (r c : bool) (h : hook) : stays_closed h (step_effect r c h).
Proof.
  unfold step_effect, setInterval. destruct (r && c); [split; cbn; congruence | closed].
Qed.

Lemma setIsConnected_false_closed (h : hook) : stays_closed h (setIsConnected false h).
Proof. unfold setIsConnected. closed. Qed.

Lemma disconnect_closed (h : hook) : stays_closed h (disconnect h).
Proof.
  unfold disconnect.
  set (h1 := match reconnectTimeoutRef h with
             | Some t => set_reconnectTimeoutRef None (clearTimeout t h)
             | None => h end).
  assert (S1 : stays_closed h h1) by (subst h1; closed).
  set (h2 := match stepIntervalRef h1 with
             | Some t => set_stepIntervalRef None (clearInterval t h1)
             | None => h1 end).
  assert (S2 : stays_closed h1 h2) by (subst h2; closed).
  eapply stays_closed_trans; [exact S1|].
  eapply stays_closed_trans; [exact S2|].
  destruct (wsRef h2) as [i|]; [|apply stays_closed_refl].
  eapply stays_closed_trans; [apply (ws_close_closed i)|].
  eapply stays_closed_trans; [|apply setIsConnected_false_closed].
  split; auto.
Qed.

Lemma connection_cleanup_closed (k : closure) (h : hook) :
  stays_closed h (connection_cleanup k h).
Proof.
  unfold connection_cleanup. destruct (falsy (fst k)); [closed|apply disconnect_closed].
Qed.

Lemma connect_closed (k : closure) (h : hook) : stays_closed h (connect k h).
Proof.
  unfold connect. destruct (falsy (fst k)); [apply stays_closed_refl|].
  destruct (wsRef h) as [i|].
  - eapply stays_closed_trans; [apply (ws_close_closed i)|]. split; auto.
  - split; auto.
Qed.

Lemma connection_effect_closed (k : closure) (h : hook) :
  stays_closed h (connection_effect k h).
Proof.
  unfold connection_effect. destruct (falsy (fst k));
    [apply stays_closed_refl | apply connect_closed].
Qed.

Lemma manual_connect_closed (h : hook) : stays_closed h (manual_connect h).
Proof.
  unfold manual_connect.
  eapply stays_closed_trans; [|apply connect_closed].
  destruct (reconnectTimeoutRef h); split; auto.
Qed.

Lemma settle_closed (c : bool) (h : hook) : stays_closed h (settle c h).
Proof.
  unfold settle. destruct (mounted h && negb (Bool.eqb c (isConnected h)));
    [|apply stays_closed_refl].
  eapply stays_closed_trans; [apply step_cleanup_closed | apply step_effect_closed].
Qed.

Lemma when_closed (b : bool) (f : hook -> hook) (h : hook) :
  (forall g, stays_closed g (f g)) -> stays_closed h (when b f h).
Proof. intros F. destruct b; [apply F | apply stays_closed_refl]. Qed.

Lemma render_closed (sim : option string) (handler : nat) (running : bool) (h : hook) :
  stays_closed h (render sim handler running h).
Proof.
  unfold render.
  eapply stays_closed_trans; [|apply settle_closed].
  eapply stays_closed_trans; [|apply when_closed, connection_effect_closed].
  eapply stays_closed_trans; [|apply when_closed, step_effect_closed].
  eapply stays_closed_trans; [|apply when_closed, connection_cleanup_closed].
  eapply stays_closed_trans; [|apply when_closed, step_cleanup_closed].
  split; auto.
Qed.

Lemma unmount_closed (h : hook) : stays_closed h (unmount h).
Proof.
  unfold unmount.
  apply (stays_closed_trans _ (step_cleanup h)); [apply step_cleanup_closed|].
  apply (stays_closed_trans _ (connection_cleanup (simId h, onMessage h) (step_cleanup h)));
    [apply connection_cleanup_closed|].
  split; auto.
Qed.

Lemma onclose_closed (k : closure) (h : hook) : stays_closed h (ws_onclose k h).
Proof.
  unfold ws_onclose.
  eapply stays_closed_trans; [apply setIsConnected_false_closed|].
  set (h1 := setIsConnected false h).
  set (h2 := match stepIntervalRef h1 with
             | Some t => set_stepIntervalRef None (clearInterval t h1)
             | None => h1 end).
  assert (S2 : stays_closed h1 h2) by (subst h2; closed).
  eapply stays_closed_trans; [exact S2|].
  destruct (falsy (fst k)); split; auto.
Qed.

Lemma onerror_closed (h : hook) : stays_closed h (ws_onerror h).
Proof.
  unfold ws_onerror.
  eapply stays_closed_trans; [|apply setIsConnected_false_closed].
  unfold setError. closed.
Qed.

Lemma onmessage_closed (k : closure) (raw : string) (h : hook) :
  stays_closed h (snd (ws_onmessage JSON_parse k raw h)).
Proof.
  destruct (HookFacts.onmessage_silent JSON_parse k raw h)
    as ((_ & _ & _ & _ & S) & C).
  split; [exact S | congruence].
Qed.

Lemma onclose_disconnects (k : closure) (h : hook) :
  mounted h = true -> isConnected (ws_onclose k h) = false.
Proof.
  intros M. destruct h. cbn in M. subst.
  unfold ws_onclose, setIsConnected. cbn.
  destruct stepIntervalRef0, (falsy (fst k)); reflexivity.
Qed.

Lemma step_stays_closed (e : event) (h h' : hook) :
  paced_ok h = true -> isConnected h = false -> keeps_closed e = true ->
  step JSON_parse e h = Some h' -> stays_closed h h'.
Proof.
  intros P C K S.
  destruct e as [sim handler running| | | | |i|i raw|i|i|d|t|t];
    cbn [step keeps_closed] in *; try discriminate K.
  - destruct (mounted h); [|discriminate]. injection S as <-. apply render_closed.
  - destruct (mounted h); [|discriminate]. injection S as <-. apply unmount_closed.
  - injection S as <-.
    eapply stays_closed_trans; [apply disconnect_closed | apply settle_closed].
  - injection S as <-. apply manual_connect_closed.
  - destruct (nth_error (sockets h) i) as [ws|]; [|discriminate].
    destruct (ready ws); try discriminate. injection S as <-.
    apply onmessage_closed.
  - destruct (nth_error (sockets h) i) as [ws|]; [|discriminate].
    destruct (ready ws); try discriminate; injection S as <-;
      (eapply stays_closed_trans; [|apply settle_closed]);
      (eapply stays_closed_trans; [|apply onclose_closed]);
      (eapply stays_closed_trans; [|apply onerror_closed]); split; auto.
  - destruct (nth_error (sockets h) i) as [ws|]; [|discriminate].
    destruct (ready ws); try discriminate; injection S as <-;
      (eapply stays_closed_trans; [|apply settle_closed]);
      (eapply stays_closed_trans; [|apply onclose_closed]); split; auto.
  - destruct ((0 <=? d)%Z && none_due_before (clock h + d) h); [|discriminate].
    injection S as <-. split; auto.
  - destruct (lookup t (timeouts h)) as [[due k]|]; [|discriminate].
    destruct (due <=? clock h)%Z; [|discriminate]. injection S as <-.
    eapply stays_closed_trans; [|apply connect_closed]. split; auto.
  - destruct (HookFacts.paced_ok_cases h P) as [I|(t' & due & _ & _ & _ & _ & C')];
      [|congruence].
    rewrite I in S. discriminate S.
Qed.

Lemma run_stays_closed (es : list event) (h h' : hook) :
  paced_ok h = true -> isConnected h = false ->
  forallb keeps_closed es = true ->
  run JSON_parse es h = Some h' -> stays_closed h h'.
Proof.
  revert h. induction es as [|e es IH]; intros h P C K R; cbn in R, K.
  - injection R as <-. apply stays_closed_refl.
  - destruct (step JSON_parse e h) as [h1|] eqn:S; [|discriminate].
    apply andb_prop in K. destruct K as [K1 K2].
    pose proof (step_stays_closed e h h1 P C K1 S) as (S1 & C1).
    destruct (HookFacts.step_keeps_order JSON_parse e h h1 P S) as (P1 & _).
    destruct (IH h1 P1 (C1 C) K2 R) as (S2 & C2).
    split; [congruence | auto].
Qed.

(** X: a lost connection silences the manager.  When a socket of a mounted
    manager closes or fails, the manager counts itself disconnected and has
    no pacing timer; and whatever happens next (renders, frames, timers,
    reconnects, teardown), it sends no advance signal and stays
    disconnected until a socket opens. *)
Theorem nothing_is_sent_after_close (now : Z) (sim : option string) (handler : nat)
    (running : bool) (before after : list event) (i : nat) (failed : bool)
    (h h1 h2 : hook) :
  run JSON_parse before (mount now sim handler running) = Some h ->
  mounted h = true ->
  step JSON_parse (if failed then SockFail i else SockClose i) h = Some h1 ->
  forallb keeps_closed after = true ->
  run JSON_parse after h1 = Some h2 ->
  isConnected h1 = false /\ intervals h1 = [] /\ sent h1 = sent h /\
  isConnected h2 = false /\ intervals h2 = [] /\ sent h2 = sent h.
Proof.
  intros R M S K R2.
  pose proof (HookFacts.run_keeps_order JSON_parse before _ h
                (HookFacts.mount_ok now sim handler running) R) as P.
  assert (P1 : paced_ok h1 = true).
  { apply (HookFacts.step_keeps_order JSON_parse _ h h1 P S). }
  assert (X : isConnected h1 = false /\ sent h1 = sent h).
  { destruct failed; cbn [step] in S;
      (destruct (nth_error (sockets h) i) as [ws|]; [|discriminate]);
      destruct (ready ws); try discriminate; injection S as <-.
    all: split;
      [ match goal with
        | |- isConnected (settle ?c ?g) = false =>
            destruct (settle_closed c g) as (_ & C); apply C;
            apply onclose_disconnects
        end;
        unfold ws_onerror, setIsConnected, setError; cbn; rewrite ?M; cbn;
        first [exact M | reflexivity]
      | ].
    all: match goal with
         | |- sent (settle ?c (ws_onclose ?k (ws_onerror ?g))) = _ =>
             rewrite (proj1 (settle_closed c _)), (proj1 (onclose_closed k _)),
               (proj1 (onerror_closed g)); reflexivity
         | |- sent (settle ?c (ws_onclose ?k ?g)) = _ =>
             rewrite (proj1 (settle_closed c _)), (proj1 (onclose_closed k _));
               reflexivity
         end. }
  destruct X as (C1 & S1).
  destruct (run_stays_closed after h1 h2 P1 C1 K R2) as (S2 & C2).
  pose proof (HookFacts.run_keeps_order JSON_parse after h1 h2 P1 R2) as P2.
  assert (I : forall g, paced_ok g = true -> isConnected g = false -> intervals g = []).
  { intros g Pg Cg.
    destruct (HookFacts.paced_ok_cases g Pg) as [I|(t' & due & _ & _ & _ & _ & C')];
      [exact I | congruence]. }
  repeat split; auto; congruence.
Qed.

(** X: frames do not touch the connection.  A message on an open socket
    has one of three outcomes: nothing changes, one value is handed to the
    handler of the closure that made the socket, or one error is logged.
    Sockets, timers, flags, the error shown and the signals sent are as
    before in each. *)
Theorem message_leaves_connection_alone (i : nat) (raw : string) (h h' : hook) :
  step JSON_parse (SockMessage i raw) h = Some h' ->
  (h' = h \/
   (exists ws v, nth_error (sockets h) i = Some ws /\
                 h' = set_delivered (delivered h ++ [(snd (made_by ws), v)]) h) \/
   (exists e, h' = set_console (console h ++ [e]) h)) /\
  sockets h' = sockets h /\ wsRef h' = wsRef h /\
  timeouts h' = timeouts h /\ intervals h' = intervals h /\
  reconnectTimeoutRef h' = reconnectTimeoutRef h /\
  stepIntervalRef h' = stepIntervalRef h /\
  isConnected h' = isConnected h /\ error h' = error h /\
  sent h' = sent h /\ clock h' = clock h.
Proof.
  cbn [step]. destruct (nth_error (sockets h) i) as [ws|]; [|discriminate].
  destruct (ready ws); try discriminate. intros [= <-].
  assert (X : snd (ws_onmessage JSON_parse (made_by ws) raw h) = h \/
              (exists v, snd (ws_onmessage JSON_parse (made_by ws) raw h) =
                 set_delivered (delivered h ++ [(snd (made_by ws), v)]) h) \/
              (exists e, snd (ws_onmessage JSON_parse (made_by ws) raw h) =
                 set_console (console h ++ [e]) h)).
  { destruct (JSON_parse raw) as [data|] eqn:E.
    - destruct (control_tag data) eqn:T.
      + left. rewrite (HookFacts.control_frame_is_ignored JSON_parse _ raw data h E T).
        reflexivity.
      + destruct data as [ |b|q|s|l|m] eqn:D;
          [ right; right; exists TypeError;
            rewrite (HookFacts.null_frame_is_logged JSON_parse _ raw h E); reflexivity
          | rewrite <- D in *.. ];
          right; left; exists data;
          (rewrite (HookFacts.snapshot_frame_is_delivered JSON_parse _ raw data h E);
           [reflexivity | subst; discriminate | exact T]).
    - right. right. exists SyntaxError.
      rewrite (HookFacts.unparsable_frame_is_logged JSON_parse _ raw h E). reflexivity. }
  destruct X as [X|[(v & X)|(e & X)]]; rewrite X.
  - split; [left; reflexivity | repeat split].
  - split; [right; left; exists ws, v; split; reflexivity | repeat split].
  - split; [right; right; exists e; reflexivity | repeat split].
Qed.

End Retry.

(** Three refusals in a row. *)
Lemma reconnect_after_three_refusals :
  falsy (Some "sim-1") = false /\
  exists h,
    run Json.parse (retries 0 1 3) Scenario.mounted = Some h /\
    clock h = 6000%Z /\ List.length (sockets h) = 4%nat /\ wsRef h = Some 3%nat.
Proof.
  split; [reflexivity|].
  destruct (reconnect_is_unbounded Json.parse 0 (Some "sim-1") 0%nat false 3 eq_refl)
    as (h & R & C & L & W & _).
  exists h. split; [exact R|]. split; [exact C|]. split; [exact L | exact W].
Defined.


(** The manager of the scenario runs, sends one signal, loses its socket,
    reconnects and is paused: the one signal is all it has sent. *)
Lemma one_signal_before_the_close :
  exists h2,
    run Json.parse
      ([SockOpen 0; Render (Some "sim-1") 0 true; Elapse 100; FireInterval 1] ++
       [SockClose 0] ++
       [Elapse 2000; FireTimeout 2; Render (Some "sim-1") 0 false])
      Scenario.mounted = Some h2 /\
    isConnected h2 = false /\ intervals h2 = [] /\ sent h2 = [(0%nat, 100%Z)].
Proof.
  destruct (run Json.parse
              [SockOpen 0; Render (Some "sim-1") 0 true; Elapse 100; FireInterval 1]
              Scenario.mounted) as [h|] eqn:R;
    [|vm_compute in R; discriminate R].
  assert (M : mounted h = true)
    by (vm_compute in R; injection R as <-; reflexivity).
  assert (S0 : sent h = [(0%nat, 100%Z)])
    by (vm_compute in R; injection R as <-; reflexivity).
  destruct (step Json.parse (SockClose 0) h) as [h1|] eqn:S;
    [|vm_compute in R; injection R as <-; vm_compute in S; discriminate S].
  destruct (run Json.parse
              [Elapse 2000; FireTimeout 2; Render (Some "sim-1") 0 false] h1)
    as [h2|] eqn:R2;
    [|vm_compute in R; injection R as <-; vm_compute in S; injection S as <-;
      vm_compute in R2; discriminate R2].
  exists h2. rewrite run_app, R. cbn [app run]. rewrite S.
  split; [exact R2|].
  destruct (nothing_is_sent_after_close Json.parse 0 (Some "sim-1") 0%nat false
              [SockOpen 0; Render (Some "sim-1") 0 true; Elapse 100; FireInterval 1]
              [Elapse 2000; FireTimeout 2; Render (Some "sim-1") 0 false]
              0%nat false h h1 h2 R M S eq_refl R2)
    as (_ & _ & _ & A & B & C).
  split; [exact A|]. split; [exact B|]. rewrite C. exact S0.
Defined.

(** The snapshot frame of the scenario. *)
Lemma snapshot_frame_leaves_connection_alone :
  exists h',
    step Json.parse (SockMessage 0 Scenario.snapshot_frame) Scenario.connected
      = Some h' /\
    sockets h' = sockets Scenario.connected /\
    isConnected h' = isConnected Scenario.connected /\
    sent h' = sent Scenario.connected.
Proof.
  destruct (step Json.parse (SockMessage 0 Scenario.snapshot_frame)
              Scenario.connected) as [h'|] eqn:S;
    [|vm_compute in S; discriminate S].
  exists h'. split; [reflexivity|].
  destruct (message_leaves_connection_alone Json.parse 0 Scenario.snapshot_frame
              Scenario.connected h' S)
    as (_ & A & _ & _ & _ & _ & _ & B & _ & C & _).
  split; [exact A|]. split; [exact B | exact C].
Defined.

End RetryFacts.

Module FlipFacts.
Import Json Hook.

Section Flip.

Variable JSON_parse : string -> option json.

Lemma one_flip (ka kb : closure) (i : nat) (t : positive) (h : hook) :
  falsy (fst kb) = false ->
  contested ka kb i t h ->
  exists h',
    run JSON_parse (flip i t) h = Some h' /\
    contested kb ka (S i) (Pos.succ t) h' /\
    clock h' = (clock h + 2000)%Z /\ sent h' = sent h /\
    simId h' = simId h /\ onMessage h' = onMessage h.
Proof.
  intros F (N0 & N1 & L & W & T & TO & IV & SR & RN & M).
  destruct h as [clock sockets timeouts intervals next sent delivered console
                 mounted simId onMessage isRunning isConnected error wsRef
                 rref sref].
  cbn [Hook.sockets Hook.wsRef Hook.next_handle Hook.timeouts Hook.intervals
       Hook.stepIntervalRef Hook.isRunning Hook.mounted]
    in N0, N1, L, W, T, TO, IV, SR, RN, M.
  subst.
  set (s1 := update (S i) (fun ws => mkWS (made_by ws) OPEN) sockets).
  set (s2 := update i (fun ws => mkWS (made_by ws) CLOSED) s1).
  set (s3 := update (S i) (fun ws => mkWS (made_by ws) CLOSING) s2).
  set (h1 := mkHook clock s1 [] [] t sent delivered console true simId onMessage
               false true None (Some (S i)) rref None).
  set (h2 := mkHook clock s2 [(t, ((clock + 2000)%Z, kb))] [] (Pos.succ t)
               sent delivered console true simId onMessage false false None
               (Some (S i)) (Some t) None).
  set (h3 := mkHook (clock + 2000) s2 [(t, ((clock + 2000)%Z, kb))] []
               (Pos.succ t) sent delivered console true simId onMessage false
               false None (Some (S i)) (Some t) None).
  set (h4 := mkHook (clock + 2000) (s3 ++ [mkWS kb CONNECTING]) [] []
               (Pos.succ t) sent delivered console true simId onMessage false
               false None (Some (List.length s3)) (Some t) None).
  assert (A0 : nth_error s1 i = Some (mkWS kb CLOSING)).
  { subst s1. rewrite ChannelFacts.nth_error_update.
    replace (Nat.eqb (S i) i) with false by (symmetry; apply Nat.eqb_neq; lia).
    exact N0. }
  assert (A1 : nth_error s1 (S i) = Some (mkWS ka OPEN)).
  { subst s1. rewrite (RetryFacts.nth_error_update_same _ _ _ _ N1). reflexivity. }
  assert (B1 : nth_error s2 (S i) = Some (mkWS ka OPEN)).
  { subst s2. rewrite ChannelFacts.nth_error_update.
    replace (Nat.eqb i (S i)) with false by (symmetry; apply Nat.eqb_neq; lia).
    exact A1. }
  assert (C1 : nth_error s3 (S i) = Some (mkWS ka CLOSING)).
  { subst s3. rewrite (RetryFacts.nth_error_update_same _ _ _ _ B1). reflexivity. }
  assert (L3 : List.length s3 = S (S i)).
  { subst s3 s2 s1. rewrite !RetryFacts.length_update. exact L. }
  assert (E1 : step JSON_parse (SockOpen (S i))
                 (mkHook clock sockets [] [] t sent delivered console true
                    simId onMessage false isConnected error (Some (S i)) rref None)
               = Some h1).
  { cbn [step]. unfold ready_of. cbn [Hook.sockets]. rewrite N1.
    cbn [option_map ready]. f_equal. subst h1 s1.
    destruct isConnected; reflexivity. }
  assert (E2 : step JSON_parse (SockClose i) h1 = Some h2).
  { cbn [step]. subst h1. cbn [Hook.sockets]. rewrite A0. cbn [ready made_by].
    f_equal. unfold ws_onclose. rewrite F. reflexivity. }
  assert (E3 : step JSON_parse (Elapse 2000) h2 = Some h3).
  { cbn [step]. unfold none_due_before. subst h2 h3. cbn.
    rewrite Z.leb_refl. reflexivity. }
  assert (E4 : step JSON_parse (FireTimeout t) h3 = Some h4).
  { cbn [step]. subst h3 h4. cbn [Hook.timeouts lookup Hook.clock].
    rewrite Pos.eqb_refl, Z.leb_refl. f_equal.
    unfold connect. rewrite F. cbn [Hook.wsRef set_timeouts].
    unfold ws_close, ready_of. cbn [Hook.sockets set_timeouts].
    rewrite B1. cbn [option_map ready].
    unfold drop. cbn [filter fst]. rewrite Pos.eqb_refl. reflexivity. }
  exists h4. unfold flip. cbn [run]. rewrite E1, E2, E3, E4.
  split; [reflexivity|]. split; [|repeat split].
  unfold contested. subst h4.
  cbn [Hook.sockets Hook.wsRef Hook.next_handle Hook.timeouts Hook.intervals
       Hook.stepIntervalRef Hook.isRunning Hook.mounted].
  split; [rewrite nth_error_app1 by lia; exact C1|].
  split; [rewrite <- L3; apply RetryFacts.nth_error_last|].
  split; [rewrite length_app, L3; cbn; lia|].
  split; [rewrite L3; reflexivity|].
  repeat split.
Qed.

Lemma many_flips (n : nat) :
  forall (ka kb : closure) (i : nat) (t : positive) (h : hook),
    falsy (fst ka) = false -> falsy (fst kb) = false ->
    contested ka kb i t h ->
    exists h' t',
      run JSON_parse (flips i t n) h = Some h' /\
      contested (if Nat.even n then ka else kb) (if Nat.even n then kb else ka)
        (i + n) t' h' /\
      clock h' = (clock h + 2000 * Z.of_nat n)%Z /\ sent h' = sent h /\
      simId h' = simId h /\ onMessage h' = onMessage h.
Proof.
  induction n as [|n IH]; intros ka kb i t h Fa Fb C.
  - exists h, t. rewrite Nat.add_0_r, Z.add_0_r. cbn. auto 7.
  - destruct (one_flip ka kb i t h Fb C) as (h1 & R1 & I1 & C1 & S1 & P1 & Q1).
    destruct (IH kb ka (S i) (Pos.succ t) h1 Fb Fa I1)
      as (h2 & t2 & R2 & I2 & C2 & S2 & P2 & Q2).
    exists h2, t2. cbn [flips]. rewrite RetryFacts.run_app, R1, R2.
    replace (i + S n)%nat with (S i + n)%nat by lia.
    rewrite Nat.even_succ, <- Nat.negb_even.
    split; [reflexivity|].
    split; [destruct (Nat.even n); exact I2|].
    split; [rewrite C2, C1; lia|]. repeat split; congruence.
Qed.

Lemma changed_props_contested (now : Z) (sim1 sim2 : option string) (f1 f2 : nat) :
  falsy sim1 = false -> falsy sim2 = false ->
  closure_eqb (sim1, f1) (sim2, f2) = false ->
  exists h,
    run JSON_parse [SockOpen 0; Render sim2 f2 false] (mount now sim1 f1 false)
      = Some h /\
    contested (sim2, f2) (sim1, f1) 0 1 h /\
    clock h = now /\ sent h = [] /\ simId h = sim2 /\ onMessage h = f2.
Proof.
  intros F1 F2 D.
  set (m0 := mkHook now [mkWS (sim1, f1) CONNECTING] [] [] 1 [] [] [] true
               sim1 f1 false false None (Some 0%nat) None None).
  set (m1 := mkHook now [mkWS (sim1, f1) OPEN] [] [] 1 [] [] [] true
               sim1 f1 false true None (Some 0%nat) None None).
  set (m2 := mkHook now [mkWS (sim1, f1) CLOSING; mkWS (sim2, f2) CONNECTING]
               [] [] 1 [] [] [] true sim2 f2 false false None (Some 1%nat)
               None None).
  assert (E0 : mount now sim1 f1 false = m0).
  { unfold mount, connection_effect, connect. cbn [fst]. rewrite F1. reflexivity. }
  assert (E1 : step JSON_parse (SockOpen 0) m0 = Some m1) by reflexivity.
  assert (E2 : step JSON_parse (Render sim2 f2 false) m1 = Some m2).
  { cbn [step Hook.mounted m1]. f_equal. unfold render.
    change (closure_eqb (simId m1, onMessage m1) (sim2, f2))
      with (closure_eqb (sim1, f1) (sim2, f2)).
    rewrite D. cbn [negb when].
    unfold connection_cleanup, connection_effect, connect. cbn [fst Hook.simId m1].
    rewrite F1, F2. reflexivity. }
  exists m2. rewrite E0. cbn [run]. rewrite E1, E2.
  split; [reflexivity|]. unfold contested. cbn. repeat split.
Qed.

(** X: a changed connection is contested for ever.  When a render changes
    the simulation id or the handler of a connected, paused manager, the
    socket it replaces reports its close, [ws.onclose] reconnects with the
    closure of that old socket, which closes the new one, whose close
    reconnects with the new closure, and so on: every 2000 ms the current
    socket is replaced, and after an odd number of rounds the manager is
    connecting for the old simulation while its props name the new one. *)
Theorem changed_connection_is_contested (now : Z) (sim1 sim2 : option string)
    (f1 f2 : nat) (n : nat) :
  falsy sim1 = false -> falsy sim2 = false ->
  closure_eqb (sim1, f1) (sim2, f2) = false ->
  exists h,
    run JSON_parse (SockOpen 0 :: Render sim2 f2 false :: flips 0 1 n)
      (mount now sim1 f1 false) = Some h /\
    simId h = sim2 /\ onMessage h = f2 /\
    clock h = (now + 2000 * Z.of_nat n)%Z /\
    List.length (sockets h) = (n + 2)%nat /\
    wsRef h = Some (S n) /\
    nth_error (sockets h) (S n) =
      Some (mkWS (if Nat.even n then (sim2, f2) else (sim1, f1)) CONNECTING) /\
    sent h = [].
Proof.
  intros F1 F2 D.
  destruct (changed_props_contested now sim1 sim2 f1 f2 F1 F2 D)
    as (h0 & R0 & I0 & C0 & S0 & P0 & Q0).
  destruct (many_flips n (sim2, f2) (sim1, f1) 0%nat 1%positive h0 F2 F1 I0)
    as (h & t & R & (N0 & N1 & L & W & _) & C & S & P & Q).
  exists h.
  change (SockOpen 0 :: Render sim2 f2 false :: flips 0 1 n)
    with ([SockOpen 0; Render sim2 f2 false] ++ flips 0 1 n).
  rewrite RetryFacts.run_app, R0, R. cbn [Nat.add] in *.
  split; [reflexivity|].
  split; [congruence|]. split; [congruence|].
  split; [rewrite C, C0; reflexivity|].
  split; [rewrite L; lia|].
  split; [exact W|]. split; [exact N1 | congruence].
Qed.

End Flip.

(** Simulation [sim-1] replaced by [sim-2]: after three rounds, six seconds
    later, the manager is connecting for [sim-1] again. *)
Lemma old_simulation_comes_back :
  (falsy (Some "sim-1") = false /\ falsy (Some "sim-2") = false /\
   closure_eqb (Some "sim-1", 0%nat) (Some "sim-2", 0%nat) = false) /\
  exists h,
    run Json.parse (SockOpen 0 :: Render (Some "sim-2") 0 false :: flips 0 1 3)
      Scenario.mounted = Some h /\
    simId h = Some "sim-2" /\ clock h = 6000%Z /\
    nth_error (sockets h) 4 = Some (mkWS (Some "sim-1", 0%nat) CONNECTING) /\
    wsRef h = Some 4%nat.
Proof.
  split; [repeat split|].
  destruct (changed_connection_is_contested Json.parse 0 (Some "sim-1")
              (Some "sim-2") 0%nat 0%nat 3 eq_refl eq_refl eq_refl)
    as (h & R & P & _ & C & _ & W & N & _).
  exists h. split; [exact R|]. split; [exact P|]. split; [exact C|].
  split; [exact N | exact W].
Defined.

End FlipFacts.

(* ===================================================================== *)
(** ** Setting the running flag                                           *)
(* ===================================================================== *)

Module RunningFacts.
Import Json Hook.

(** C2 (code defect).  The orchestrator hands the hook a new handler at every
    render (App.jsx, lines 18-26), the one that sets [isRunning] included,
    and [connect] depends on the handler (line 69).  Set running by a render
    that keeps the handler, the connected manager of the scenario sends its
    signals at 100, 200 and 300 ms.  Set running by a render with a new
    handler, it closes its socket and opens another: it is running and not
    connected, has no interval, and whatever happens next, short of a socket
    opening, sends nothing; 300 ms later no signal has gone out.  When the
    closed socket then reports its close after the new one has opened, the
    manager counts itself disconnected while its socket is open, and
    [sendStep] sends. *)
Theorem C2_flag_set_with_new_handler_is_not_paced :
  (exists h,
      run Json.parse (Render (Some "sim-1") 0 true :: pace 1 3) Scenario.connected
        = Some h /\
      sent h = [(0%nat, 100%Z); (0%nat, 200%Z); (0%nat, 300%Z)]) /\
  (exists h1,
      step Json.parse (Render (Some "sim-1") 1 true) Scenario.connected = Some h1 /\
      isRunning h1 = true /\ isConnected h1 = false /\
      ready_of 0 h1 = Some CLOSING /\
      wsRef h1 = Some 1%nat /\ ready_of 1 h1 = Some CONNECTING /\
      intervals h1 = [] /\
      (forall es h2,
          forallb keeps_closed es = true -> run Json.parse es h1 = Some h2 ->
          sent h2 = [] /\ isConnected h2 = false) /\
      exists h2,
        run Json.parse [Elapse 100; Elapse 100; Elapse 100] h1 = Some h2 /\
        clock h2 = 300%Z /\ sent h2 = []) /\
  (exists h,
      run Json.parse
          [Render (Some "sim-1") 1 true; SockOpen 1; SockClose 0]
          Scenario.connected = Some h /\
      isRunning h = true /\ isConnected h = false /\ intervals h = [] /\
      channel_open h = true /\
      sent (sendStep h) = [(1%nat, 0%Z)]).
Proof.
  split; [|split].
  - eexists. split; [vm_compute; reflexivity | reflexivity].
  - pose (h1 := render (Some "sim-1") 1 true Scenario.connected).
    assert (S : step Json.parse (Render (Some "sim-1") 1 true) Scenario.connected
                = Some h1) by (vm_compute; reflexivity).
    assert (P : paced_ok h1 = true) by (vm_compute; reflexivity).
    assert (C : isConnected h1 = false) by (vm_compute; reflexivity).
    assert (S0 : sent h1 = []) by (vm_compute; reflexivity).
    exists h1. split; [exact S|].
    split; [vm_compute; reflexivity|]. split; [exact C|].
    split; [vm_compute; reflexivity|].
    split; [vm_compute; reflexivity|].
    split; [vm_compute; reflexivity|].
    split; [vm_compute; reflexivity|].
    split.
    + intros es h2 K R.
      destruct (RetryFacts.run_stays_closed Json.parse es h1 h2 P C K R) as (A & B).
      split; [rewrite A; exact S0 | exact (B C)].
    + eexists. split; [vm_compute; reflexivity|]. split; reflexivity.
  - eexists. split; [vm_compute; reflexivity|]. repeat split.
Qed.

End RunningFacts.

(* ===================================================================== *)
(** ** Further facts about the scene renderer                             *)
(* ===================================================================== *)

Module FrameFacts.
Import Canvas.
Local Open Scope Q_scope.

Lemma rendered_bindings (p : Props) (l : locals) (o : overlay) :
  SimulationCanvas p = Some (l, o) -> destructure (simulationState p) = Some l.
Proof.
  unfold SimulationCanvas.
  destruct (destructure (simulationState p)) as [l'|]; [|discriminate].
  destruct (l_vehicles l'); [|discriminate]. intros [= <- _]. reflexivity.
Qed.

Lemma destructure_lights (s : Snapshot) (l : locals) :
  destructure s = Some l ->
  l_trafficLights l = or_default [] (traffic_lights s).
Proof.
  unfold destructure. destruct (or_default _ (config s)); [|discriminate].
  intros [= <-]. reflexivity.
Qed.

Lemma destructure_vehicles (s : Snapshot) (l : locals) :
  destructure s = Some l ->
  l_vehicles l = or_default [] (vehicles s).
Proof.
  unfold destructure. destruct (or_default _ (config s)); [|discriminate].
  intros [= <-]. reflexivity.
Qed.

(** *** The text baseline *)

Lemma draw_light_baseline (now : Z) (gw gh : Q) (l : Light.t) (c : canvas) :
  textBaseline (ctx (draw_light now gw gh l c)) =
  if queued l then "middle"%string else textBaseline (ctx c).
Proof.
  destruct c as [W H k st p ps]. destruct k.
  unfold draw_light, queued.
  destruct (String.eqb (Light.state l) "YELLOW");
    destruct (0 <? Light.queue_length l)%Z; reflexivity.
Qed.

Lemma forEach_lights_baseline (now : Z) (gw gh : Q) (ls : list Light.t) (c : canvas) :
  textBaseline (ctx (forEach ls (draw_light now gw gh) c)) =
  if existsb queued ls then "middle"%string else textBaseline (ctx c).
Proof.
  unfold forEach. revert c.
  induction ls as [|l ls IH]; intros c; [reflexivity|].
  cbn [fold_left existsb]. rewrite IH, draw_light_baseline.
  destruct (queued l), (existsb queued ls); reflexivity.
Qed.

Lemma draw_effect_baseline (now : Z) (l : locals) (c c' : canvas)
    (vs : list Vehicle.t) (ls : list Light.t) :
  l_vehicles l = Some vs -> l_trafficLights l = Some ls ->
  draw_effect now l c = Done c' ->
  textBaseline (ctx c') =
  if existsb queued ls then "middle"%string else textBaseline (ctx c).
Proof.
  intros Hv Hl. unfold draw_effect. rewrite Hv, Hl. intros [= <-].
  rewrite forEach_lights_baseline.
  destruct (CanvasFacts.forEach_vehicles (gridWidth l) (gridHeight l) vs
              (draw_background c)) as (_ & _ & Hk & _).
  rewrite Hk, CanvasFacts.draw_background_eq. reflexivity.
Qed.

Lemma lights_of_well_formed (s : Snapshot) (l : locals) (ls : list Light.t) :
  destructure s = Some l -> l_trafficLights l = Some ls ->
  existsb queued ls = shows_badge s.
Proof.
  unfold destructure, shows_badge.
  destruct (or_default _ (config s)); [|discriminate].
  intros [= <-]. cbn. destruct (traffic_lights s); cbn; intros [= <-]; reflexivity.
Qed.

(** One frame on a canvas that is as new but for its baseline: it renders,
    and leaves the canvas as new but for its baseline. *)
Lemma present_keeps_fresh (now : Z) (p : Props) (b : string) (c : canvas) :
  well_formed (simulationState p) -> fresh_but b c ->
  exists c' o,
    present now p c = (Done c', Some o) /\
    fresh_but (if shows_badge (simulationState p) then "middle"%string else b) c'.
Proof.
  intros (Hv & Hl & Hc) (W & H & S & A & D & B).
  destruct p as [s running click]. cbn [simulationState] in *.
  destruct (CanvasFacts.renders_without_null s running click Hv Hl Hc)
    as (l & vs & ls & o & Hd & Hvs & Hls & Hr).
  unfold present. rewrite Hr.
  destruct (CanvasFacts.draw_effect_eq now l c vs ls Hvs Hls)
    as (c' & E & W' & H' & S' & A' & D' & _).
  exists c', o. rewrite E. split; [reflexivity|].
  pose proof (draw_effect_baseline now l c c' vs ls Hvs Hls E) as B'.
  rewrite (lights_of_well_formed s l ls Hd Hls), B in B'.
  unfold fresh_but. repeat split; congruence.
Qed.

Lemma present_all_snoc (f : Z * Props) (earlier : list (Z * Props))
    (now : Z) (p : Props) (c : canvas) :
  present_all (f :: earlier ++ [(now, p)]) c =
  match present (fst f) (snd f) c with
  | (Done c', _) => present_all (earlier ++ [(now, p)]) c'
  | failed => failed
  end.
Proof.
  destruct f as [t q]. cbn [present_all fst snd].
  destruct (earlier ++ [(now, p)]) eqn:E; [|reflexivity].
  destruct earlier; discriminate E.
Qed.

Lemma present_all_fresh (earlier : list (Z * Props)) (now : Z) (p : Props)
    (b : string) (c : canvas) :
  Forall (fun f => well_formed (simulationState (snd f))) earlier ->
  fresh_but b c ->
  exists c',
    present_all (earlier ++ [(now, p)]) c = present now p c' /\
    fresh_but (if existsb (fun f => shows_badge (simulationState (snd f))) earlier
               then "middle"%string else b) c'.
Proof.
  revert b c. induction earlier as [|f earlier IH]; intros b c F I.
  - exists c. split; [reflexivity | exact I].
  - inversion F as [|f' rest Hf Hrest]; subst.
    destruct (present_keeps_fresh (fst f) (snd f) b c Hf I) as (c1 & o & E & I1).
    destruct (IH _ c1 Hrest I1) as (c' & E' & I').
    exists c'. cbn [app]. rewrite present_all_snoc, E. split; [exact E'|].
    cbn [existsb]. destruct (shows_badge (simulationState (snd f)));
      [|exact I'].
    cbn [orb]. destruct (existsb _ earlier); exact I'.
Qed.

(** X: what a frame owes to the frames before it.  After any run of
    well-formed snapshots on a new canvas, the picture is the one the last
    snapshot gives on a new canvas, except that its text baseline is
    [middle] when some earlier snapshot showed a queue badge: the history
    counts for that one bit and nothing else. *)
Theorem history_is_one_bit (earlier : list (Z * Props)) (now : Z) (p : Props) :
  Forall (fun f => well_formed (simulationState (snd f))) earlier ->
  well_formed (simulationState p) ->
  visual (present_all (earlier ++ [(now, p)]) new_canvas) =
  visual (present now p
            (set_textBaseline
               (if existsb (fun f => shows_badge (simulationState (snd f))) earlier
                then "middle" else "alphabetic")
               new_canvas)).
Proof.
  intros F (Hv & Hl & Hc).
  assert (I0 : fresh_but "alphabetic" new_canvas) by (repeat split).
  destruct (present_all_fresh earlier now p _ new_canvas F I0)
    as (c' & E & (W & H & S & A & D & B)).
  rewrite E. destruct p as [s running click]. cbn [simulationState] in *.
  apply CanvasFacts.frame_depends_on_context_only; assumption.
Qed.

(** *** Time *)

Lemma draw_light_timeless (t1 t2 : Z) (gw gh : Q) (l : Light.t) (c : canvas) :
  String.eqb (Light.state l) "YELLOW" = false ->
  draw_light t1 gw gh l c = draw_light t2 gw gh l c.
Proof.
  intros Y. unfold draw_light. rewrite Y. reflexivity.
Qed.

Lemma forEach_lights_timeless (t1 t2 : Z) (gw gh : Q) (ls : list Light.t) (c : canvas) :
  forallb (fun l => negb (String.eqb (Light.state l) "YELLOW")) ls = true ->
  forEach ls (draw_light t1 gw gh) c = forEach ls (draw_light t2 gw gh) c.
Proof.
  unfold forEach. revert c.
  induction ls as [|l ls IH]; intros c Y; [reflexivity|].
  cbn [forallb] in Y. apply andb_prop in Y. destruct Y as [Y1 Y2].
  apply negb_true_iff in Y1. cbn [fold_left].
  rewrite (draw_light_timeless t1 t2 gw gh l c Y1). apply IH. exact Y2.
Qed.

(** X: the clock reaches the picture through yellow signals only.  A
    snapshot without a signal in state [YELLOW] gives the same result,
    picture, overlay or error, whenever it is drawn. *)
Theorem frame_is_timeless_without_yellow (t1 t2 : Z) (p : Props) (c : canvas) :
  no_yellow (simulationState p) = true ->
  present t1 p c = present t2 p c.
Proof.
  intros Y. unfold present.
  destruct (SimulationCanvas p) as [[l o]|] eqn:R; [|reflexivity].
  f_equal. unfold draw_effect.
  destruct (l_vehicles l) as [vs|]; [|reflexivity].
  destruct (l_trafficLights l) as [ls|] eqn:Hl; [|reflexivity].
  f_equal. apply forEach_lights_timeless.
  pose proof (destructure_lights _ l (rendered_bindings p l o R)) as L.
  rewrite Hl in L. unfold no_yellow in Y.
  destruct (traffic_lights (simulationState p)); cbn in L;
    try discriminate L; injection L as ->; [reflexivity | exact Y].
Qed.

(** *** The props that do not reach the canvas *)

(** X: the running flag and the click handler reach the overlay only.  Two
    deliveries of one snapshot that differ in [isRunning] or in
    [onCanvasClick] paint the same canvas, or fail alike; the overlay shows
    exactly one of the LIVE and PAUSED badges, LIVE when running, and is the
    same otherwise. *)
Theorem running_flag_reaches_overlay_only (now : Z) (s : Snapshot)
    (r1 r2 k1 k2 : bool) (c : canvas) :
  fst (present now (mkProps s r1 k1) c) = fst (present now (mkProps s r2 k2) c) /\
  (snd (present now (mkProps s r1 k1) c) = None <->
   snd (present now (mkProps s r2 k2) c) = None) /\
  (forall o,
      snd (present now (mkProps s r1 k1) c) = Some o ->
      o_live o = r1 /\ o_paused o = negb r1 /\
      snd (present now (mkProps s r2 k2) c) =
        Some (mkOverlay r2 (negb r2) (o_step o) (o_vehicles o) (o_grid o)
                        (o_algorithm o))).
Proof.
  unfold present, SimulationCanvas. cbn [simulationState isRunning].
  destruct (destructure s) as [l|]; cbn [fst snd];
    [|split; [reflexivity|]; split; [tauto | discriminate]].
  destruct (l_vehicles l) as [vs|]; cbn [fst snd];
    [|split; [reflexivity|]; split; [tauto | discriminate]].
  split; [reflexivity|]. split; [split; discriminate|].
  intros o [= <-]. cbn. auto.
Qed.

(** *** Fields that are null *)

(** X: [null] fields.  A [null] config or a [null] vehicle list makes the
    render throw: nothing is painted and the canvas keeps the last frame.  A
    [null] signal list lets the render through and makes the effect throw
    after the background and the vehicles are painted.  Either way the
    component is gone: the frames that follow are not drawn. *)
Theorem null_field_stops_the_renderer (now : Z) (s : Snapshot) (r k : bool)
    (c : canvas) :
  (config s = Null \/ vehicles s = Null ->
   present now (mkProps s r k) c = (Threw c, None)) /\
  (config s <> Null -> vehicles s <> Null -> traffic_lights s = Null ->
   exists l vs o c',
     destructure s = Some l /\ l_vehicles l = Some vs /\
     present now (mkProps s r k) c = (Threw c', Some o) /\
     surface c' =
       background_paints (width c) (height c) (ctx c) ++
       flat_map (vehicle_paints (width c) (height c) (ctx_after_background (ctx c))
                   (gridWidth l) (gridHeight l)) vs) /\
  (forall c' o more,
      present now (mkProps s r k) c = (Threw c', o) ->
      present_all ((now, mkProps s r k) :: more) c = (Threw c', o)).
Proof.
  split; [|split].
  - unfold present, SimulationCanvas, destructure. cbn [simulationState].
    intros [E|E]; rewrite E; [reflexivity|].
    destruct (or_default _ (config s)); reflexivity.
  - intros Hc Hv Hl.
    unfold present, SimulationCanvas, destructure. cbn [simulationState].
    destruct (config s) as [| |cfg]; [|congruence|];
      destruct (vehicles s) as [| |vs]; try congruence;
      rewrite Hl; cbn;
      do 4 eexists; (split; [reflexivity|]); (split; [reflexivity|]);
      unfold draw_effect; cbn [l_vehicles l_trafficLights gridWidth gridHeight];
      (split; [reflexivity|]).
    all: try match goal with
             | |- surface (forEach ?vs (draw_vehicle ?gw ?gh) ?c0) = _ =>
                 destruct (CanvasFacts.forEach_vehicles gw gh vs c0)
                   as (_ & _ & _ & _ & P); rewrite P
             end;
         rewrite CanvasFacts.draw_background_eq; reflexivity.
  - intros c' o more E. cbn [present_all]. rewrite E.
    destruct more; reflexivity.
Qed.

(** *** Where things land *)

Lemma scale_bounds (x grid size : Q) :
  0 < grid -> 0 <= size -> 0 <= x -> x <= grid ->
  0 <= scale x grid size /\ scale x grid size <= size.
Proof.
  intros G S X0 X1. unfold scale.
  assert (R0 : 0 <= x / grid).
  { apply Qle_shift_div_l; [exact G|]. lra. }
  assert (R1 : x / grid <= 1).
  { apply Qle_shift_div_r; [exact G|]. lra. }
  split; nra.
Qed.

(** X: the grid maps into the canvas and the canvas into the grid.  A
    vehicle inside the grid has its marker centred inside the canvas, and the
    marker overhangs the edge by 8 pixels at most; a click inside the element
    is reported as a point of the grid. *)
Theorem grid_and_canvas_bounds (gw gh : Q) :
  0 < gw -> 0 < gh ->
  (forall v c,
      0 <= width c -> 0 <= height c ->
      0 <= Vehicle.x v -> Vehicle.x v <= gw ->
      0 <= Vehicle.y v -> Vehicle.y v <= gh ->
      exists cx cy r rest,
        vehicle_paints (width c) (height c) (ctx c) gw gh v =
          FillPath [ArcTo cx cy r] (Vehicle.color v)
                   (Opaque (vehicle_opacity (Vehicle.waiting_time v))) :: rest /\
        0 <= cx /\ cx <= width c /\ 0 <= cy /\ cy <= height c /\
        -8 <= cx - r /\ cx + r <= width c + 8 /\
        -8 <= cy - r /\ cy + r <= height c + 8) /\
  (forall l p rect clientX clientY simX simY,
      gridWidth l = gw -> gridHeight l = gh ->
      0 < rect_width rect -> 0 < rect_height rect ->
      left rect <= clientX -> clientX <= left rect + rect_width rect ->
      top rect <= clientY -> clientY <= top rect + rect_height rect ->
      handleCanvasClick l p (Some rect) clientX clientY = Some (simX, simY) ->
      0 <= simX /\ simX <= gw /\ 0 <= simY /\ simY <= gh).
Proof.
  intros Gw Gh. split.
  - intros v c W H X0 X1 Y0 Y1.
    destruct (scale_bounds (Vehicle.x v) gw (width c) Gw W X0 X1) as (A & B).
    destruct (scale_bounds (Vehicle.y v) gh (height c) Gh H Y0 Y1) as (C & D).
    destruct (CanvasFacts.marker_size_bounds (Vehicle.speed v)) as (M0 & M1).
    unfold vehicle_paints. cbn [app].
    do 4 eexists. split; [reflexivity|].
    repeat split; try assumption; lra.
  - intros l p rect cx cy simX simY <- <- Rw Rh X0 X1 Y0 Y1.
    unfold handleCanvasClick. destruct (negb (onCanvasClick p)); [discriminate|].
    intros [= <- <-].
    assert (S : forall a b g, 0 < b -> 0 < g -> 0 <= a -> a <= b ->
                0 <= a / b * g /\ a / b * g <= g).
    { intros a b g B G A0 A1.
      assert (R0 : 0 <= a / b) by (apply Qle_shift_div_l; [exact B | lra]).
      assert (R1 : a / b <= 1) by (apply Qle_shift_div_r; [exact B | lra]).
      split; nra. }
    destruct (S (cx - left rect) (rect_width rect) (gridWidth l)) as (A & B);
      [assumption | assumption | lra | lra |].
    destruct (S (cy - top rect) (rect_height rect) (gridHeight l)) as (C & D);
      [assumption | assumption | lra | lra |].
    auto.
Qed.

(** *** How much is painted *)

Lemma length_flat_map_vehicles (W H : Q) (k : ctx_state) (gw gh : Q)
    (vs : list Vehicle.t) :
  List.length (flat_map (vehicle_paints W H k gw gh) vs) =
  (2 * List.length vs
   + List.length (filter (fun v => Qpos_bool (Vehicle.speed v)) vs))%nat /\
  List.length (filter is_text (flat_map (vehicle_paints W H k gw gh) vs)) =
  List.length (filter (fun v => Qpos_bool (Vehicle.speed v)) vs).
Proof.
  induction vs as [|v vs (IH1 & IH2)]; [split; reflexivity|].
  cbn [flat_map filter]. rewrite filter_app, !length_app, IH1, IH2.
  unfold vehicle_paints. destruct (Qpos_bool (Vehicle.speed v)); cbn; split; lia.
Qed.

Lemma length_lights_paints (now : Z) (W H : Q) (a : alpha) (dash : list Q)
    (gw gh : Q) (ls : list Light.t) (fill : string) :
  List.length (lights_paints now W H a dash gw gh fill ls) =
  (2 * List.length ls
   + List.length (filter (fun l => String.eqb (Light.state l) "YELLOW") ls)
   + 2 * List.length (filter queued ls))%nat /\
  List.length (filter is_text (lights_paints now W H a dash gw gh fill ls)) =
  List.length (filter queued ls).
Proof.
  revert fill. induction ls as [|l ls IH]; intros fill; [split; reflexivity|].
  destruct (IH (fill_after fill l)) as (IH1 & IH2).
  cbn [lights_paints filter]. rewrite filter_app, !length_app, IH1, IH2.
  unfold light_paints, queued.
  destruct (String.eqb (Light.state l) "YELLOW");
    destruct (0 <? Light.queue_length l)%Z; cbn; split; lia.
Qed.

(** X: the size of a frame.  A frame replaces the surface by six background
    paints, two per vehicle and one more for each moving vehicle, two per
    signal, one more for each yellow signal and two more for each signal with
    a queue; its texts are the speed labels of the moving vehicles and the
    badges of the queued signals, nothing else. *)
Theorem frame_paint_count (now : Z) (l : locals) (c c' : canvas)
    (vs : list Vehicle.t) (ls : list Light.t) :
  l_vehicles l = Some vs -> l_trafficLights l = Some ls ->
  draw_effect now l c = Done c' ->
  List.length (surface c') = paint_count vs ls /\
  List.length (filter is_text (surface c')) =
  (List.length (filter (fun v => Qpos_bool (Vehicle.speed v)) vs)
   + List.length (filter queued ls))%nat.
Proof.
  intros Hv Hl E.
  destruct (CanvasFacts.draw_effect_eq now l c vs ls Hv Hl)
    as (c1 & E1 & _ & _ & _ & _ & _ & S).
  rewrite E in E1. injection E1 as <-. rewrite S.
  unfold frame_paints, paint_count.
  rewrite !filter_app, !length_app.
  destruct (length_flat_map_vehicles (width c) (height c)
              (ctx_after_background (ctx c)) (gridWidth l) (gridHeight l) vs)
    as (V1 & V2).
  destruct (length_lights_paints now (width c) (height c) (globalAlpha (ctx c))
              [] (gridWidth l) (gridHeight l) ls "#7f8c8d") as (L1 & L2).
  rewrite V1, V2, L1, L2. cbn. split; lia.
Qed.

(** *** On the frames of the scenario *)

(** A frame with a queue badge, then a frame with a moving vehicle. *)
Lemma badge_then_label :
  visual (present_all [(1%Z, Scenario.paused Scenario.queued_signal);
                       (2%Z, Scenario.paused Scenario.moving_vehicle)]
                      new_canvas) =
  visual (present 2 (Scenario.paused Scenario.moving_vehicle)
            (set_textBaseline "middle" new_canvas)).
Proof.
  apply (history_is_one_bit [(1%Z, Scenario.paused Scenario.queued_signal)] 2
           (Scenario.paused Scenario.moving_vehicle)).
  - constructor; [repeat split; discriminate | constructor].
  - repeat split; discriminate.
Defined.

(** The red signal of the scenario looks the same at any time. *)
Lemma red_signal_is_timeless :
  no_yellow Scenario.queued_signal = true /\
  present 1 (Scenario.paused Scenario.queued_signal) new_canvas =
  present 2 (Scenario.paused Scenario.queued_signal) new_canvas.
Proof.
  split; [reflexivity|].
  apply (frame_is_timeless_without_yellow 1 2
           (Scenario.paused Scenario.queued_signal) new_canvas).
  reflexivity.
Defined.

(** The moving vehicle of the scenario, running and paused. *)
Lemma running_and_paused_paint_alike :
  fst (present 0 (mkProps Scenario.moving_vehicle true true) new_canvas) =
  fst (present 0 (mkProps Scenario.moving_vehicle false false) new_canvas).
Proof.
  exact (proj1 (running_flag_reaches_overlay_only 0 Scenario.moving_vehicle
                  true false true false new_canvas)).
Defined.

(** A snapshot whose vehicle list is [null]. *)
Lemma null_vehicles_paint_nothing :
  vehicles (mkSnapshot None Null Undefined Undefined) = Null /\
  present 0 (mkProps (mkSnapshot None Null Undefined Undefined) false true)
          new_canvas = (Threw new_canvas, None).
Proof.
  split; [reflexivity|].
  apply (proj1 (null_field_stops_the_renderer 0
                  (mkSnapshot None Null Undefined Undefined) false true
                  new_canvas)).
  right. reflexivity.
Defined.

(** A vehicle in the middle of the default grid, on the new canvas. *)
Lemma middle_of_the_grid_is_on_canvas :
  (0 < 50 /\ 0 <= 25 /\ 25 <= 50) /\
  exists cx cy r rest,
    vehicle_paints 800 600 ctx_default 50 50 (Vehicle.mk 25 25 "#f00" 2 0) =
      FillPath [ArcTo cx cy r] "#f00" (Opaque 1) :: rest /\
    0 <= cx /\ cx <= 800 /\ 0 <= cy /\ cy <= 600.
Proof.
  split; [repeat split; discriminate|].
  destruct (proj1 (grid_and_canvas_bounds 50 50 eq_refl eq_refl)
              (Vehicle.mk 25 25 "#f00" 2 0) new_canvas)
    as (cx & cy & r & rest & E & A & B & C & D & _);
    try discriminate.
  exists cx, cy, r, rest. auto.
Defined.

(** The frame of the moving vehicle has nine paints, one of them a text. *)
Lemma moving_vehicle_frame_has_nine_paints :
  exists c',
    draw_effect 0 (mkLocals (Some [Vehicle.mk 25 25 "#f00" 2 0]) (Some []) 50 50)
                new_canvas = Done c' /\
    List.length (surface c') = 9%nat /\
    List.length (filter is_text (surface c')) = 1%nat.
Proof.
  destruct (CanvasFacts.draw_effect_eq 0
              (mkLocals (Some [Vehicle.mk 25 25 "#f00" 2 0]) (Some []) 50 50)
              new_canvas [Vehicle.mk 25 25 "#f00" 2 0] [] eq_refl eq_refl)
    as (c' & E & _).
  exists c'. split; [exact E|].
  exact (frame_paint_count 0
           (mkLocals (Some [Vehicle.mk 25 25 "#f00" 2 0]) (Some []) 50 50)
           new_canvas c' [Vehicle.mk 25 25 "#f00" 2 0] [] eq_refl eq_refl E).
Defined.

End FrameFacts.

(* ===================================================================== *)
(** ** Facts about the orchestrator, the panel, the dashboard and the DOM  *)
(* ===================================================================== *)

Module OrchestratorFacts.
Import Json App Orchestrator.

Lemma get_throws (key : string) (v : json) : get key v = Throws <-> v = JNull.
Proof.
  destruct v as [ |b|q|s|l|m]; cbn; split; try discriminate; try reflexivity.
  destruct (assoc key m); discriminate.
Qed.

Lemma deliveries_keep (calls : list (nat * json)) (a : app) :
  simulationId (apply_deliveries calls a) = simulationId a /\
  isRunning (apply_deliveries calls a) = isRunning a.
Proof.
  unfold apply_deliveries. revert a.
  induction calls as [|c calls IH]; intros a; [split; reflexivity|].
  destruct (IH (onSnapshot (snd c) a)) as (A & B).
  split; [exact A | exact B].
Qed.

(** X: the last snapshot wins.  Whatever was delivered before, after a
    delivery the orchestrator holds that snapshot, its [metrics] and its
    [historical_metrics] (or empty objects in their place), and the
    simulation id and running flag it had at the start. *)
Theorem last_snapshot_wins (calls : list (nat * json)) (k : nat) (d : json) (a : app) :
  apply_deliveries (calls ++ [(k, d)]) a =
  mkApp (simulationId a) d (or_empty "metrics" d)
        (or_empty "historical_metrics" d) (isRunning a).
Proof.
  destruct (deliveries_keep calls a) as (A & B).
  unfold apply_deliveries in *. rewrite fold_left_app. cbn [fold_left snd].
  unfold onSnapshot at 1. rewrite A, B. reflexivity.
Qed.

(** X: how creating the first simulation ends.  The loading flag is always
    cleared and the running flag never touched.  The create request is
    always made; the state is read only when it succeeded, and the metrics
    only when the state was read; an error is logged, last, exactly when a
    request fails or a read returns [null].  The outcome is either
    success, exactly when all three succeed and neither read returns [null],
    or the error screen with one logged error; in the second case the state
    written before the failure stays: once the create request has succeeded
    the new id is held, error screen or not, and once the state has been
    read it is held too; on success the orchestrator holds the new id, the
    state read, its history and the metrics read. *)
Theorem create_outcomes (created : response string) (state metrics : response json)
    (s : shell) :
  let r := createNewSimulation created state metrics s in
  let msg := "Failed to create simulation. Please check if backend is running." in
  (forall id st, created = Resolved id -> state = Resolved st ->
     simulationState (held (fst r)) = st) /\
  (forall id st m,
     created = Resolved id -> state = Resolved st -> metrics = Resolved m ->
     st <> JNull -> m <> JNull ->
     held (fst r) =
       mkApp (Some id) st (or_empty "current_metrics" m)
             (or_empty "historical_metrics" st) (isRunning (held s))) /\
  (state = Rejected \/ metrics = Rejected ->
     App.metrics (held (fst r)) = App.metrics (held s) /\
     historicalMetrics (held (fst r)) = historicalMetrics (held s)) /\
  Orchestrator.isLoading (fst r) = false /\
  isRunning (held (fst r)) = isRunning (held s) /\
  (error (fst r) = None /\ view (fst r) = Main /\
   filter is_request (snd r) = snd r
   \/
   error (fst r) = Some msg /\ view (fst r) = Failure msg /\
   exists requests, snd r = requests ++ [ConsoleError] /\
                    filter is_request requests = requests) /\
  snd r =
    (let create := CreateSimulation new_simulation_config in
     match created, state, metrics with
     | Rejected, _, _ => [create; ConsoleError]
     | Resolved id, Rejected, _ =>
         [create; GetSimulationState id; ConsoleError]
     | Resolved id, Resolved _, Rejected =>
         [create; GetSimulationState id; GetMetrics id; ConsoleError]
     | Resolved id, Resolved st, Resolved m =>
         [create; GetSimulationState id; GetMetrics id] ++
         match st, m with
         | JNull, _ | _, JNull => [ConsoleError]
         | _, _ => []
         end
     end) /\
  (error (fst r) = None <->
   exists id st m, created = Resolved id /\ state = Resolved st /\
                   metrics = Resolved m /\ st <> JNull /\ m <> JNull) /\
  (forall id, created = Resolved id -> simulationId (held (fst r)) = Some id) /\
  (created = Rejected -> held (fst r) = held s).
Proof.
  cbn zeta. split; [|split; [|split]].
  { intros id st -> ->. unfold createNewSimulation, failed.
    destruct metrics as [m|]; [|reflexivity].
    destruct (get "current_metrics" m); try reflexivity;
      destruct (get "historical_metrics" st); reflexivity. }
  { intros id st m -> -> -> Ns Nm. unfold createNewSimulation, failed.
    destruct (get "current_metrics" m) eqn:Gm;
      [apply get_throws in Gm; congruence| |];
      (destruct (get "historical_metrics" st) eqn:Gs;
       [apply get_throws in Gs; congruence| |]); reflexivity. }
  { unfold createNewSimulation, failed.
    intros [->| ->]; destruct created as [id|]; try (split; reflexivity);
      destruct state as [st|]; split; reflexivity. }
  unfold createNewSimulation, failed.
  destruct created as [id|].
  2:{ cbn. split; [reflexivity|]. split; [reflexivity|].
      split; [right; split; [reflexivity|]; split; [reflexivity|];
              exists [CreateSimulation new_simulation_config]; split; reflexivity|].
      split; [reflexivity|].
      split; [split; [discriminate | intros (? & ? & ? & E & _); discriminate E]|].
      split; [discriminate | reflexivity]. }
  destruct state as [st|].
  2:{ cbn. split; [reflexivity|]. split; [reflexivity|].
      split; [right; split; [reflexivity|]; split; [reflexivity|];
              exists [CreateSimulation new_simulation_config; GetSimulationState id];
              split; reflexivity|].
      split; [reflexivity|].
      split; [split; [discriminate | intros (? & ? & ? & _ & E & _); discriminate E]|].
      split; [intros ? [= <-]; reflexivity | discriminate]. }
  destruct metrics as [m|].
  2:{ cbn. split; [reflexivity|]. split; [reflexivity|].
      split; [right; split; [reflexivity|]; split; [reflexivity|];
              exists [CreateSimulation new_simulation_config; GetSimulationState id;
                      GetMetrics id];
              split; reflexivity|].
      split; [reflexivity|].
      split; [split; [discriminate
                     | intros (? & ? & ? & _ & _ & E & _); discriminate E]|].
      split; [intros ? [= <-]; reflexivity | discriminate]. }
  destruct (get "current_metrics" m) eqn:Gm.
  { apply get_throws in Gm. subst m.
    cbn. split; [reflexivity|]. split; [reflexivity|].
    split; [right; split; [reflexivity|]; split; [reflexivity|];
            exists [CreateSimulation new_simulation_config; GetSimulationState id;
                    GetMetrics id];
            split; reflexivity|].
    split; [destruct st; reflexivity|].
    split; [split; [discriminate
                   | intros (? & ? & m & _ & _ & E & _ & N); injection E as <-;
                     congruence]|].
    split; [intros ? [= <-]; reflexivity | discriminate]. }
  all: assert (Nm : m <> JNull)
    by (intros ->; cbn in Gm; discriminate Gm).
  all: destruct (get "historical_metrics" st) eqn:Gs.
  all: try (apply get_throws in Gs; subst st;
    cbn; split; [reflexivity|]; split; [reflexivity|];
    split; [right; split; [reflexivity|]; split; [reflexivity|];
            exists [CreateSimulation new_simulation_config; GetSimulationState id;
                    GetMetrics id];
            split; reflexivity|];
    split; [destruct m; first [reflexivity | congruence]|];
    split; [split; [discriminate
                   | intros (? & st & ? & _ & E & _ & N & _); injection E as <-;
                     congruence]|];
    split; [intros ? [= <-]; reflexivity | discriminate]).
  all: assert (Ns : st <> JNull)
    by (intros ->; cbn in Gs; discriminate Gs).
  all: cbn; split; [reflexivity|]; split; [reflexivity|];
    split; [left; repeat split|];
    split; [destruct st, m; first [reflexivity | congruence]|];
    split; [split; [intros _; exists id, st, m; auto | reflexivity]|];
    split; [intros ? [= <-]; reflexivity | discriminate].
Qed.

(** X: how a restart ends.  It always pauses and always clears the loading
    flag, never asks for metrics, and never touches the metrics it holds: a
    successful restart shows the new simulation with the old one's metrics
    and history.  When the create request fails the old id and state stay;
    when the read fails the new id is held with the old state. *)
Theorem restart_outcomes (created : response string) (state : response json)
    (s : shell) :
  let r := handleRestartSimulation created state s in
  Orchestrator.isLoading (fst r) = false /\
  isRunning (held (fst r)) = false /\
  metrics (held (fst r)) = metrics (held s) /\
  historicalMetrics (held (fst r)) = historicalMetrics (held s) /\
  (forall id, ~ In (GetMetrics id) (snd r)) /\
  (created = Rejected ->
   simulationId (held (fst r)) = simulationId (held s) /\
   simulationState (held (fst r)) = simulationState (held s) /\
   view (fst r) = Failure "Failed to restart simulation.") /\
  (forall id, created = Resolved id -> state = Rejected ->
   simulationId (held (fst r)) = Some id /\
   simulationState (held (fst r)) = simulationState (held s) /\
   view (fst r) = Failure "Failed to restart simulation.") /\
  (forall id st, created = Resolved id -> state = Resolved st ->
   simulationId (held (fst r)) = Some id /\
   simulationState (held (fst r)) = st /\
   view (fst r) = Main /\
   snd r = [CreateSimulation new_simulation_config; GetSimulationState id]).
Proof.
  cbn zeta. unfold handleRestartSimulation, failed.
  destruct created as [id|]; [destruct state as [st|]|]; cbn.
  - do 4 (split; [reflexivity|]).
    split; [intros i H; repeat (destruct H as [H|H]; [discriminate H|]); exact H|].
    split; [discriminate|]. split; [discriminate|].
    intros ? ? [= <-] [= <-]. repeat split.
  - do 4 (split; [reflexivity|]).
    split; [intros i H; repeat (destruct H as [H|H]; [discriminate H|]); exact H|].
    split; [discriminate|].
    split; [intros ? [= <-] _; repeat split | discriminate].
  - do 4 (split; [reflexivity|]).
    split; [intros i H; repeat (destruct H as [H|H]; [discriminate H|]); exact H|].
    split; [intros _; repeat split|].
    split; discriminate.
Qed.

(** X: the run button toggles per render.  The handler writes the negation
    of the flag of the render it was made in: two clicks handled by the same
    render count as one, two clicks with a render in between restore the
    flag; nothing else changes. *)
Theorem toggle_is_per_render (a : app) :
  handleToggleRunning (isRunning a) (handleToggleRunning (isRunning a) a) =
    handleToggleRunning (isRunning a) a /\
  (let a1 := handleToggleRunning (isRunning a) a in
   handleToggleRunning (isRunning a1) a1 = a) /\
  isRunning (handleToggleRunning (isRunning a) a) = negb (isRunning a) /\
  simulationId (handleToggleRunning (isRunning a) a) = simulationId a /\
  simulationState (handleToggleRunning (isRunning a) a) = simulationState a.
Proof.
  destruct a as [id st m hm r]. unfold handleToggleRunning, setIsRunning. cbn.
  rewrite negb_involutive. repeat split.
Qed.

(** The first simulation is created and read, and its metrics fail. *)
Lemma create_with_failed_metrics :
  simulationId
    (held (fst (createNewSimulation (Resolved "sim-1")
                  (Resolved Scenario.snapshot_value) Rejected
                  Orchestrator.initial))) = Some "sim-1" /\
  view (fst (createNewSimulation (Resolved "sim-1")
               (Resolved Scenario.snapshot_value) Rejected
               Orchestrator.initial)) <> Main /\
  snd (createNewSimulation (Resolved "sim-1")
         (Resolved Scenario.snapshot_value) Rejected Orchestrator.initial) =
  [CreateSimulation new_simulation_config; GetSimulationState "sim-1";
   GetMetrics "sim-1"; ConsoleError].
Proof.
  pose proof (create_outcomes (Resolved "sim-1") (Resolved Scenario.snapshot_value)
                Rejected Orchestrator.initial)
    as (_ & _ & _ & _ & _ & _ & K & _ & I & _).
  split; [exact (I "sim-1" eq_refl)|]. split; [discriminate | exact K].
Defined.

(** The session of the scenario is restarted as [sim-2]. *)
Lemma restart_of_the_session :
  let r := handleRestartSimulation (Resolved "sim-2")
             (Resolved Scenario.snapshot_value)
             (mkShell Scenario.session false None) in
  simulationId (held (fst r)) = Some "sim-2" /\
  metrics (held (fst r)) = metrics Scenario.session /\
  view (fst r) = Main.
Proof.
  cbn zeta.
  pose proof (restart_outcomes (Resolved "sim-2") (Resolved Scenario.snapshot_value)
                (mkShell Scenario.session false None))
    as (_ & _ & M & _ & _ & _ & _ & S).
  destruct (S "sim-2" Scenario.snapshot_value eq_refl eq_refl) as (A & _ & B & _).
  split; [exact A|]. split; [exact M | exact B].
Defined.

End OrchestratorFacts.

Module PanelFacts.
Import Json App Orchestrator Panel.

Lemma assoc_obj_set_same (k : string) (v : json) (m : list (string * json)) :
  assoc k (obj_set k v m) = Some v.
Proof.
  induction m as [|[k' v'] m IH]; cbn.
  - rewrite String.eqb_refl. reflexivity.
  - destruct (String.eqb k' k) eqn:E; cbn.
    + rewrite String.eqb_refl. reflexivity.
    + rewrite E. exact IH.
Qed.

Lemma assoc_obj_set_other (k k' : string) (v : json) (m : list (string * json)) :
  k' <> k -> assoc k' (obj_set k v m) = assoc k' m.
Proof.
  intros N. induction m as [|[k0 v0] m IH]; cbn.
  - destruct (String.eqb k k') eqn:E; [|reflexivity].
    apply String.eqb_eq in E. congruence.
  - destruct (String.eqb k0 k) eqn:E; cbn.
    + apply String.eqb_eq in E. subst k0.
      destruct (String.eqb k k') eqn:E'; [|reflexivity].
      apply String.eqb_eq in E'. congruence.
    + destruct (String.eqb k0 k'); [reflexivity | exact IH].
Qed.

Lemma keys_obj_set (k : string) (v : json) (m : list (string * json)) :
  In k (map fst m) -> map fst (obj_set k v m) = map fst m.
Proof.
  induction m as [|[k0 v0] m IH]; cbn; [intros []|].
  destruct (String.eqb k0 k) eqn:E; cbn.
  - apply String.eqb_eq in E. subst k0. reflexivity.
  - intros [H|H]; [subst k0; rewrite String.eqb_refl in E; discriminate E|].
    rewrite (IH H). reflexivity.
Qed.

(** X: what the Step button asks for.  With a simulation id, the panel
    first asks the control client for 10 steps and, when that succeeds, runs
    the orchestrator's advance: connected, one step signal follows and no
    state is fetched; not connected, a second request for 10 steps follows,
    20 in all.  When the panel's request fails nothing follows.  Without an
    id nothing happens. *)
Theorem step_button_advances (a : app) (id : string) (connected : bool)
    (stepped again : response unit) (fetched : response json) :
  simulationId a = Some id -> id <> EmptyString ->
  (stepped = Rejected ->
   step_button connected stepped again fetched a =
     (a, [StepSimulation id 10; App.ConsoleError])) /\
  (stepped <> Rejected ->
   step_button true stepped again fetched a =
     (a, [StepSimulation id 10; SendStep]) /\
   steps_requested (snd (step_button true stepped again fetched a)) = 10%Z /\
   steps_requested (snd (step_button false stepped again fetched a)) = 20%Z /\
   (forall data, again <> Rejected -> fetched = Resolved data ->
      step_button false stepped again fetched a =
        (mkApp (simulationId a) data (metrics a) (historicalMetrics a)
               (isRunning a),
         [StepSimulation id 10; StepSimulation id 10;
          App.GetSimulationState id]))).
Proof.
  intros I N. apply String.eqb_neq in N.
  unfold step_button, Panel.handleStep, App.handleStep. rewrite I, N.
  split.
  - intros ->. destruct connected, again, fetched; reflexivity.
  - intros S. destruct stepped as [u|]; [|congruence].
    split; [reflexivity|]. split; [reflexivity|].
    split; [destruct again, fetched; reflexivity|].
    intros data A ->. destruct again; [reflexivity | congruence].
Qed.

(** X: what an algorithm button asks for.  With a simulation id, the panel
    asks the control client to change the algorithm; when that succeeds it
    writes the algorithm into its configuration, leaving the other settings
    alone, hands the whole new configuration to the orchestrator, which
    posts it, and tells the orchestrator of the change, which asks for the
    same change a second time.  When the first request fails nothing is
    written and nothing follows.  The busy flag is cleared either way. *)
Theorem algorithm_button_requests (a : app) (id algorithm : string)
    (changed updated changed_again : response unit) (p : panel) :
  simulationId a = Some id -> id <> EmptyString ->
  let r := algorithm_button changed updated changed_again a algorithm p in
  Panel.isLoading (fst r) = false /\
  (changed = Rejected ->
   config (fst r) = config p /\
   snd r = [ChangeAlgorithm id algorithm; Orchestrator.ConsoleError]) /\
  (changed <> Rejected ->
   filter is_request (snd r) =
     [ChangeAlgorithm id algorithm;
      UpdateConfig id (JObj (config (fst r)));
      ChangeAlgorithm id algorithm] /\
   assoc "algorithm" (config (fst r)) = Some (JStr algorithm) /\
   (forall k, k <> "algorithm" -> assoc k (config (fst r)) = assoc k (config p))).
Proof.
  intros I N. apply String.eqb_neq in N. cbn zeta.
  unfold algorithm_button, Panel.handleAlgorithmChange, handleConfigChange,
    Orchestrator.handleConfigUpdate, Orchestrator.handleAlgorithmChange.
  rewrite I, N.
  destruct changed as [u|]; cbn [fst snd Panel.isLoading config].
  - split; [reflexivity|]. split; [discriminate|]. intros _.
    split; [destruct updated, changed_again; reflexivity|].
    split; [apply assoc_obj_set_same|].
    intros k K. apply assoc_obj_set_other. exact K.
  - split; [reflexivity|]. split; [intros _; split; reflexivity | congruence].
Qed.

(** X: a setting written into the configuration.  Changing one of the
    settings the panel holds replaces its value where it stands: the keys and
    their order stay, the other values stay, and the orchestrator is handed
    exactly the configuration the panel now holds.  So after any number of
    changes to its seven settings the panel still holds these seven. *)
Theorem config_keeps_its_keys (cb : option (json -> list call)) (key : string)
    (value : json) (p : panel) :
  In key (map fst (config p)) ->
  let r := handleConfigChange cb key value p in
  map fst (config (fst r)) = map fst (config p) /\
  assoc key (config (fst r)) = Some value /\
  (forall k, k <> key -> assoc k (config (fst r)) = assoc k (config p)) /\
  (forall f, cb = Some f -> snd r = f (JObj (config (fst r)))) /\
  (forall changes : list (string * json),
      Forall (fun c => In (fst c) (map fst (config p))) changes ->
      map fst (config (fold_left
                         (fun q c => fst (handleConfigChange cb (fst c) (snd c) q))
                         changes p)) = map fst (config p)).
Proof.
  intros K. cbn zeta. unfold handleConfigChange. cbn [fst snd config].
  split; [apply keys_obj_set; exact K|].
  split; [apply assoc_obj_set_same|].
  split; [intros k Hk; apply assoc_obj_set_other; exact Hk|].
  split; [intros f ->; reflexivity|].
  intros changes. clear K. revert p.
  induction changes as [|c changes IH]; intros p F; [reflexivity|].
  inversion F as [|c' rest Hc Hrest]; subst. cbn [fold_left fst config].
  rewrite IH.
  - cbn [config]. apply keys_obj_set. exact Hc.
  - cbn [config]. rewrite (keys_obj_set _ _ _ Hc). exact Hrest.
Qed.

(** The session of the scenario, disconnected. *)
Lemma step_button_of_the_session :
  (simulationId Scenario.session = Some "sim-1" /\ "sim-1" <> EmptyString) /\
  steps_requested
    (snd (step_button false (Resolved tt) (Resolved tt)
            (Resolved Scenario.snapshot_value) Scenario.session)) = 20%Z.
Proof.
  split; [split; [reflexivity | discriminate]|].
  refine (proj1 (proj2 (proj2 (proj2 (step_button_advances Scenario.session "sim-1" false
            (Resolved tt) (Resolved tt) (Resolved Scenario.snapshot_value)
            eq_refl _) _)))); discriminate.
Defined.

(** The session of the scenario switches to the algorithm [adaptive]. *)
Lemma algorithm_button_of_the_session :
  simulationId Scenario.session = Some "sim-1" /\
  filter is_request
    (snd (algorithm_button (Resolved tt) (Resolved tt) (Resolved tt)
            Scenario.session "adaptive" Panel.initial)) =
  [ChangeAlgorithm "sim-1" "adaptive";
   UpdateConfig "sim-1"
     (JObj [("num_vehicles", JNum 20); ("spawn_rate", JNum (1 # 10));
            ("simulation_speed", JNum 1); ("algorithm", JStr "adaptive");
            ("grid_width", JNum 50); ("grid_height", JNum 50);
            ("road_config", JStr "crossroad")]);
   ChangeAlgorithm "sim-1" "adaptive"].
Proof.
  split; [reflexivity|].
  refine (proj1 (proj2 (proj2 (algorithm_button_requests Scenario.session "sim-1"
            "adaptive" (Resolved tt) (Resolved tt) (Resolved tt) Panel.initial
            eq_refl _)) _)); discriminate.
Defined.

(** The slider of the spawn rate, on the panel as it starts. *)
Lemma spawn_rate_slider :
  In "spawn_rate" (map fst (config Panel.initial)) /\
  map fst (config (fst (handleConfigChange None "spawn_rate" (JNum (1 # 2))
                          Panel.initial))) =
  map fst (config Panel.initial).
Proof.
  assert (K : In "spawn_rate" (map fst (config Panel.initial)))
    by (right; left; reflexivity).
  split; [exact K|].
  exact (proj1 (config_keeps_its_keys None "spawn_rate" (JNum (1 # 2))
                  Panel.initial K)).
Defined.

End PanelFacts.

Module DashboardFacts.
Import Json Dashboard.

Lemma map_from_length (f : json -> nat -> row) (i : nat) (l : list json) :
  List.length (map_from f i l) = List.length l.
Proof.
  revert i. induction l as [|x l IH]; intros i; [reflexivity|].
  cbn. rewrite IH. reflexivity.
Qed.

Lemma map_from_nth (f : json -> nat -> row) (i j : nat) (l : list json) :
  nth_error (map_from f i l) j =
  option_map (fun x => f x (i + j)%nat) (nth_error l j).
Proof.
  revert i j. induction l as [|x l IH]; intros i j.
  - destruct j; reflexivity.
  - destruct j as [|j]; cbn.
    + rewrite Nat.add_0_r. reflexivity.
    + rewrite IH. replace (S i + j)%nat with (i + S j)%nat by lia. reflexivity.
Qed.

Lemma found_is_truthy (key : string) (h v : json) :
  get key h = Found v -> truthy h = true.
Proof.
  destruct h; cbn; try discriminate. reflexivity.
Qed.

(** X: the chart data.  When the history holds an array of waiting times,
    the charts get one point per waiting time, numbered from 0 in order;
    each value of a point is the entry of its history at that index, and 0
    when the entry is falsy, when the history is shorter, or when there is
    no such history. *)
Theorem chart_has_a_point_per_waiting_time (h : json) (l : list json) :
  get "waiting_time_history" h = Found (JArr l) ->
  exists rows,
    formatChartData (Some h) = Some rows /\
    List.length rows = List.length l /\
    (forall i w,
        nth_error l i = Some w ->
        exists r,
          nth_error rows i = Some r /\
          step r = i /\
          waitingTime r = (if truthy w then w else JNum 0) /\
          (forall key (value : row -> json),
              (key, value) = ("delay_history"%string, delay) \/
              (key, value) = ("throughput_history"%string, throughput) \/
              (key, value) = ("speed_history"%string, speed) \/
              (key, value) = ("vehicle_count_history"%string, vehicles) ->
              (forall series, get key h = Found (JArr series) ->
                 value r = or_zero (nth_error series i) /\
                 ((List.length series <= i)%nat -> value r = JNum 0) /\
                 (forall v, nth_error series i = Some v ->
                    value r = (if truthy v then v else JNum 0))) /\
              (get key h = Missing -> value r = JNum 0) /\
              (get key h = Found JNull -> value r = JNum 0))).
Proof.
  intros G. exists (map_from (point h) 0 l).
  unfold formatChartData. rewrite (found_is_truthy _ _ _ G), G. cbn [negb].
  split; [reflexivity|]. split; [apply map_from_length|].
  intros i w N. exists (point h w i).
  split; [rewrite map_from_nth, N; reflexivity|].
  split; [reflexivity|]. split; [reflexivity|].
  assert (A : forall key,
             (forall series, get key h = Found (JArr series) ->
                or_zero (at_index key i h) = or_zero (nth_error series i) /\
                ((List.length series <= i)%nat ->
                   or_zero (at_index key i h) = JNum 0) /\
                (forall v, nth_error series i = Some v ->
                   or_zero (at_index key i h) = (if truthy v then v else JNum 0))) /\
             (get key h = Missing -> or_zero (at_index key i h) = JNum 0) /\
             (get key h = Found JNull -> or_zero (at_index key i h) = JNum 0)).
  { intros key. unfold at_index. split; [|split].
    - intros series ->. cbn [element].
      split; [reflexivity|]. split.
      + intros L. apply nth_error_None in L. rewrite L. reflexivity.
      + intros v ->. reflexivity.
    - intros ->. reflexivity.
    - intros ->. reflexivity. }
  intros key value [E|[E|[E|E]]]; injection E as -> ->; apply A.
Qed.

(** X: when the charts fail.  [formatChartData] throws exactly when the
    history holds, as its waiting times, something that is neither missing,
    nor [null], nor an array; in every other case it returns, with no point
    at all unless the waiting times are an array.  On the empty object the
    orchestrator starts with, and after a snapshot without history, the
    charts are empty. *)
Theorem chart_fails_only_on_a_non_array (hm : option json) :
  (formatChartData hm = None <->
   exists h v, hm = Some h /\ get "waiting_time_history" h = Found v /\
               v <> JNull /\ forall l, v <> JArr l) /\
  (forall rows, formatChartData hm = Some rows -> rows <> [] ->
     exists h l, hm = Some h /\ get "waiting_time_history" h = Found (JArr l)) /\
  formatChartData (Some (App.historicalMetrics App.initial)) = Some [] /\
  (forall d a, get "historical_metrics" d = Missing ->
     formatChartData (Some (App.historicalMetrics (App.onSnapshot d a))) = Some []).
Proof.
  split; [|split; [|split]].
  - unfold formatChartData. destruct hm as [h|].
    2:{ split; [discriminate | intros (? & ? & E & _); discriminate E]. }
    destruct (get "waiting_time_history" h) as [| |v] eqn:G.
    + destruct (negb (truthy h)); split; try discriminate;
        intros (h' & v & [= <-] & E & _); congruence.
    + destruct (negb (truthy h)); split; try discriminate;
        intros (h' & v & [= <-] & E & _); congruence.
    + rewrite (found_is_truthy _ _ _ G). cbn [negb].
      destruct v as [ |b|q|s|l|m].
      * split; [discriminate|].
        intros (h' & v & [= <-] & E & N1 & _). rewrite G in E.
        injection E as <-. congruence.
      * split; [|reflexivity]. intros _. exists h, (JBool b).
        repeat split; [exact G | discriminate | discriminate].
      * split; [|reflexivity]. intros _. exists h, (JNum q).
        repeat split; [exact G | discriminate | discriminate].
      * split; [|reflexivity]. intros _. exists h, (JStr s).
        repeat split; [exact G | discriminate | discriminate].
      * split; [discriminate|].
        intros (h' & v & [= <-] & E & _ & N2). rewrite G in E.
        injection E as <-. destruct (N2 l eq_refl).
      * split; [|reflexivity]. intros _. exists h, (JObj m).
        repeat split; [exact G | discriminate | discriminate].
  - intros rows. unfold formatChartData. destruct hm as [h|].
    2:{ intros [= <-] N. congruence. }
    destruct (negb (truthy h)); [intros [= <-] N; congruence|].
    destruct (get "waiting_time_history" h) as [| |v] eqn:G;
      try (intros [= <-] N; congruence).
    destruct v as [ |b|q|s|l|m]; try discriminate;
      try (intros [= <-] N; congruence).
    intros _ _. exists h, l. split; [reflexivity | exact G].
  - reflexivity.
  - intros d a G. unfold App.onSnapshot, App.or_empty. rewrite G. reflexivity.
Qed.

(** A history of three waiting times and two delays: the second point has
    waiting time 0 and delay 9, the third has no delay. *)
Lemma chart_of_three_waiting_times :
  exists rows r1 r2,
    formatChartData
      (Some (JObj [("waiting_time_history", JArr [JNum 4; JNum 0; JNum 2]);
                   ("delay_history", JArr [JNum 7; JNum 9])])) = Some rows /\
    List.length rows = 3%nat /\
    nth_error rows 1 = Some r1 /\ waitingTime r1 = JNum 0 /\ delay r1 = JNum 9 /\
    nth_error rows 2 = Some r2 /\ delay r2 = JNum 0 /\ throughput r2 = JNum 0.
Proof.
  destruct (chart_has_a_point_per_waiting_time
              (JObj [("waiting_time_history", JArr [JNum 4; JNum 0; JNum 2]);
                     ("delay_history", JArr [JNum 7; JNum 9])])
              [JNum 4; JNum 0; JNum 2] eq_refl)
    as (rows & E & L & P).
  destruct (P 1%nat (JNum 0) eq_refl) as (r1 & N1 & _ & W1 & V1).
  destruct (P 2%nat (JNum 2) eq_refl) as (r2 & N2 & _ & _ & V2).
  exists rows, r1, r2.
  split; [exact E|]. split; [exact L|]. split; [exact N1|]. split; [exact W1|].
  split.
  { destruct (V1 "delay_history"%string delay (or_introl eq_refl)) as (D & _).
    destruct (D [JNum 7; JNum 9] eq_refl) as (_ & _ & D').
    exact (D' (JNum 9) eq_refl). }
  split; [exact N2|]. split.
  { destruct (V2 "delay_history"%string delay (or_introl eq_refl)) as (D & _).
    destruct (D [JNum 7; JNum 9] eq_refl) as (_ & D' & _).
    apply D'. cbn. lia. }
  destruct (V2 "throughput_history"%string throughput
              (or_intror (or_introl eq_refl))) as (_ & M & _).
  exact (M eq_refl).
Defined.

(** A history whose waiting times are a number. *)
Lemma chart_of_a_number_fails :
  formatChartData (Some (JObj [("waiting_time_history", JNum 3)])) = None.
Proof.
  apply (proj1 (chart_fails_only_on_a_non_array _)).
  exists (JObj [("waiting_time_history", JNum 3)]), (JNum 3).
  repeat split; discriminate.
Defined.

End DashboardFacts.

Module DomFacts.
Import Canvas Dom.
Local Open Scope Q_scope.



(** The state [constructor]: no colour on either side. *)
Lemma dom_light_of_an_inherited_name :
  stateColors "constructor" = Member /\
  l_backgroundColor
    (Dom.TrafficLight (Light.mk 10 10 "constructor" "horizontal" 0) 50 50) = None /\
  light_paints 0 800 600 (Opaque 1) [] 50 50 "#7f8c8d"
    (Light.mk 10 10 "constructor" "horizontal" 0) =
  [ FillRect (scale 10 50 800 - 20 / 2) (scale 10 50 600 - 8 / 2) 20 8
             "#7f8c8d" (Opaque 1);
    StrokeRect (scale 10 50 800 - 20 / 2) (scale 10 50 600 - 8 / 2) 20 8
               "#333" 2 [] (Opaque 1) ].
Proof.
  repeat split.
Qed.


End DomFacts.
